(** * Mechanical-fit verification engine of codex_hull_lab: a shallow embedding

    The development follows the two tools
    [codex_hull_lab/tools/verify_reference_fit.py] and
    [codex_hull_lab/tools/validate_full.py].

    Numbers.  Python floats are embedded as exact rationals [Q]; the
    comparisons of the source ([<=], [>=], [<], [>]) become the decidable
    comparisons of [Q].  Rounding error of IEEE doubles, NaN and infinities
    are outside the model (the one place where the source filters
    non-finite values keeps an explicit [option]).

    External collaborators.  The mesh kernel (trimesh: signed distance,
    ray casting, watertightness, rigid rotation) and the two libm functions
    the tools call ([math.hypot], [math.cos] of an angle in degrees) are
    operations of the class [GeometryProvider]; nothing is assumed about
    them.

    Strings.  A Python [str] is held as the bytes of its UTF-8 encoding.

    Exceptions.  A Python exception is a value [Err e] of the result type
    [res]. *)

From Stdlib Require Import ZArith QArith Qround Qabs Qminmax List Ascii String Bool Lia.
From stdpp Require Import gmap strings.
Import ListNotations.

Local Open Scope string_scope.
Local Open Scope Q_scope.
Local Open Scope list_scope.

(** ** Rational helpers *)

Module Num.

Definition Qleb (a b : Q) : bool := Qle_bool a b.
Definition Qltb (a b : Q) : bool := negb (Qle_bool b a).
Definition Qgeb (a b : Q) : bool := Qle_bool b a.
Definition Qgtb (a b : Q) : bool := negb (Qle_bool a b).
Definition Qeqb (a b : Q) : bool := Qeq_bool a b.

(** Python's [min(a, b)] and [max(a, b)]: the first argument wins a tie. *)
Definition pymin (a b : Q) : Q := if Qltb b a then b else a.
Definition pymax (a b : Q) : Q := if Qgtb b a then b else a.

(** [min(xs)] / [np.min(xs)] of a non-empty sequence; [None] is the
    [ValueError] raised on an empty one. *)
Definition min_list (xs : list Q) : option Q :=
  match xs with
  | [] => None
  | x :: rest => Some (fold_left pymin rest x)
  end.

Definition max_list (xs : list Q) : option Q :=
  match xs with
  | [] => None
  | x :: rest => Some (fold_left pymax rest x)
  end.

(** Round half to even, as Python 3's [round]. *)
Definition round_half_even (q : Q) : Z :=
  let f := Qfloor q in
  let r := q - inject_Z f in
  if Qltb r (1 # 2) then f
  else if Qgtb r (1 # 2) then (f + 1)%Z
  else if Z.even f then f else (f + 1)%Z.

(** [round(v, 6)]. *)
Definition round6 (v : Q) : Q :=
  Qmake (round_half_even (v * 1000000)) 1000000.

End Num.
Export Num.

(** ** Exceptions *)

Inductive exn : Type :=
  | KeyError (key : string)
  | TypeError
  | ValueError
  | ZeroDivisionError
  | AttributeError
  | OSError
  | TimeoutExpired
  | OtherError.

Inductive res (A : Type) : Type :=
  | Ok (a : A)
  | Err (e : exn).
Arguments Ok {A} a.
Arguments Err {A} e.

Definition rbind {A B} (m : res A) (k : A -> res B) : res B :=
  match m with
  | Ok a => k a
  | Err e => Err e
  end.

Notation "'let*' x ':=' m 'in' k" := (rbind m (fun x => k))
  (at level 10, x name, m at level 100, k at level 200).

Fixpoint rmap {A B} (f : A -> res B) (xs : list A) : res (list B) :=
  match xs with
  | [] => Ok []
  | x :: rest =>
      let* y := f x in
      let* ys := rmap f rest in
      Ok (y :: ys)
  end.

Definition of_option {A} (e : exn) (o : option A) : res A :=
  match o with
  | Some a => Ok a
  | None => Err e
  end.

(** [d[key]] on a dict of floats. *)
Definition getitem (d : gmap string Q) (key : string) : res Q :=
  of_option (KeyError key) (d !! key).

(** ** Meshes and the external geometry kernel *)

Definition point : Type := Q * Q * Q.

Definition px (p : point) : Q := fst (fst p).
Definition py (p : point) : Q := snd (fst p).
Definition pz (p : point) : Q := snd p.

Definition translate (t p : point) : point :=
  (px p + px t, py p + py t, pz p + pz t).

(** A loaded [trimesh.Trimesh]: vertex positions and index triples. *)
Record Trimesh : Type := {
  vertices : list point;
  faces : list (nat * nat * nat)
}.

(** [mesh.triangles_center]: the mean of the three corners of each face.
    The loader only produces faces whose indices are in range; the default
    corner is never read on such a mesh. *)
Definition triangles_center (m : Trimesh) : list point :=
  map (fun f : nat * nat * nat =>
         let '(i, j, k) := f in
         let a := nth i (vertices m) (0, 0, 0) in
         let b := nth j (vertices m) (0, 0, 0) in
         let c := nth k (vertices m) (0, 0, 0) in
         ((px a + px b + px c) / 3,
          (py a + py b + py c) / 3,
          (pz a + pz b + pz c) / 3))
      (faces m).

(** The operations the tools obtain from trimesh and from libm. *)
Class GeometryProvider : Type := {
  (** [trimesh.proximity.signed_distance(mesh, [p])[0]] *)
  signed_distance : Trimesh -> point -> Q;
  (** [mesh.is_watertight] *)
  is_watertight : Trimesh -> bool;
  (** the hit locations [mesh.ray.intersects_location] reports for one ray
      (origin, direction), with [multiple_hits=True] *)
  ray_hits : Trimesh -> point -> point -> list point;
  (** [trimesh.transform_points] by [rotation_matrix(radians(angle),
      [0,1,0], origin)] *)
  rotate_about_y : Q -> point -> point -> point;
  (** [mesh.face_normals] and [mesh.area_faces], one entry per face *)
  face_normals : Trimesh -> list point;
  area_faces : Trimesh -> list Q;
  (** [mesh.extents], [abs(mesh.volume)] before [abs], [mesh.area] *)
  extents : Trimesh -> point;
  volume : Trimesh -> Q;
  area : Trimesh -> Q;
  (** [trimesh.proximity.thickness(mesh, points, normals=..., method=...)]
      when the build has it: [None] for a raised exception, and [None]
      inside the list for a non-finite value; the method is [true] for
      ["ray"], [false] for ["max_sphere"] *)
  thickness :
    option (Trimesh -> list point -> list point -> bool -> option (list (option Q)));
  (** [math.hypot] *)
  hypot : Q -> Q -> Q;
  (** [math.cos(math.radians(deg))] *)
  cos_deg : Q -> Q
}.

(** ** verify_reference_fit.py *)

Module ReferenceFit.

Definition CANONICAL_REFERENCE_CONSTANTS : list (string * Q) :=
  [ ("REFERENCE_PIVOT_Y", 33.0);
    ("REFERENCE_PIVOT_Z", 38.0);
    ("REFERENCE_SLOT_DIAMETER", 7.5);
    ("REFERENCE_BALL_DIAMETER", 7.25);
    ("REFERENCE_SLOT_ENTRY_Z", 45.0);
    ("REFERENCE_FRAME_SPACING", 16.0);
    ("REFERENCE_FRAME_BOTTOM_Z", 17.0);
    ("REFERENCE_COORDINATE_RIM_Z", 45.0);
    ("REFERENCE_MODEL_RIM_Z", 0.0) ].

Record VerificationThresholds : Type := {
  axis_tolerance_mm : Q;
  slot_depth_target_mm : Q;
  slot_depth_tolerance_mm : Q;
  corridor_radial_clearance_min_mm : Q;
  frame_penetration_max_mm : Q;
  frame_min_gap_mm : Q;
  floor_clearance_min_mm : Q;
  axis_scan_radius_mm : Q;
  axis_scan_step_mm : Q;
  corridor_samples : Z;
  frame_bottom_z_tolerance_mm : Q
}.

Definition default_thresholds : VerificationThresholds := {|
  axis_tolerance_mm := 0.25;
  slot_depth_target_mm := 7.0;
  slot_depth_tolerance_mm := 0.05;
  corridor_radial_clearance_min_mm := 0.08;
  frame_penetration_max_mm := 0.01;
  frame_min_gap_mm := 0.08;
  floor_clearance_min_mm := 2.0;
  axis_scan_radius_mm := 0.8;
  axis_scan_step_mm := 0.1;
  corridor_samples := 29;
  frame_bottom_z_tolerance_mm := 0.05
|}.

(** [build_thresholds]: the thresholds of a command line, whose parsed
    arguments carry the same eleven fields. *)
Definition build_thresholds (args : VerificationThresholds) : VerificationThresholds := {|
  axis_tolerance_mm := axis_tolerance_mm args;
  slot_depth_target_mm := slot_depth_target_mm args;
  slot_depth_tolerance_mm := slot_depth_tolerance_mm args;
  corridor_radial_clearance_min_mm := corridor_radial_clearance_min_mm args;
  frame_penetration_max_mm := frame_penetration_max_mm args;
  frame_min_gap_mm := frame_min_gap_mm args;
  floor_clearance_min_mm := floor_clearance_min_mm args;
  axis_scan_radius_mm := axis_scan_radius_mm args;
  axis_scan_step_mm := axis_scan_step_mm args;
  corridor_samples := Z.max 2 (corridor_samples args);
  frame_bottom_z_tolerance_mm := pymax 0.001 (frame_bottom_z_tolerance_mm args)
|}.

(** *** evaluate_reference_constant_lock *)

Record delta_entry : Type := {
  de_name : string;
  de_expected : Q;
  de_observed : Q;
  de_delta_mm : Q
}.

(** The loop over [CANONICAL_REFERENCE_CONSTANTS.items()], with its two
    accumulators.  [constants.get(name)] is [None] for an absent name and
    the subtraction then raises [TypeError]. *)
Fixpoint lock_loop (canon : list (string * Q)) (constants : gmap string Q)
    (locked : bool) (deltas : list delta_entry) : res (bool * list delta_entry) :=
  match canon with
  | [] => Ok (locked, deltas)
  | (name, expected) :: rest =>
      match constants !! name with
      | None => Err TypeError
      | Some observed =>
          let delta := observed - expected in
          let locked' := if Qgtb (Qabs delta) 1e-6 then false else locked in
          lock_loop rest constants locked'
            (deltas ++ [ {| de_name := name; de_expected := expected;
                            de_observed := observed; de_delta_mm := delta |} ])
      end
  end.

Definition evaluate_reference_constant_lock (constants : gmap string Q)
    : res (bool * list delta_entry) :=
  lock_loop CANONICAL_REFERENCE_CONSTANTS constants true [].

(** *** numpy helpers *)

(** [np.linspace(start, stop, num)] *)
Definition linspace (start stop : Q) (num : Z) : res (list Q) :=
  if (num <? 0)%Z then Err ValueError
  else
    match Z.to_nat num with
    | O => Ok []
    | S O => Ok [start]
    | S n =>
        let step := (stop - start) / inject_Z (num - 1) in
        Ok (map (fun i => inject_Z (Z.of_nat i) * step + start) (seq 0 n)
              ++ [stop])
    end.

(** [int(np.argmax(xs))]: the first position of the largest value. *)
Fixpoint argmax_from (xs : list Q) (i best_i : nat) (best : Q) : nat :=
  match xs with
  | [] => best_i
  | x :: rest =>
      if Qgtb x best then argmax_from rest (S i) i x
      else argmax_from rest (S i) best_i best
  end.

Definition argmax (xs : list Q) : res nat :=
  match xs with
  | [] => Err ValueError
  | x :: rest => Ok (argmax_from rest 1 0%nat x)
  end.

Definition np_min (xs : list Q) : res Q := of_option ValueError (min_list xs).
Definition np_max (xs : list Q) : res Q := of_option ValueError (max_list xs).

(** *** slot_scan_grid *)

Definition slot_scan_grid (expected_x expected_y seat_z radius step : Q)
    : res (list point) :=
  if Qeqb step 0 then Err ZeroDivisionError
  else
    let points_per_axis := (round_half_even ((2 * radius) / step) + 1)%Z in
    let* xs := linspace (expected_x - radius) (expected_x + radius) points_per_axis in
    let* ys := linspace (expected_y - radius) (expected_y + radius) points_per_axis in
    Ok (flat_map (fun y => map (fun x => (x, y, seat_z)) xs) ys).

Section Analysis.
Context {provider : GeometryProvider}.

(** *** measure_slot_geometry *)

Record slot_check : Type := {
  expected_x_mm : Q;
  expected_y_mm : Q;
  observed_x_mm : Q;
  observed_y_mm : Q;
  axis_error_mm : Q;
  seat_free_radius_mm : Q;
  seat_radial_clearance_mm : Q;
  corridor_min_free_radius_mm : Q;
  corridor_min_radial_clearance_mm : Q;
  axis_pass : bool;
  corridor_pass : bool
}.

(** The vertical probe line of the corridor check: [corridor_samples]
    points at the observed seat (x, y), rising from [seat_z] to [entry_z]. *)
Definition corridor_path (observed_x observed_y seat_z entry_z : Q)
    (samples : Z) : res (list point) :=
  let* zs := linspace seat_z entry_z samples in
  Ok (map (fun z => (observed_x, observed_y, z)) zs).

Definition measure_slot_geometry (hull_mesh : Trimesh)
    (expected_x expected_y seat_z entry_z ball_radius : Q)
    (thresholds : VerificationThresholds) : res slot_check :=
  let* grid := slot_scan_grid expected_x expected_y seat_z
                 (axis_scan_radius_mm thresholds) (axis_scan_step_mm thresholds) in
  let scan_signed := map (signed_distance hull_mesh) grid in
  let scan_free_radius := map Qopp scan_signed in
  let* best_idx := argmax scan_free_radius in
  let observed_x := px (nth best_idx grid (0, 0, 0)) in
  let observed_y := py (nth best_idx grid (0, 0, 0)) in
  let seat_free_radius := nth best_idx scan_free_radius 0 in
  let seat_radial_clearance := seat_free_radius - ball_radius in
  let axis_error := hypot (observed_x - expected_x) (observed_y - expected_y) in
  let* path := corridor_path observed_x observed_y seat_z entry_z
                 (corridor_samples thresholds) in
  let corridor_signed := map (signed_distance hull_mesh) path in
  let corridor_free_radius := map Qopp corridor_signed in
  let* corridor_min_free_radius := np_min corridor_free_radius in
  let corridor_min_radial_clearance := corridor_min_free_radius - ball_radius in
  Ok {| expected_x_mm := expected_x;
        expected_y_mm := expected_y;
        observed_x_mm := observed_x;
        observed_y_mm := observed_y;
        axis_error_mm := axis_error;
        seat_free_radius_mm := seat_free_radius;
        seat_radial_clearance_mm := seat_radial_clearance;
        corridor_min_free_radius_mm := corridor_min_free_radius;
        corridor_min_radial_clearance_mm := corridor_min_radial_clearance;
        axis_pass := Qleb axis_error (axis_tolerance_mm thresholds);
        corridor_pass :=
          Qgeb corridor_min_radial_clearance
               (corridor_radial_clearance_min_mm thresholds) |}.

(** *** measure_floor_clearances *)

(** The heights of the hull hits of the downward ray of one contact point
    that lie below the point by more than 1e-6. *)
Definition z_hits_below (hull_mesh : Trimesh) (p : point) : list Q :=
  let origin := translate (0, 0, -(1e-4)) p in
  let hits := ray_hits hull_mesh origin (0, 0, -(1)) in
  List.filter (fun z => Qltb z (pz p - 1e-6)) (map pz hits).

(** The body of the loop over the contact points: a point without a hit
    below it is skipped, the others append one clearance. *)
Definition floor_clearance_of (hull_mesh : Trimesh) (p : point) : list Q :=
  match max_list (z_hits_below hull_mesh p) with
  | None => []
  | Some floor_z => [pz p - floor_z]
  end.

Definition measure_floor_clearances (hull_mesh : Trimesh)
    (bottom_points : list point) : list Q :=
  match bottom_points with
  | [] => []
  | _ => flat_map (floor_clearance_of hull_mesh) bottom_points
  end.

(** *** analyze_frame_fit *)

Record frame_check : Type := {
  placement_x_mm : Q;
  sample_point_count : nat;
  max_penetration_mm : Q;
  penetrating_points : nat;
  penetrating_points_over_tolerance : nat;
  min_gap_mm : Q;
  frame_bottom_z_mm : Q;
  bottom_probe_count : nat;
  floor_clearance_min_mm_obs : option Q;
  floor_clearance_samples_mm : list Q;
  interference_pass : bool;
  floor_clearance_pass : bool
}.

Definition count_nonzero {A} (f : A -> bool) (xs : list A) : nat :=
  length (List.filter f xs).

(** [float(np.min(-signed[non_penetrating])) if np.any(non_penetrating)
    else 0.0] *)
Definition min_gap_of (signed : list Q) : Q :=
  match min_list (map Qopp (List.filter (fun s => Qleb s 0) signed)) with
  | Some g => g
  | None => 0.0
  end.

(** The lowest height of the placed frame and its contact points: the
    vertices within the z-tolerance of that height. *)
Definition frame_bottom_points (frame_vertices : list point) (z_tolerance : Q)
    : res (Q * list point) :=
  let* min_z := np_min (map pz frame_vertices) in
  Ok (min_z,
      List.filter (fun v => Qleb (Qabs (pz v - min_z)) z_tolerance) frame_vertices).

(** The sample points of a placement: every vertex and every face centre
    of the frame, moved by the placement offset. *)
Definition placement_samples (frame_mesh : Trimesh) (translation : point)
    : list point :=
  map (translate translation)
      (vertices frame_mesh ++ triangles_center frame_mesh).

(** One iteration of [for x_sign in (-1, 1)]. *)
Definition analyze_frame_placement (hull_mesh frame_mesh : Trimesh)
    (frame_spacing_mm frame_alignment_z_mm : Q)
    (thresholds : VerificationThresholds) (x_sign : Q) : res frame_check :=
  let x_offset := x_sign * frame_spacing_mm in
  let translation : point := (x_offset, 0.0, frame_alignment_z_mm) in
  let transformed_samples := placement_samples frame_mesh translation in
  let sample_signed := map (signed_distance hull_mesh) transformed_samples in
  let* max_signed := np_max sample_signed in
  let max_penetration := pymax 0.0 max_signed in
  let penetrating_points := count_nonzero (fun s => Qgtb s 0.0) sample_signed in
  let penetrating_points_over_tolerance :=
    count_nonzero (fun s => Qgtb s (frame_penetration_max_mm thresholds))
                  sample_signed in
  let min_gap := min_gap_of sample_signed in
  let frame_vertices := map (translate translation) (vertices frame_mesh) in
  let* bottom := frame_bottom_points frame_vertices
                   (frame_bottom_z_tolerance_mm thresholds) in
  let min_z := fst bottom in
  let bottom_points := snd bottom in
  let floor_clearances := measure_floor_clearances hull_mesh bottom_points in
  let floor_clearance_min := min_list floor_clearances in
  Ok {| placement_x_mm := x_offset;
        sample_point_count := length transformed_samples;
        max_penetration_mm := max_penetration;
        penetrating_points := penetrating_points;
        penetrating_points_over_tolerance := penetrating_points_over_tolerance;
        min_gap_mm := min_gap;
        frame_bottom_z_mm := min_z;
        bottom_probe_count := length bottom_points;
        floor_clearance_min_mm_obs := floor_clearance_min;
        floor_clearance_samples_mm := floor_clearances;
        interference_pass :=
          Nat.eqb penetrating_points_over_tolerance 0
          && Qgeb min_gap (frame_min_gap_mm thresholds);
        floor_clearance_pass :=
          match floor_clearance_min with
          | None => false
          | Some m => Qgeb m (floor_clearance_min_mm thresholds)
          end |}.

Definition analyze_frame_fit (hull_mesh frame_mesh : Trimesh)
    (frame_spacing_mm frame_alignment_z_mm : Q)
    (thresholds : VerificationThresholds) : res (list frame_check) :=
  rmap (analyze_frame_placement hull_mesh frame_mesh frame_spacing_mm
          frame_alignment_z_mm thresholds)
       [-(1); 1].

(** *** analyze_reference_fit *)

Record measurements : Type := {
  seat_z_model_mm : Q;
  entry_z_model_mm : Q;
  frame_alignment_z_mm : Q;
  slot_depth_mm : Q;
  slot_diameter_mm : Q;
  ball_diameter_mm : Q;
  slot_radial_clearance_target_mm : Q;
  slot_checks : list slot_check;
  frame_checks : list frame_check;
  overall_min_frame_gap_mm : option Q;
  overall_floor_clearance_min_mm : option Q;
  hull_mesh_faces : nat;
  frame_mesh_faces : nat;
  slot_plug_mesh_faces : nat;
  slot_plug_mesh_watertight : bool
}.

(** The analysis part of the report: the [gates] dict keeps its insertion
    order, [pass] is [all(gates.values())]. *)
Record analysis : Type := {
  report_measurements : measurements;
  gates : list (string * bool);
  pass : bool
}.

(** [[x for x in (f(r) for r in results) if x is not None]] *)
Definition present_values {A} (f : A -> option Q) (xs : list A) : list Q :=
  flat_map (fun r => match f r with Some v => [v] | None => [] end) xs.

Definition analyze_reference_fit (hull_mesh frame_mesh slot_plug_mesh : Trimesh)
    (reference_constants : gmap string Q)
    (thresholds : VerificationThresholds)
    (reference_constants_locked : bool) : res analysis :=
  let* frame_spacing := getitem reference_constants "REFERENCE_FRAME_SPACING" in
  let* pivot_y := getitem reference_constants "REFERENCE_PIVOT_Y" in
  let* slot_diameter := getitem reference_constants "REFERENCE_SLOT_DIAMETER" in
  let* ball_diameter := getitem reference_constants "REFERENCE_BALL_DIAMETER" in
  let* pivot_z := getitem reference_constants "REFERENCE_PIVOT_Z" in
  let* slot_entry_z := getitem reference_constants "REFERENCE_SLOT_ENTRY_Z" in
  let* coordinate_rim_z := getitem reference_constants "REFERENCE_COORDINATE_RIM_Z" in
  let* model_rim_z := getitem reference_constants "REFERENCE_MODEL_RIM_Z" in
  let seat_z_model := pivot_z - coordinate_rim_z + model_rim_z in
  let entry_z_model := slot_entry_z - coordinate_rim_z + model_rim_z in
  let frame_alignment_z := model_rim_z - coordinate_rim_z in
  let slot_depth := slot_entry_z - pivot_z in
  let ball_radius := ball_diameter / 2.0 in
  let* slot_results :=
    rmap (fun signs : Q * Q =>
            measure_slot_geometry hull_mesh
              (fst signs * frame_spacing) (snd signs * pivot_y)
              seat_z_model entry_z_model ball_radius thresholds)
         [(-(1), -(1)); (-(1), 1); (1, -(1)); (1, 1)] in
  let* frame_results :=
    analyze_frame_fit hull_mesh frame_mesh frame_spacing frame_alignment_z
      thresholds in
  let overall_min_gap := min_list (map min_gap_mm frame_results) in
  let floor_values := present_values floor_clearance_min_mm_obs frame_results in
  let overall_floor_clearance_min := min_list floor_values in
  let slot_axis_pass := forallb axis_pass slot_results in
  let slot_corridor_pass := forallb corridor_pass slot_results in
  let slot_depth_pass :=
    Qleb (Qabs (slot_depth - slot_depth_target_mm thresholds))
         (slot_depth_tolerance_mm thresholds) in
  let frame_interference_pass := forallb interference_pass frame_results in
  let frame_floor_pass := forallb floor_clearance_pass frame_results in
  let gates :=
    [ ("hull_mesh_watertight", is_watertight hull_mesh);
      ("reference_constants_locked", reference_constants_locked);
      ("slot_axis_positions", slot_axis_pass);
      ("slot_depth", slot_depth_pass);
      ("slot_insertion_corridor", slot_corridor_pass);
      ("frame_interference", frame_interference_pass);
      ("frame_floor_clearance", frame_floor_pass) ] in
  Ok {| report_measurements :=
          {| seat_z_model_mm := seat_z_model;
             entry_z_model_mm := entry_z_model;
             frame_alignment_z_mm := frame_alignment_z;
             slot_depth_mm := slot_depth;
             slot_diameter_mm := slot_diameter;
             ball_diameter_mm := ball_diameter;
             slot_radial_clearance_target_mm :=
               (slot_diameter - ball_diameter) / 2.0;
             slot_checks := slot_results;
             frame_checks := frame_results;
             overall_min_frame_gap_mm := overall_min_gap;
             overall_floor_clearance_min_mm := overall_floor_clearance_min;
             hull_mesh_faces := length (faces hull_mesh);
             frame_mesh_faces := length (faces frame_mesh);
             slot_plug_mesh_faces := length (faces slot_plug_mesh);
             slot_plug_mesh_watertight := is_watertight slot_plug_mesh |};
        gates := gates;
        pass := forallb snd gates |}.

End Analysis.

End ReferenceFit.

(** ** JSON documents and the Python operations applied to them *)

Module Py.

(** A decoded JSON document ([json.loads]).  An object keeps the order of
    its keys, as a Python dict does; a decoded object has no repeated key. *)
#[local] Set Warnings "-register-all".
Inductive json : Type :=
  | JNull
  | JBool (b : bool)
  | JNum (q : Q)
  | JStr (s : string)
  | JArr (items : list json)
  | JObj (fields : list (string * json)).

(** An insertion-ordered dict with string keys. *)
Definition odict (V : Type) : Type := list (string * V).

Fixpoint od_get {V} (d : odict V) (key : string) : option V :=
  match d with
  | [] => None
  | (k, v) :: rest => if String.eqb k key then Some v else od_get rest key
  end.

(** [d[key] = v]: an existing key keeps its position. *)
Fixpoint od_set {V} (d : odict V) (key : string) (v : V) : odict V :=
  match d with
  | [] => [(key, v)]
  | (k, w) :: rest =>
      if String.eqb k key then (k, v) :: rest else (k, w) :: od_set rest key v
  end.

Definition od_values {V} (d : odict V) : list V := map snd d.

(** [all(d.values())] on a dict of booleans. *)
Definition all_values (d : odict bool) : bool := forallb (fun b => b) (od_values d).

(** [isinstance(v, dict)], returning the dict. *)
Definition as_dict (v : json) : option (odict json) :=
  match v with
  | JObj fields => Some fields
  | _ => None
  end.

Definition as_str (v : json) : option string :=
  match v with
  | JStr s => Some s
  | _ => None
  end.

(** [bool(v)] *)
Definition truthy (v : json) : bool :=
  match v with
  | JNull => false
  | JBool b => b
  | JNum q => negb (Qeqb q 0)
  | JStr s => negb (String.eqb s "")
  | JArr items => match items with [] => false | _ => true end
  | JObj fields => match fields with [] => false | _ => true end
  end.

(** [bool(d.get(key))] *)
Definition truthy_get (d : odict json) (key : string) : bool :=
  match od_get d key with
  | Some v => truthy v
  | None => false
  end.

(** [float(v)]; [parse] is [float] on a string. *)
Definition py_float (parse : string -> option Q) (v : json) : res Q :=
  match v with
  | JNum q => Ok q
  | JBool b => Ok (if b then 1 else 0)
  | JStr s => of_option ValueError (parse s)
  | JNull | JArr _ | JObj _ => Err TypeError
  end.

(** [isinstance(v, (int, float))]; a bool is an int. *)
Definition as_number (v : json) : option Q :=
  match v with
  | JNum q => Some q
  | JBool b => Some (if b then 1 else 0)
  | _ => None
  end.

(** *** str.strip and str.lower

    A [str] is held as the bytes of its UTF-8 encoding.  [str.strip()]
    removes from both ends the code points for which [str.isspace] holds:
    U+0009..U+000D, U+001C..U+0020, U+0085, U+00A0, U+1680, U+2000..U+200A,
    U+2028, U+2029, U+202F, U+205F and U+3000. *)

(** The UTF-8 bytes of one white-space code point. *)
Definition is_space (code_point : list ascii) : bool :=
  match map N_of_ascii code_point with
  | [n] => ((9 <=? n) && (n <=? 13) || (28 <=? n) && (n <=? 32))%N%bool
  | [194; n] => ((n =? 133) || (n =? 160))%N%bool
  | [225; 154; 128] => true
  | [226; 128; n] =>
      ((128 <=? n) && (n <=? 138) || (n =? 168) || (n =? 169) || (n =? 175))%N%bool
  | [226; 129; 159] => true
  | [227; 128; 128] => true
  | _ => false
  end%N.

Fixpoint lstrip (s : string) : string :=
  match s with
  | EmptyString => EmptyString
  | String a rest =>
      if is_space [a] then lstrip rest
      else
        match rest with
        | EmptyString => s
        | String b rest2 =>
            if is_space [a; b] then lstrip rest2
            else
              match rest2 with
              | EmptyString => s
              | String c rest3 => if is_space [a; b; c] then lstrip rest3 else s
              end
        end
  end.

(** The same scan from the end, on the reversed bytes. *)
Fixpoint rstrip_reversed (r : list ascii) : list ascii :=
  match r with
  | [] => []
  | c :: r1 =>
      if is_space [c] then rstrip_reversed r1
      else
        match r1 with
        | [] => r
        | b :: r2 =>
            if is_space [b; c] then rstrip_reversed r2
            else
              match r2 with
              | [] => r
              | a :: r3 => if is_space [a; b; c] then rstrip_reversed r3 else r
              end
        end
  end.

Definition rstrip (s : string) : string :=
  string_of_list_ascii (rev (rstrip_reversed (rev (list_ascii_of_string s)))).

Definition strip (s : string) : string := rstrip (lstrip s).

Definition lower_ascii (c : ascii) : ascii :=
  let n := nat_of_ascii c in
  if (Nat.leb 65 n && Nat.leb n 90)%bool then ascii_of_nat (n + 32) else c.

(** [str.lower()].  The capitals of ASCII go to their small letters, U+212A
    (Kelvin sign) goes to [k] and U+0130 to [i] followed by U+0307: these
    are the only code points outside ASCII whose lower-case form holds an
    ASCII character.  The case table of the other code points outside
    ASCII is not embedded; they are kept, and like their lower-case forms
    in Python they lie outside ASCII, so that the result equals an ASCII
    word exactly when the result of Python does. *)
Fixpoint lower (s : string) : string :=
  match s with
  | EmptyString => EmptyString
  | String c rest =>
      match N_of_ascii c, rest with
      | 226%N, String c1 (String c2 rest2) =>
          if ((N_of_ascii c1 =? 132) && (N_of_ascii c2 =? 170))%N%bool
          then String "k" (lower rest2)
          else String c (lower rest)
      | 196%N, String c1 rest1 =>
          if (N_of_ascii c1 =? 176)%N
          then String "i" (String (ascii_of_N 204) (String (ascii_of_N 135) (lower rest1)))
          else String c (lower rest)
      | _, _ => String (lower_ascii c) (lower rest)
      end
  end.

Definition str_in (s : string) (xs : list string) : bool :=
  existsb (String.eqb s) xs.

(** [sorted(xs)] on strings, by insertion. *)
Fixpoint insert_sorted (x : string) (xs : list string) : list string :=
  match xs with
  | [] => [x]
  | y :: rest => if String.leb x y then x :: xs else y :: insert_sorted x rest
  end.

Definition sort_strings (xs : list string) : list string :=
  fold_right insert_sorted [] xs.

End Py.

(** ** validate_full.py *)

Module ValidateFull.
Import Py.

(** A value of a preset parameter or of a perturbation override:
    [bool], [int] or [float]. *)
Inductive scad_value : Type :=
  | SBool (b : bool)
  | SNum (q : Q).

(** The record of one subprocess ([run_command], [run_openscad_export],
    [cached_openscad_export]) or of a skipped perturbation.  The free-form
    fields of the source ([argv], [cwd], time stamps, output tails) are
    never read back by the tools and are not kept. *)
Record command_record : Type := {
  cmd_name : string;
  cmd_returncode : option Z;
  cmd_pass : bool;
  cmd_timed_out : option bool;
  cmd_output_file : option string;
  cmd_cache_hit : option bool;
  cmd_reason : option string
}.

(** The file system, the environment and the subprocesses of a run.
    [World] is the state they act on; nothing relates the operations to
    each other. *)
Class Host (World : Type) : Type := {
  (** [Path(p).exists()] *)
  path_exists : World -> string -> bool;
  (** the decoded content of a JSON file; [None] when the file is absent,
      unreadable or not JSON *)
  read_json : World -> string -> option json;
  (** [load_mesh(Path(p), label)] *)
  load_mesh : World -> string -> res Trimesh;
  (** [os.environ.get(name)] *)
  getenv : World -> string -> option string;
  (** [float(s)] on a string *)
  float_of_string : string -> option Q;
  (** [str(v)], as an f-string formats a value *)
  py_str : json -> string;
  (** [now_utc()] *)
  now_utc : World -> string;
  (** [write_module_wrapper(wrapper_path, includes, module_call)] *)
  write_module_wrapper : World -> string -> list string -> string -> World;
  (** [write_perturbed_hull_wrapper(wrapper_path, base_preset_path,
      hull_core_path, overrides)] *)
  write_perturbed_hull_wrapper :
    World -> string -> string -> string -> odict scad_value -> World;
  (** [run_openscad_export(openscad_bin, input_scad, output_file, cwd)];
      the subprocess may raise [TimeoutExpired] *)
  run_openscad_export :
    World -> string -> string -> string -> string -> res (command_record * World);
  (** [run_reference_fit_command(project_root, output_json, openscad_path,
      floor_clearance_min_mm, preset, hull_stl/frame_stl/slot_plug_stl)] *)
  run_reference_fit_command :
    World -> string -> string -> option string -> Q -> option string ->
    option (string * string * string) ->
    (command_record * option (odict json)) * World;
  (** [parse_preset_parameters(entry_file)] *)
  parse_preset_parameters : World -> string -> odict scad_value;
  (** [file_path.write_text(json.dumps(payload, indent=2))] *)
  write_json : World -> string -> json -> World
}.

(** [Path(a) / b] *)
Definition path_join (a b : string) : string := (a ++ "/" ++ b)%string.
Infix "//" := path_join (at level 40, left associativity).

Section Tools.
Context {World : Type} {host : Host World} {provider : GeometryProvider}.

(** *** load_json *)

Definition load_json (w : World) (path : string) : option (odict json) :=
  if path_exists w path then
    match read_json w path with
    | Some data => as_dict data
    | None => None
    end
  else None.

(** *** bool_from_env, resolve_signature_drift_override *)

Definition bool_from_env (w : World) (name : string) : bool :=
  let raw := lower (strip (match getenv w name with Some v => v | None => "" end)) in
  str_in raw ["1"; "true"; "yes"; "on"].

Record drift_override : Type := {
  ov_enabled : bool;
  ov_source : string;
  ov_cli : bool;
  ov_env : bool
}.

Definition resolve_signature_drift_override (w : World)
    (allow_signature_drift : bool) : drift_override :=
  let cli_override := allow_signature_drift in
  let env_override := bool_from_env w "GCSC_ALLOW_SIGNATURE_DRIFT" in
  let allow_drift := (cli_override || env_override)%bool in
  let source :=
    if cli_override then "cli" else if env_override then "env" else "none" in
  {| ov_enabled := allow_drift; ov_source := source;
     ov_cli := cli_override; ov_env := env_override |}.

(** *** metric_min, metric_max *)

Definition metric_values (items : json) (key : string) : list Q :=
  match items with
  | JArr entries =>
      flat_map
        (fun item =>
           match item with
           | JObj fields =>
               match od_get fields key with
               | Some v =>
                   match py_float float_of_string v with
                   | Ok q => [q]
                   | Err _ => []
                   end
               | None => []
               end
           | _ => []
           end)
        entries
  | _ => []
  end.

Definition metric_min (items : json) (key : string) : option Q :=
  min_list (metric_values items key).

Definition metric_max (items : json) (key : string) : option Q :=
  max_list (metric_values items key).

(** *** reference_fit_scenario_summary *)

Record key_measurements : Type := {
  km_corridor_min_radial_clearance_mm : option Q;
  km_frame_min_gap_mm : option Q;
  km_frame_max_penetration_mm : option Q;
  km_overall_floor_clearance_min_mm : option json
}.

Record scenario : Type := {
  sc_name : string;
  sc_report_path : string;
  sc_command : command_record;
  sc_report_present : bool;
  sc_report_pass : bool;
  sc_gates : odict json;
  sc_key_measurements : option key_measurements;
  sc_required_gate_pass : bool;
  sc_perturbation_overrides : option (odict scad_value);
  sc_hull_export : option command_record;
  sc_cached_static_stls : option (string * string)
}.

(** [d.get(key, default)] *)
Definition od_get_default {V} (d : odict V) (key : string) (default : V) : V :=
  match od_get d key with
  | Some x => x
  | None => default
  end.

(** The three gates a sweep scenario must pass. *)
Definition required_gate_triple (gates : odict json) : bool :=
  (truthy_get gates "slot_insertion_corridor"
   && truthy_get gates "frame_interference"
   && truthy_get gates "frame_floor_clearance")%bool.

Definition reference_fit_scenario_summary (name report_path : string)
    (report : option (odict json)) (command_record_ : command_record)
    : res scenario :=
  let gates :=
    match report with
    | Some r => match od_get r "gates" with Some g => g | None => JObj [] end
    | None => JObj []
    end in
  let measurements :=
    match report with
    | Some r => match od_get r "measurements" with Some m => m | None => JObj [] end
    | None => JObj []
    end in
  (* [measurements.get(...)]: only a dict has [get] *)
  let* measurements_dict := of_option AttributeError (as_dict measurements) in
  let slot_checks := od_get_default measurements_dict "slot_checks" (JArr []) in
  let frame_checks := od_get_default measurements_dict "frame_checks" (JArr []) in
  let gates_dict := match as_dict gates with Some g => g | None => [] end in
  Ok {| sc_name := name;
        sc_report_path := report_path;
        sc_command := command_record_;
        sc_report_present := match report with Some _ => true | None => false end;
        sc_report_pass :=
          match report with Some r => truthy_get r "pass" | None => false end;
        sc_gates := gates_dict;
        sc_key_measurements :=
          Some {| km_corridor_min_radial_clearance_mm :=
                    metric_min slot_checks "corridor_min_radial_clearance_mm";
                  km_frame_min_gap_mm := metric_min frame_checks "min_gap_mm";
                  km_frame_max_penetration_mm :=
                    metric_max frame_checks "max_penetration_mm";
                  km_overall_floor_clearance_min_mm :=
                    od_get measurements_dict "overall_floor_clearance_min_mm" |};
        sc_required_gate_pass := required_gate_triple gates_dict;
        sc_perturbation_overrides := None;
        sc_hull_export := None;
        sc_cached_static_stls := None |}.

(** *** cached_openscad_export *)

Definition cached_openscad_export (w : World)
    (openscad_bin input_scad output_file cwd : string)
    : res (command_record * World) :=
  if path_exists w output_file then
    Ok ({| cmd_name := "openscad_export";
           cmd_returncode := Some 0%Z;
           cmd_pass := true;
           cmd_timed_out := None;
           cmd_output_file := Some output_file;
           cmd_cache_hit := Some true;
           cmd_reason := None |}, w)
  else
    let* rw := run_openscad_export w openscad_bin input_scad output_file cwd in
    let record := fst rw in
    Ok ({| cmd_name := cmd_name record;
           cmd_returncode := cmd_returncode record;
           cmd_pass := cmd_pass record;
           cmd_timed_out := cmd_timed_out record;
           cmd_output_file := cmd_output_file record;
           cmd_cache_hit := Some false;
           cmd_reason := cmd_reason record |}, snd rw).

(** *** robustness_sweep *)

Record sweep_profile : Type := {
  profile_name : string;
  profile_presets : list string;
  profile_perturbations : list (string * odict scad_value)
}.

(** The arguments of the command line the sweep reads. *)
Record sweep_args : Type := {
  arg_openscad_path : option string;
  arg_floor_clearance_min_mm : Q
}.

(** The mutable locals of [robustness_sweep]. *)
Record sweep_state : Type := {
  st_world : World;
  st_scenarios : list scenario;
  st_errors : list string;
  st_baseline_reports_by_preset : odict (odict json);
  st_cache_records : list command_record
}.

Record sweep_cache : Type := {
  cache_root_dir : string;
  cache_records : list command_record;
  cache_frame_stl : option string;
  cache_slot_plug_stl : option string
}.

Record sweep_result : Type := {
  sw_scenarios : list scenario;
  sw_scenario_count : nat;
  sw_pass : bool;
  sw_errors : list string;
  sw_profile : string;
  sw_cache : sweep_cache;
  sw_baseline_reports_by_preset : odict string
}.

Definition join_comma (xs : list string) : string := String.concat ", " xs.

(** The export of the two static meshes, before the preset loop: the new
    world, the errors and cache records it adds, and the two cached paths. *)
Definition export_static_meshes (w : World) (project_root : string)
    (openscad_bin : option string) (cache_root generated_root : string)
    : res (World * list string * list command_record * option (string * string)) :=
  match openscad_bin with
  | Some bin =>
      let frame_reference :=
        project_root // "codex_hull_lab" // "reference" // "frame_v5_3_reference.scad" in
      let slot_plug_reference :=
        project_root // "codex_hull_lab" // "reference" // "slot_plug_reference.scad" in
      let missing_reference_sources :=
        List.filter (fun path => negb (path_exists w path))
               [frame_reference; slot_plug_reference] in
      match missing_reference_sources with
      | _ :: _ =>
          Ok (w,
              [("Sweep cache source file(s) missing: "
                ++ join_comma missing_reference_sources)%string],
              [], None)
      | [] =>
          let frame_wrapper := generated_root // "reference_fit_frame_cache.scad" in
          let slot_plug_wrapper := generated_root // "reference_fit_slot_plug_cache.scad" in
          let w1 := write_module_wrapper w frame_wrapper [frame_reference]
                      "gcsc_reference_frame_v53_infill();" in
          let w2 := write_module_wrapper w1 slot_plug_wrapper [slot_plug_reference]
                      "gcsc_reference_slot_plug();" in
          let frame_cached_path := cache_root // "frame_reference.stl" in
          let slot_plug_cached_path := cache_root // "slot_plug_reference.stl" in
          let* fe := cached_openscad_export w2 bin frame_wrapper frame_cached_path
                       project_root in
          let* pe := cached_openscad_export (snd fe) bin slot_plug_wrapper
                       slot_plug_cached_path project_root in
          if (cmd_pass (fst fe) && cmd_pass (fst pe))%bool then
            Ok (snd pe, [], [fst fe; fst pe],
                Some (frame_cached_path, slot_plug_cached_path))
          else
            Ok (snd pe,
                ["Unable to export/reuse cached frame and slot-plug STLs for sweep scenarios."],
                [fst fe; fst pe], None)
      end
  | None =>
      Ok (w, ["OpenSCAD binary unavailable; perturbation sweep could not run."],
          [], None)
  end.

(** The fallback to the meshes named by the baseline report, taken when the
    static export left either path unset. *)
Definition fallback_static_meshes (w : World)
    (baseline_reference_report : option (odict json))
    (static : option (string * string)) : option string * option string :=
  match static with
  | Some (f, p) => (Some f, Some p)
  | None =>
      match baseline_reference_report with
      | Some report =>
          match as_dict (od_get_default report "inputs" (JObj [])) with
          | Some inputs =>
              let pick key :=
                match od_get inputs key with
                | Some (JStr path) => if path_exists w path then Some path else None
                | _ => None
                end in
              (pick "frame_stl", pick "slot_plug_stl")
          | None => (None, None)
          end
      | None => (None, None)
      end
  end.

Definition skipped_command : command_record :=
  {| cmd_name := "sweep_perturbation_skipped";
     cmd_returncode := None;
     cmd_pass := false;
     cmd_timed_out := None;
     cmd_output_file := None;
     cmd_cache_hit := None;
     cmd_reason :=
       Some "Cached frame/slot-plug STL inputs unavailable; cannot run perturbation scenario." |}.

(** The scenario recorded for a perturbation that did not reach the fit
    analysis (skipped, or hull export failed). *)
Definition unreached_scenario (name report_path : string)
    (command : command_record) (overrides : odict scad_value) : scenario :=
  {| sc_name := name;
     sc_report_path := report_path;
     sc_command := command;
     sc_report_present := false;
     sc_report_pass := false;
     sc_gates := [];
     sc_key_measurements := None;
     sc_required_gate_pass := false;
     sc_perturbation_overrides := Some overrides;
     sc_hull_export := None;
     sc_cached_static_stls := None |}.

Definition add_scenario (st : sweep_state) (sc : scenario) : sweep_state :=
  {| st_world := st_world st;
     st_scenarios := st_scenarios st ++ [sc];
     st_errors := st_errors st;
     st_baseline_reports_by_preset := st_baseline_reports_by_preset st;
     st_cache_records := st_cache_records st |}.

Definition add_error (st : sweep_state) (msg : string) : sweep_state :=
  {| st_world := st_world st;
     st_scenarios := st_scenarios st;
     st_errors := st_errors st ++ [msg];
     st_baseline_reports_by_preset := st_baseline_reports_by_preset st;
     st_cache_records := st_cache_records st |}.

Definition add_cache_record (st : sweep_state) (r : command_record) : sweep_state :=
  {| st_world := st_world st;
     st_scenarios := st_scenarios st;
     st_errors := st_errors st;
     st_baseline_reports_by_preset := st_baseline_reports_by_preset st;
     st_cache_records := st_cache_records st ++ [r] |}.

Definition set_world (st : sweep_state) (w : World) : sweep_state :=
  {| st_world := w;
     st_scenarios := st_scenarios st;
     st_errors := st_errors st;
     st_baseline_reports_by_preset := st_baseline_reports_by_preset st;
     st_cache_records := st_cache_records st |}.

Definition set_baseline_report (st : sweep_state) (preset : string)
    (report : odict json) : sweep_state :=
  {| st_world := st_world st;
     st_scenarios := st_scenarios st;
     st_errors := st_errors st;
     st_baseline_reports_by_preset :=
       od_set (st_baseline_reports_by_preset st) preset report;
     st_cache_records := st_cache_records st |}.

(** What the preset loop reads but never assigns. *)
Record sweep_env : Type := {
  env_args : sweep_args;
  env_project_root : string;
  env_reports_dir : string;
  env_openscad_bin : option string;
  env_cache_root : string;
  env_generated_root : string;
  env_base_frame_stl : option string;
  env_base_slot_plug_stl : option string
}.

(** One iteration of [for perturb_name, overrides in perturbations]. *)
Definition perturbation_step (env : sweep_env) (preset base_preset : string)
    (st : sweep_state) (perturbation : string * odict scad_value)
    : res sweep_state :=
  let '(perturb_name, overrides) := perturbation in
  let scenario_slug := (preset ++ "__" ++ perturb_name)%string in
  let name := (preset ++ ":perturb:" ++ perturb_name)%string in
  let report_path :=
    env_reports_dir env // ("reference_fit_sweep_" ++ scenario_slug ++ ".json")%string in
  let wrapper_path := env_generated_root env // (scenario_slug ++ ".scad")%string in
  let hull_stl := env_cache_root env // "hulls" // (scenario_slug ++ ".stl")%string in
  let hull_core_path :=
    env_project_root env // "codex_hull_lab" // "src" // "gcsc_hull_core.scad" in
  match env_openscad_bin env, env_base_frame_stl env, env_base_slot_plug_stl env with
  | Some bin, Some base_frame_stl, Some base_slot_plug_stl =>
      let w1 := write_perturbed_hull_wrapper (st_world st) wrapper_path base_preset
                  hull_core_path overrides in
      let* ew := cached_openscad_export w1 bin wrapper_path hull_stl
                   (env_project_root env) in
      let export_record := fst ew in
      let st1 := add_cache_record (set_world st (snd ew)) export_record in
      if negb (cmd_pass export_record) then
        Ok (add_scenario st1
              (unreached_scenario name report_path export_record overrides))
      else
        let '(record, report, w2) :=
          run_reference_fit_command (st_world st1) (env_project_root env)
            report_path (arg_openscad_path (env_args env))
            (arg_floor_clearance_min_mm (env_args env)) None
            (Some (hull_stl, base_frame_stl, base_slot_plug_stl)) in
        let* sc := reference_fit_scenario_summary name report_path report record in
        Ok (add_scenario (set_world st1 w2)
              {| sc_name := sc_name sc;
                 sc_report_path := sc_report_path sc;
                 sc_command := sc_command sc;
                 sc_report_present := sc_report_present sc;
                 sc_report_pass := sc_report_pass sc;
                 sc_gates := sc_gates sc;
                 sc_key_measurements := sc_key_measurements sc;
                 sc_required_gate_pass := sc_required_gate_pass sc;
                 sc_perturbation_overrides := Some overrides;
                 sc_hull_export := Some export_record;
                 sc_cached_static_stls :=
                   Some (base_frame_stl, base_slot_plug_stl) |})
  | _, _, _ =>
      Ok (add_scenario st
            (unreached_scenario name report_path skipped_command overrides))
  end.

Fixpoint perturbation_loop (env : sweep_env) (preset base_preset : string)
    (perturbations : list (string * odict scad_value)) (st : sweep_state)
    : res sweep_state :=
  match perturbations with
  | [] => Ok st
  | p :: rest =>
      let* st' := perturbation_step env preset base_preset st p in
      perturbation_loop env preset base_preset rest st'
  end.

(** One iteration of [for preset in sweep_presets]. *)
Definition preset_step (env : sweep_env)
    (perturbations : list (string * odict scad_value))
    (st : sweep_state) (preset : string) : res sweep_state :=
  let presets_dir := env_project_root env // "codex_hull_lab" // "presets" in
  let hull_core_path :=
    env_project_root env // "codex_hull_lab" // "src" // "gcsc_hull_core.scad" in
  let base_preset := presets_dir // (preset ++ ".scad")%string in
  if negb (path_exists (st_world st) base_preset) then
    Ok (add_error st
          ("Preset missing for sweep scenario generation: " ++ base_preset)%string)
  else
    let baseline_report_path :=
      env_reports_dir env // ("reference_fit_sweep_" ++ preset ++ ".json")%string in
    let baseline_hull_wrapper :=
      env_generated_root env // (preset ++ "__baseline.scad")%string in
    let baseline_hull_stl :=
      env_cache_root env // "hulls" // (preset ++ "__baseline.stl")%string in
    let* step :=
      match env_openscad_bin env, env_base_frame_stl env, env_base_slot_plug_stl env with
      | Some bin, Some base_frame_stl, Some base_slot_plug_stl =>
          let w1 := write_perturbed_hull_wrapper (st_world st) baseline_hull_wrapper
                      base_preset hull_core_path [] in
          let* ew := cached_openscad_export w1 bin baseline_hull_wrapper
                       baseline_hull_stl (env_project_root env) in
          let baseline_export_record := fst ew in
          let st1 := add_cache_record (set_world st (snd ew)) baseline_export_record in
          if cmd_pass baseline_export_record then
            let '(record, report, w2) :=
              run_reference_fit_command (st_world st1) (env_project_root env)
                baseline_report_path (arg_openscad_path (env_args env))
                (arg_floor_clearance_min_mm (env_args env)) None
                (Some (baseline_hull_stl, base_frame_stl, base_slot_plug_stl)) in
            Ok (set_world st1 w2, record, report, Some baseline_export_record)
          else
            Ok (st1, baseline_export_record, None, Some baseline_export_record)
      | _, _, _ =>
          let '(record, report, w1) :=
            run_reference_fit_command (st_world st) (env_project_root env)
              baseline_report_path (arg_openscad_path (env_args env))
              (arg_floor_clearance_min_mm (env_args env)) (Some preset) None in
          Ok (set_world st w1, record, report, None)
      end in
    let '(st2, record, report, baseline_export_record) := step in
    let* sc := reference_fit_scenario_summary (preset ++ ":baseline")%string
                 baseline_report_path report record in
    let baseline_scenario :=
      {| sc_name := sc_name sc;
         sc_report_path := sc_report_path sc;
         sc_command := sc_command sc;
         sc_report_present := sc_report_present sc;
         sc_report_pass := sc_report_pass sc;
         sc_gates := sc_gates sc;
         sc_key_measurements := sc_key_measurements sc;
         sc_required_gate_pass := sc_required_gate_pass sc;
         sc_perturbation_overrides := None;
         sc_hull_export := baseline_export_record;
         sc_cached_static_stls :=
           match env_base_frame_stl env, env_base_slot_plug_stl env with
           | Some f, Some p => Some (f, p)
           | _, _ => None
           end |} in
    let st3 := add_scenario st2 baseline_scenario in
    let st4 :=
      match report with
      | Some r => set_baseline_report st3 preset r
      | None => st3
      end in
    perturbation_loop env preset base_preset perturbations st4.

Fixpoint preset_loop (env : sweep_env)
    (perturbations : list (string * odict scad_value))
    (presets : list string) (st : sweep_state) : res sweep_state :=
  match presets with
  | [] => Ok st
  | preset :: rest =>
      let* st' := preset_step env perturbations st preset in
      preset_loop env perturbations rest st'
  end.

(** The sweep itself.  The directories it creates ([mkdir]) are not
    tracked: the sweep never tests a directory. *)
Definition robustness_sweep (w : World) (args : sweep_args)
    (project_root reports_dir : string) (openscad_bin : option string)
    (baseline_reference_report : option (odict json))
    (profile : sweep_profile) : res (sweep_result * World) :=
  let sweep_root := reports_dir // "full_validation_tmp" // "robustness_sweep" in
  let cache_root := sweep_root // "cached_stls" in
  let generated_root := sweep_root // "generated_presets" in
  let sweep_presets := profile_presets profile in
  let perturbations := profile_perturbations profile in
  let* static := export_static_meshes w project_root openscad_bin cache_root
                   generated_root in
  let '(w1, errors, cache_records_, exported) := static in
  let '(base_frame_stl, base_slot_plug_stl) :=
    fallback_static_meshes w1 baseline_reference_report exported in
  let env :=
    {| env_args := args;
       env_project_root := project_root;
       env_reports_dir := reports_dir;
       env_openscad_bin := openscad_bin;
       env_cache_root := cache_root;
       env_generated_root := generated_root;
       env_base_frame_stl := base_frame_stl;
       env_base_slot_plug_stl := base_slot_plug_stl |} in
  let* st :=
    preset_loop env perturbations sweep_presets
      {| st_world := w1;
         st_scenarios := [];
         st_errors := errors;
         st_baseline_reports_by_preset := [];
         st_cache_records := cache_records_ |} in
  let scenarios := st_scenarios st in
  let overall_pass :=
    (match scenarios with [] => false | _ => true end
     && forallb sc_required_gate_pass scenarios
     && match st_errors st with [] => true | _ => false end)%bool in
  Ok ({| sw_scenarios := scenarios;
         sw_scenario_count := length scenarios;
         sw_pass := overall_pass;
         sw_errors := st_errors st;
         sw_profile := profile_name profile;
         sw_cache :=
           {| cache_root_dir := cache_root;
              cache_records := st_cache_records st;
              cache_frame_stl := base_frame_stl;
              cache_slot_plug_stl := base_slot_plug_stl |};
         sw_baseline_reports_by_preset :=
           map (fun entry : string * odict json =>
                  (fst entry,
                   reports_dir // ("reference_fit_sweep_" ++ fst entry ++ ".json")%string))
               (st_baseline_reports_by_preset st) |},
      st_world st).

(** *** sampled_angles *)

(** [[min_deg + step_deg * i for i in range(count)]] *)
Definition angle_grid (min_deg step_deg : Q) (count : Z) : list Q :=
  map (fun i => min_deg + step_deg * inject_Z (Z.of_nat i)) (seq 0 (Z.to_nat count)).

Definition sampled_angles (min_deg max_deg step_deg : Q) : list Q :=
  if Qleb step_deg 0 then
    if negb (Qeqb min_deg max_deg) then [min_deg; max_deg] else [min_deg]
  else
    let '(min_deg, max_deg) :=
      if Qltb max_deg min_deg then (max_deg, min_deg) else (min_deg, max_deg) in
    let count := (Qfloor ((max_deg - min_deg) / step_deg) + 1)%Z in
    let values := angle_grid min_deg step_deg count in
    let values :=
      match values with
      | [] => values ++ [max_deg]
      | _ =>
          if Qltb (List.last values 0) (max_deg - 1e-9) then values ++ [max_deg]
          else values
      end in
    map round6 values.

(** *** dynamic_kinematic_validation *)













(** *** convex_hull_2d, polygon_area *)

Definition point2 : Type := Q * Q.

Definition cmp_point2 (a b : point2) : comparison :=
  match fst a ?= fst b with
  | Eq => snd a ?= snd b
  | c => c
  end.

Fixpoint insert_unique (p : point2) (l : list point2) : list point2 :=
  match l with
  | [] => [p]
  | q :: rest =>
      match cmp_point2 p q with
      | Lt => p :: l
      | Eq => l
      | Gt => q :: insert_unique p rest
      end
  end.

(** [sorted({(float(p[0]), float(p[1])) for p in points})] *)
Definition sorted_set (points : list point2) : list point2 :=
  fold_right insert_unique [] points.

Definition cross (o a b : point2) : Q :=
  (fst a - fst o) * (snd b - snd o) - (snd a - snd o) * (fst b - fst o).

(** [while len(chain) >= 2 and cross(chain[-2], chain[-1], p) <= 0:
    chain.pop()]; the chain is kept with its last element first. *)
Fixpoint pop_while (chain : list point2) (p : point2) : list point2 :=
  match chain with
  | b :: ((a :: _) as rest) =>
      if Qleb (cross a b p) 0 then pop_while rest p else chain
  | _ => chain
  end.

Definition half_hull (pts : list point2) : list point2 :=
  rev (fold_left (fun chain p => p :: pop_while chain p) pts []).

Definition convex_hull_2d (points : list point2) : list point2 :=
  if (length points <=? 1)%nat then points
  else
    let pts := sorted_set points in
    if (length pts <=? 1)%nat then pts
    else
      let lower := half_hull pts in
      let upper := half_hull (rev pts) in
      removelast lower ++ removelast upper.

(** [np.roll(xs, -1)] *)
Definition roll_left {A} (xs : list A) : list A :=
  match xs with
  | [] => []
  | x :: rest => rest ++ [x]
  end.

Definition dot (xs ys : list Q) : Q :=
  fold_left Qplus (map (fun xy : Q * Q => fst xy * snd xy) (combine xs ys)) 0.

Definition polygon_area (points : list point2) : Q :=
  if (length points <? 3)%nat then 0.0
  else
    let x := map fst points in
    let y := map snd points in
    0.5 * Qabs (dot x (roll_left y) - dot y (roll_left x)).

(** *** sample_local_thickness_probes *)

Inductive probe_status : Type :=
  | NoFaces
  | Unavailable
  | ProbeFailed
  | ProbesOk
  | InsufficientValidProbes.

Record method_attempt : Type := {
  at_method : bool;
  at_error : bool;
  at_valid_probe_count : nat
}.

Record probe_summary : Type := {
  ps_status : probe_status;
  ps_probe_count : nat;
  ps_valid_probe_count : nat;
  ps_method_used : option bool;
  ps_minimum_mm : option Q;
  ps_percentile_mm : option Q;
  ps_median_mm : option Q;
  ps_maximum_mm : option Q;
  ps_method_attempts : list method_attempt
}.

Definition cmp_point3 (a b : point) : comparison :=
  match px a ?= px b with
  | Eq => match py a ?= py b with
          | Eq => pz a ?= pz b
          | c => c
          end
  | c => c
  end.

(** A stable insertion of a face index by the (x, y, z) key of its centre. *)
Fixpoint insert_index (centers : list point) (i : nat) (order : list nat) : list nat :=
  match order with
  | [] => [i]
  | j :: rest =>
      match cmp_point3 (nth i centers (0, 0, 0)) (nth j centers (0, 0, 0)) with
      | Lt => i :: order
      | _ => j :: insert_index centers i rest
      end
  end.

(** [np.lexsort((c[:, 2], c[:, 1], c[:, 0]))] *)
Definition lexsort (centers : list point) : list nat :=
  fold_left (fun order i => insert_index centers i order)
            (seq 0 (length centers)) [].

Fixpoint insert_q (x : Q) (xs : list Q) : list Q :=
  match xs with
  | [] => [x]
  | y :: rest => if Qleb x y then x :: xs else y :: insert_q x rest
  end.

Definition sort_q (xs : list Q) : list Q := fold_right insert_q [] xs.

(** [np.percentile(values, q)] with linear interpolation, on a non-empty
    array and [0 <= q <= 100]. *)
Definition percentile (values : list Q) (q : Q) : Q :=
  let sorted := sort_q values in
  let n := length sorted in
  let virtual := inject_Z (Z.of_nat (n - 1)) * (q / 100) in
  let lo := Z.to_nat (Qfloor virtual) in
  let hi := Nat.min (S lo) (n - 1) in
  let g := virtual - inject_Z (Qfloor virtual) in
  let a := nth lo sorted 0 in
  let b := nth hi sorted 0 in
  a + (b - a) * g.

(** The loop [for method in ("ray", "max_sphere")], with its [break]. *)
Fixpoint probe_methods
    (run : bool -> option (list (option Q)))
    (threshold : Q) (min_required : nat) (methods : list bool)
    (attempts : list method_attempt) (best : option (list Q * bool))
    : list method_attempt * option (list Q * bool) :=
  match methods with
  | [] => (attempts, best)
  | method :: rest =>
      match run method with
      | None =>
          probe_methods run threshold min_required rest
            (attempts ++ [ {| at_method := method; at_error := true;
                              at_valid_probe_count := 0 |} ])
            best
      | Some raw_values =>
          let finite_values :=
            flat_map (fun v => match v with Some q => [q] | None => [] end) raw_values in
          let valid_values := List.filter (fun v => Qgtb v threshold) finite_values in
          let attempts' :=
            attempts ++ [ {| at_method := method; at_error := false;
                             at_valid_probe_count := length valid_values |} ] in
          let best' :=
            match best with
            | None => Some (valid_values, method)
            | Some (best_values, _) =>
                if (length best_values <? length valid_values)%nat
                then Some (valid_values, method) else best
            end in
          if (min_required <=? length valid_values)%nat then (attempts', best')
          else probe_methods run threshold min_required rest attempts' best'
      end
  end.

Definition empty_summary (status : probe_status) (count : nat)
    (attempts : list method_attempt) : probe_summary :=
  {| ps_status := status;
     ps_probe_count := count;
     ps_valid_probe_count := 0;
     ps_method_used := None;
     ps_minimum_mm := None;
     ps_percentile_mm := None;
     ps_median_mm := None;
     ps_maximum_mm := None;
     ps_method_attempts := attempts |}.

Definition sample_local_thickness_probes (mesh : Trimesh)
    (probe_count probe_min_valid : Z) (percentile_ noise_floor_mm : Q)
    : res probe_summary :=
  let centers := triangles_center mesh in
  let normals := face_normals mesh in
  let total_faces := length centers in
  if Nat.eqb total_faces 0 then Ok (empty_summary NoFaces 0 [])
  else
    let target_count := Z.to_nat (Z.max 1 probe_count) in
    let order := lexsort centers in
    let* sample_index :=
      if (total_faces <=? target_count)%nat then Ok order
      else
        let* positions :=
          ReferenceFit.linspace 0 (inject_Z (Z.of_nat (total_faces - 1)))
            (Z.of_nat target_count) in
        Ok (map (fun q => nth (Z.to_nat (Qfloor q)) order 0%nat) positions) in
    let probe_points := map (fun i => nth i centers (0, 0, 0)) sample_index in
    let probe_normals := map (fun i => nth i normals (0, 0, 0)) sample_index in
    let percentile_clamped := pymin 100.0 (pymax 0.0 percentile_) in
    let noise_floor := pymax 0.0 noise_floor_mm in
    let min_required := Z.to_nat (Z.max 1 probe_min_valid) in
    match thickness with
    | None => Ok (empty_summary Unavailable (length probe_points) [])
    | Some thickness_fn =>
        let '(attempts, best) :=
          probe_methods (thickness_fn mesh probe_points probe_normals)
            (pymax 1e-6 noise_floor) min_required [true; false] [] None in
        match best with
        | None | Some ([], _) =>
            Ok (empty_summary ProbeFailed (length probe_points) attempts)
        | Some (best_values, best_method) =>
            Ok {| ps_status :=
                    if (min_required <=? length best_values)%nat
                    then ProbesOk else InsufficientValidProbes;
                  ps_probe_count := length probe_points;
                  ps_valid_probe_count := length best_values;
                  ps_method_used := Some best_method;
                  ps_minimum_mm := min_list best_values;
                  ps_percentile_mm := Some (percentile best_values percentile_clamped);
                  ps_median_mm := Some (percentile best_values 50.0);
                  ps_maximum_mm := max_list best_values;
                  ps_method_attempts := attempts |}
        end
    end.

(** *** manufacturability_validation *)

Record manufacturability_args : Type := {
  min_wall_thickness_mm : Q;
  wall_thickness_probe_count : Z;
  wall_thickness_probe_min_valid : Z;
  wall_thickness_probe_percentile : Q;
  wall_thickness_probe_noise_floor_mm : Q;
  min_recess_skin_mm : Q;
  max_risky_overhang_ratio : Q;
  max_overhang_from_horizontal_deg : Q;
  contact_z_tolerance_mm : Q;
  min_contact_area_mm2 : Q;
  min_contact_span_x_mm : Q;
  min_contact_span_y_mm : Q
}.

Record manufacturability_measurements : Type := {
  mm_wall_candidates_mm : odict Q;
  mm_min_wall_thickness_mm : Q;
  mm_sampled_local_thickness_probes : probe_summary;
  mm_floor_mm : Q;
  mm_foot_recess_depth_mm : Q;
  mm_foot_recess_skin_declared_mm : Q;
  mm_foot_recess_skin_estimated_mm : Q;
  mm_downward_area_mm2 : Q;
  mm_risky_overhang_area_mm2 : Q;
  mm_risky_overhang_ratio : Q;
  mm_contact_area_mm2 : Q;
  mm_contact_span_x_mm : Q;
  mm_contact_span_y_mm : Q;
  mm_contact_point_count : nat
}.

Record manufacturability_result : Type := {
  man_pass : bool;
  man_error : option string;
  man_gates : odict bool;
  man_measurements : option manufacturability_measurements
}.

Definition manufacturability_failure (msg : string) : manufacturability_result :=
  {| man_pass := false; man_error := Some msg; man_gates := [];
     man_measurements := None |}.

Definition scad_float (v : scad_value) : Q :=
  match v with
  | SBool b => if b then 1 else 0
  | SNum q => q
  end.

(** [get_float(name, fallback)], for a numeric fallback. *)
Definition get_float (params : odict scad_value) (name : string) (fallback : Q) : Q :=
  match od_get params name with
  | Some v => scad_float v
  | None => fallback
  end.

(** [v or d] on floats *)
Definition float_or (v d : Q) : Q := if Qeqb v 0 then d else v.

Definition get_bool (params : odict scad_value) (name : string) (fallback : bool) : bool :=
  match od_get params name with
  | Some (SBool b) => b
  | Some (SNum q) => negb (Qeqb q 0)
  | None => fallback
  end.

Definition sum_q (xs : list Q) : Q := fold_left Qplus xs 0.

(** [float(np.max(xs) - np.min(xs)) if len(xs) else 0.0] *)
Definition span (xs : list Q) : Q :=
  match max_list xs, min_list xs with
  | Some hi, Some lo => hi - lo
  | _, _ => 0.0
  end.

(** The text an f-string gives a value of the report. *)
Definition format_json (v : json) : string :=
  match v with
  | JStr s => s
  | _ => py_str v
  end.

Definition manufacturability_validation (w : World)
    (args : manufacturability_args) (project_root : string)
    (baseline_reference_report : option (odict json))
    : res manufacturability_result :=
  match baseline_reference_report with
  | None =>
      Ok (manufacturability_failure
            "Baseline reference-fit report is unavailable; cannot evaluate manufacturability.")
  | Some report =>
      match as_dict (od_get_default report "inputs" (JObj [])) with
      | None =>
          Ok (manufacturability_failure "Baseline reference-fit report missing `inputs`.")
      | Some inputs =>
          let preset := od_get_default inputs "preset" (JStr "gcsc_default") in
          let preset_path :=
            project_root // "codex_hull_lab" // "presets"
              // (format_json preset ++ ".scad")%string in
          if negb (path_exists w preset_path) then
            Ok (manufacturability_failure
                  ("Preset file not found for manufacturability check: "
                   ++ preset_path)%string)
          else
            match od_get inputs "hull_stl" with
            | Some (JStr hull_path_raw) =>
                match load_mesh w hull_path_raw with
                | Err _ =>
                    Ok (manufacturability_failure
                          "Failed to load hull mesh for manufacturability check: {exc}")
                | Ok hull_mesh =>
                    let params := parse_preset_parameters w preset_path in
                    let wall_mm := float_or (get_float params "wall_mm" 0.0) 0.0 in
                    let wall_end_ratio :=
                      float_or (get_float params "wall_end_taper_ratio" 1.0) 1.0 in
                    let floor_mm := float_or (get_float params "floor_mm" 0.0) 0.0 in
                    let slot_outer_skin_min_mm :=
                      float_or (get_float params "slot_outer_skin_min_mm" 0.0) 0.0 in
                    let slot_skin_mm :=
                      float_or (get_float params "slot_skin_mm" 0.0) 0.0 in
                    let feet_on := get_bool params "feet_on" true in
                    let foot_recess_depth_mm :=
                      float_or (get_float params "foot_recess_depth_mm" 0.0) 0.0 in
                    let foot_recess_skin_mm :=
                      float_or (get_float params "foot_recess_skin_mm" 0.0) 0.0 in
                    let estimated_end_wall_mm := wall_mm * wall_end_ratio in
                    let estimated_recess_skin_mm :=
                      if feet_on then floor_mm - foot_recess_depth_mm else floor_mm in
                    let wall_candidates : odict Q :=
                      [ ("estimated_end_wall_mm", estimated_end_wall_mm);
                        ("slot_outer_skin_min_mm", slot_outer_skin_min_mm);
                        ("slot_skin_mm", slot_skin_mm) ] in
                    let min_wall_thickness :=
                      match min_list (od_values wall_candidates) with
                      | Some m => m
                      | None => 0.0
                      end in
                    let* local_thickness_probes :=
                      sample_local_thickness_probes hull_mesh
                        (wall_thickness_probe_count args)
                        (wall_thickness_probe_min_valid args)
                        (wall_thickness_probe_percentile args)
                        (wall_thickness_probe_noise_floor_mm args) in
                    let sampled_local_wall_gate :=
                      match ps_status local_thickness_probes,
                            ps_percentile_mm local_thickness_probes with
                      | ProbesOk, Some pct => Qgeb pct (min_wall_thickness_mm args)
                      | _, _ => false
                      end in
                    let per_face := combine (face_normals hull_mesh) (area_faces hull_mesh) in
                    let downward (f : point * Q) := Qltb (pz (fst f)) (-(1e-6)) in
                    let overhang_cos := cos_deg (max_overhang_from_horizontal_deg args) in
                    let risky (f : point * Q) :=
                      (downward f && Qgeb (Qabs (pz (fst f))) overhang_cos)%bool in
                    let downward_area := sum_q (map snd (List.filter downward per_face)) in
                    let risky_area := sum_q (map snd (List.filter risky per_face)) in
                    let risky_ratio :=
                      if Qgtb downward_area 1e-9 then risky_area / downward_area else 0.0 in
                    let* z_min := ReferenceFit.np_min (map pz (vertices hull_mesh)) in
                    let contact_points : list point2 :=
                      map (fun v => (px v, py v))
                          (List.filter (fun v => Qleb (pz v) (z_min + contact_z_tolerance_mm args))
                                  (vertices hull_mesh)) in
                    let contact_hull :=
                      if (3 <=? length contact_points)%nat
                      then convex_hull_2d contact_points else [] in
                    let contact_area := polygon_area contact_hull in
                    let contact_span_x := span (map fst contact_points) in
                    let contact_span_y := span (map snd contact_points) in
                    let gates : odict bool :=
                      [ ("minimum_wall_thickness",
                         Qgeb min_wall_thickness (min_wall_thickness_mm args));
                        ("sampled_local_wall_thickness", sampled_local_wall_gate);
                        ("recess_skin_thickness",
                         (Qgeb estimated_recess_skin_mm (min_recess_skin_mm args)
                          && Qgeb estimated_recess_skin_mm foot_recess_skin_mm)%bool);
                        ("overhang_risk",
                         Qleb risky_ratio (max_risky_overhang_ratio args));
                        ("stable_contact_footprint",
                         (Qgeb contact_area (min_contact_area_mm2 args)
                          && Qgeb contact_span_x (min_contact_span_x_mm args)
                          && Qgeb contact_span_y (min_contact_span_y_mm args))%bool) ] in
                    Ok {| man_pass := all_values gates;
                          man_error := None;
                          man_gates := gates;
                          man_measurements :=
                            Some {| mm_wall_candidates_mm := wall_candidates;
                                    mm_min_wall_thickness_mm := min_wall_thickness;
                                    mm_sampled_local_thickness_probes := local_thickness_probes;
                                    mm_floor_mm := floor_mm;
                                    mm_foot_recess_depth_mm :=
                                      if feet_on then foot_recess_depth_mm else 0.0;
                                    mm_foot_recess_skin_declared_mm := foot_recess_skin_mm;
                                    mm_foot_recess_skin_estimated_mm := estimated_recess_skin_mm;
                                    mm_downward_area_mm2 := downward_area;
                                    mm_risky_overhang_area_mm2 := risky_area;
                                    mm_risky_overhang_ratio := risky_ratio;
                                    mm_contact_area_mm2 := contact_area;
                                    mm_contact_span_x_mm := contact_span_x;
                                    mm_contact_span_y_mm := contact_span_y;
                                    mm_contact_point_count := length contact_points |} |}
                end
            | _ =>
                Ok (manufacturability_failure
                      "Baseline reference-fit report missing `inputs.hull_stl`.")
            end
      end
  end.

(** *** geometry_signature, write_signature_baseline *)

Definition geometry_signature (mesh : Trimesh) : odict Q :=
  let e := extents mesh in
  [ ("extent_x_mm", px e);
    ("extent_y_mm", py e);
    ("extent_z_mm", pz e);
    ("volume_mm3", Qabs (volume mesh));
    ("surface_area_mm2", area mesh) ].

Definition signature_band (relative_band absolute_band_mm : Q)
    (metric : string * Q) : string * json :=
  let '(name, value) := metric in
  let margin :=
    if str_in name ["volume_mm3"; "surface_area_mm2"]
    then pymax (Qabs value * pymax relative_band 0.0) 0.1
    else pymax (Qabs absolute_band_mm) 0.05 in
  (name, JObj [("min", JNum (value - margin)); ("max", JNum (value + margin))]).

Definition signature_payload (updated_utc : string) (observed : odict (odict Q))
    (relative_band absolute_band_mm : Q) : json :=
  JObj
    [ ("schema_version", JStr "1.0");
      ("updated_utc", JStr updated_utc);
      ("description",
       JStr "Approved codex_hull_lab geometry signatures. Intentional drifts require explicit override.");
      ("presets",
       JObj (map (fun entry : string * odict Q =>
                    (fst entry,
                     JObj [("metrics",
                            JObj (map (signature_band relative_band absolute_band_mm)
                                      (snd entry)))]))
                 observed)) ].

Definition write_signature_baseline (w : World) (file_path : string)
    (observed : odict (odict Q)) (relative_band absolute_band_mm : Q) : World :=
  write_json w file_path
    (signature_payload (now_utc w) observed relative_band absolute_band_mm).

(** *** golden_signature_validation *)

Record signature_args : Type := {
  arg_signature_file : string;
  arg_allow_signature_drift : bool;
  arg_write_signature_baseline : bool;
  arg_signature_relative_band : Q;
  arg_signature_absolute_band_mm : Q
}.

Inductive drift_status : Type :=
  | MissingMetric
  | InvalidBounds
  | OutOfBand.

Record drift : Type := {
  dr_preset : string;
  dr_metric : string;
  dr_status : drift_status;
  dr_observed : option Q;
  dr_min : option Q;
  dr_max : option Q;
  dr_delta_to_nearest_band_edge : option Q
}.

Record signature_policy : Type := {
  pol_override_enabled : bool;
  pol_override_source : string;
  pol_drift_detected : bool;
  pol_missing_presets_detected : bool;
  pol_blocked_without_override : bool
}.

Record signature_result : Type := {
  sig_pass : bool;
  sig_raw_pass : bool;
  sig_allow_drift_override : bool;
  sig_override_source : string;
  sig_override_used : option bool;
  sig_signature_file : string;
  sig_error : option string;
  sig_observed : odict (odict Q);
  sig_drifts : list drift;
  sig_drifted_metrics_by_preset : odict (list string);
  sig_missing_presets : list string;
  sig_policy : signature_policy
}.

(** The dict [scenario_by_name] built from the sweep's scenarios (name and
    report path): a later scenario replaces an earlier one of the same name. *)
Definition scenario_by_name (scenarios : list scenario) : odict scenario :=
  fold_left (fun d sc => od_set d (sc_name sc) sc) scenarios [].

(** One iteration of the loop that collects the observed signatures. *)
Definition observe_preset (w : World) (by_name : odict scenario)
    (observed : odict (odict Q)) (preset : string) : odict (odict Q) :=
  match od_get by_name (preset ++ ":baseline")%string with
  | None => observed
  | Some sc =>
      match load_json w (sc_report_path sc) with
      | None => observed
      | Some report =>
          match as_dict (od_get_default report "inputs" (JObj [])) with
          | None => observed
          | Some inputs =>
              match od_get inputs "hull_stl" with
              | Some (JStr hull_path) =>
                  match load_mesh w hull_path with
                  | Ok mesh => od_set observed preset (geometry_signature mesh)
                  | Err _ => observed
                  end
              | _ => observed
              end
          end
      end
  end.

Definition plain_drift (preset metric : string) (status : drift_status) : drift :=
  {| dr_preset := preset; dr_metric := metric; dr_status := status;
     dr_observed := None; dr_min := None; dr_max := None;
     dr_delta_to_nearest_band_edge := None |}.

(** The body of [for metric_name, bounds in metrics.items()]: the drift
    entry a stored band yields, if any. *)
Definition check_metric (preset : string) (observed : odict Q)
    (entry : string * json) : list drift :=
  let '(metric_name, bounds) := entry in
  match od_get observed metric_name, as_dict bounds with
  | Some value, Some bounds_dict =>
      let parsed :=
        let* lo := rbind (of_option (KeyError "min") (od_get bounds_dict "min"))
                         (py_float float_of_string) in
        let* hi := rbind (of_option (KeyError "max") (od_get bounds_dict "max"))
                         (py_float float_of_string) in
        Ok (lo, hi) in
      match parsed with
      | Err _ => [plain_drift preset metric_name InvalidBounds]
      | Ok (lower, upper) =>
          if (Qltb value lower || Qgtb value upper)%bool then
            [ {| dr_preset := preset;
                 dr_metric := metric_name;
                 dr_status := OutOfBand;
                 dr_observed := Some value;
                 dr_min := Some lower;
                 dr_max := Some upper;
                 dr_delta_to_nearest_band_edge :=
                   Some (if Qltb value lower then value - lower else value - upper) |} ]
          else []
      end
  | _, _ => [plain_drift preset metric_name MissingMetric]
  end.

(** One iteration of [for preset in sweep_presets] of the comparison:
    the presets and drifts it appends. *)
Definition compare_preset (observed_by_preset : odict (odict Q))
    (expected_presets : odict json) (preset : string) : list string * list drift :=
  match od_get observed_by_preset preset, od_get expected_presets preset with
  | Some ((_ :: _) as observed), Some (JObj expected_entry) =>
      match as_dict (od_get_default expected_entry "metrics" (JObj [])) with
      | Some metrics => ([], flat_map (check_metric preset observed) metrics)
      | None => ([preset], [])
      end
  | _, _ => ([preset], [])
  end.

(** [drifted_metrics_by_preset]: the metrics of the drift entries, grouped
    by preset in order of first appearance, without repetition, sorted. *)
Definition add_drifted_metric (d : odict (list string)) (dr : drift)
    : odict (list string) :=
  let current := od_get_default d (dr_preset dr) [] in
  od_set d (dr_preset dr)
    (if str_in (dr_metric dr) current then current else current ++ [dr_metric dr]).

Definition drifted_metrics (drifts : list drift) : odict (list string) :=
  map (fun entry : string * list string => (fst entry, sort_strings (snd entry)))
      (fold_left add_drifted_metric drifts []).

Definition golden_signature_validation (w : World) (args : signature_args)
    (scenarios : list scenario) (sweep_presets : list string)
    : signature_result * World :=
  let by_name := scenario_by_name scenarios in
  let observed_by_preset := fold_left (observe_preset w by_name) sweep_presets [] in
  let signature_file := arg_signature_file args in
  let override := resolve_signature_drift_override w (arg_allow_signature_drift args) in
  let allow_drift := ov_enabled override in
  let w1 :=
    if arg_write_signature_baseline args then
      write_signature_baseline w signature_file observed_by_preset
        (arg_signature_relative_band args) (arg_signature_absolute_band_mm args)
    else w in
  match load_json w1 signature_file with
  | None =>
      ({| sig_pass := false;
          sig_raw_pass := false;
          sig_allow_drift_override := allow_drift;
          sig_override_source := ov_source override;
          sig_override_used := None;
          sig_signature_file := signature_file;
          sig_error := Some "Golden signature file missing or invalid JSON.";
          sig_observed := observed_by_preset;
          sig_drifts := [];
          sig_drifted_metrics_by_preset := [];
          sig_missing_presets := sweep_presets;
          sig_policy :=
            {| pol_override_enabled := allow_drift;
               pol_override_source := ov_source override;
               pol_drift_detected := false;
               pol_missing_presets_detected :=
                 match sweep_presets with [] => false | _ => true end;
               pol_blocked_without_override := true |} |}, w1)
  | Some expected =>
      let expected_presets :=
        match as_dict (od_get_default expected "presets" (JObj [])) with
        | Some d => d
        | None => []
        end in
      let compared := map (compare_preset observed_by_preset expected_presets) sweep_presets in
      let missing_presets := flat_map fst compared in
      let drifts := flat_map snd compared in
      let raw_pass :=
        (match missing_presets with [] => true | _ => false end
         && match drifts with [] => true | _ => false end)%bool in
      let pass_with_override := (raw_pass || allow_drift)%bool in
      ({| sig_pass := pass_with_override;
          sig_raw_pass := raw_pass;
          sig_allow_drift_override := allow_drift;
          sig_override_source := ov_source override;
          sig_override_used := Some (allow_drift && negb raw_pass)%bool;
          sig_signature_file := signature_file;
          sig_error := None;
          sig_observed := observed_by_preset;
          sig_drifts := drifts;
          sig_drifted_metrics_by_preset := drifted_metrics drifts;
          sig_missing_presets := missing_presets;
          sig_policy :=
            {| pol_override_enabled := allow_drift;
               pol_override_source := ov_source override;
               pol_drift_detected := match drifts with [] => false | _ => true end;
               pol_missing_presets_detected :=
                 match missing_presets with [] => false | _ => true end;
               pol_blocked_without_override := (negb raw_pass && negb allow_drift)%bool |} |},
       w1)
  end.

End Tools.

End ValidateFull.

(** ** verify_reference_fit.py: the reference constant resolver *)

Module Resolver.
Import Py ReferenceFit.

(** The syntax tree [ast.parse(expr, mode="eval")] gives, as far as [walk]
    tells nodes apart: a numeric constant, a name, a binary or unary
    operation, anything else. *)
Inductive binop : Type := Add | Sub | Mult | Div | OtherBinOp.
Inductive unaryop : Type := UAdd | USub | OtherUnaryOp.

Inductive expr : Type :=
  | EConstant (value : Q)
  | EName (id : string)
  | EBinOp (op : binop) (lhs rhs : expr)
  | EUnaryOp (op : unaryop) (operand : expr)
  | EOther.

(** [walk(node)], reading names from [constants].  A float division by
    zero raises [ZeroDivisionError]. *)
Fixpoint walk (constants : gmap string Q) (node : expr) : res Q :=
  match node with
  | EConstant value => Ok value
  | EName id => of_option (KeyError id) (constants !! id)
  | EBinOp OtherBinOp _ _ => Err ValueError
  | EBinOp op lhs rhs =>
      let* l := walk constants lhs in
      let* r := walk constants rhs in
      match op with
      | Add => Ok (l + r)
      | Sub => Ok (l - r)
      | Mult => Ok (l * r)
      | Div => if Qeqb r 0 then Err ZeroDivisionError else Ok (l / r)
      | OtherBinOp => Err ValueError
      end
  | EUnaryOp OtherUnaryOp _ => Err ValueError
  | EUnaryOp op operand =>
      let* v := walk constants operand in
      match op with
      | UAdd => Ok v
      | USub => Ok (- v)
      | OtherUnaryOp => Err ValueError
      end
  | EOther => Err ValueError
  end.

Section Parse.
(** [ast.parse(expr, mode="eval").body]; [None] is a [SyntaxError]. *)
Variable ast_parse : string -> option expr.
(** [assignment_pattern.match(line)]: the name and the stripped expression
    of a line [REFERENCE_X = expression;]. *)
Variable assignment_match : string -> option (string * string).

Definition eval_expression (constants : gmap string Q) (text : string) : res Q :=
  let* parsed := of_option OtherError (ast_parse text) in
  walk constants parsed.

(** The dict [expressions] of the matching lines: a repeated name keeps its
    first position and takes the last expression. *)
Definition collect_expressions (lines : list string) : odict string :=
  fold_left
    (fun expressions line =>
       match assignment_match line with
       | Some (name, text) => od_set expressions name text
       | None => expressions
       end)
    lines [].

(** One run of [for name in list(unresolved.keys())]: the constants, the
    names left unresolved (in order) and the flag [progressed].  Only a
    [KeyError] is caught. *)
Fixpoint resolve_pass (entries : odict string) (constants : gmap string Q)
    (remaining : odict string) (progressed : bool)
    : res (gmap string Q * odict string * bool) :=
  match entries with
  | [] => Ok (constants, remaining, progressed)
  | (name, text) :: rest =>
      match eval_expression constants text with
      | Ok value => resolve_pass rest (<[name := value]> constants) remaining true
      | Err (KeyError _) =>
          resolve_pass rest constants (remaining ++ [(name, text)]) progressed
      | Err e => Err e
      end
  end.

(** [while unresolved: ...], with one unit of fuel per pass; [None] when
    the fuel runs out. *)
Fixpoint resolve_loop (fuel : nat) (unresolved : odict string)
    (constants : gmap string Q) : option (res (gmap string Q)) :=
  match unresolved with
  | [] => Some (Ok constants)
  | _ :: _ =>
      match fuel with
      | O => None
      | S fuel' =>
          match resolve_pass unresolved constants [] false with
          | Err e => Some (Err e)
          | Ok (constants', remaining, progressed) =>
              if progressed then resolve_loop fuel' remaining constants'
              else Some (Err ValueError)
          end
      end
  end.

Definition REQUIRED_REFERENCE_CONSTANTS : list string :=
  map fst CANONICAL_REFERENCE_CONSTANTS.

(** [parse_reference_constants], from the lines of the reference file
    ([None]: the file does not exist).  A pass that progresses resolves at
    least one name, so one unit of fuel per expression is enough. *)
Definition parse_reference_constants (file_lines : option (list string))
    : res (gmap string Q) :=
  match file_lines with
  | None => Err OSError
  | Some lines =>
      let expressions := collect_expressions lines in
      match resolve_loop (length expressions) expressions ∅ with
      | None => Err OtherError
      | Some (Err e) => Err e
      | Some (Ok constants) =>
          let missing :=
            List.filter (fun name => match constants !! name with
                                     | Some _ => false
                                     | None => true
                                     end)
                        REQUIRED_REFERENCE_CONSTANTS in
          match missing with
          | [] => Ok constants
          | _ :: _ => Err ValueError
          end
      end
  end.

End Parse.

End Resolver.

(** ** Sweep profiles *)

Module Profile.
Import Py ValidateFull.

(** The dict a profile is normalised to. *)
Record profile_dict : Type := {
  pd_name : string;
  pd_presets : list string;
  pd_perturbations : list (string * odict scad_value);
  pd_source_file : string
}.

(** [for key, value in overrides.items()] of
    [_validate_perturbation_overrides].  The keys of a decoded JSON object
    are strings. *)
Fixpoint overrides_loop (items : list (string * json)) (normalized : odict scad_value)
    : res (odict scad_value) :=
  match items with
  | [] => Ok normalized
  | (key, value) :: rest =>
      if String.eqb (strip key) "" then Err ValueError
      else
        match value with
        | JBool b => overrides_loop rest (od_set normalized key (SBool b))
        | JNum q => overrides_loop rest (od_set normalized key (SNum q))
        | _ => Err ValueError
        end
  end.

(** [overrides] is [entry.get("overrides")]: [None] for an absent key. *)
Definition _validate_perturbation_overrides (name : string) (overrides : option json)
    : res (odict scad_value) :=
  match overrides with
  | Some (JObj items) =>
      let* normalized := overrides_loop items [] in
      match normalized with
      | [] => Err ValueError
      | _ :: _ => Ok normalized
      end
  | _ => Err ValueError
  end.

(** [for preset in raw_presets] *)
Fixpoint presets_loop (raw_presets : list json) (presets : list string)
    : res (list string) :=
  match raw_presets with
  | [] => Ok presets
  | JStr preset :: rest =>
      if String.eqb (strip preset) "" then Err ValueError
      else presets_loop rest (presets ++ [strip preset])
  | _ :: _ => Err ValueError
  end.

(** [for entry in raw_perturbations] *)
Fixpoint perturbations_loop (raw_perturbations : list json)
    (perturbations : list (string * odict scad_value))
    : res (list (string * odict scad_value)) :=
  match raw_perturbations with
  | [] => Ok perturbations
  | JObj entry :: rest =>
      match od_get entry "name" with
      | Some (JStr name) =>
          if String.eqb (strip name) "" then Err ValueError
          else
            let* overrides :=
              _validate_perturbation_overrides (strip name) (od_get entry "overrides") in
            perturbations_loop rest (perturbations ++ [(strip name, overrides)])
      | _ => Err ValueError
      end
  | _ :: _ => Err ValueError
  end.

(** The arguments of the command line that select the profile;
    [arg_sweep_config] is the resolved path. *)
Record profile_args : Type := {
  arg_sweep_profile : option string;
  arg_quick : bool;
  arg_sweep_config : string;
  arg_sweep_presets : option (list string)
}.

Definition SWEEP_PROFILE_FULL : string := "full".
Definition SWEEP_PROFILE_QUICK : string := "quick".

Section Resolve.
Context {World : Type} {host : Host World}.
(** [Path(a) / b] on the preset files, whose names come from the
    configuration. *)
Variable joinpath : string -> string -> string.

Definition normalize_sweep_profile (w : World) (config_path profile_name : string)
    : res profile_dict :=
  match load_json w config_path with
  | None => Err ValueError
  | Some config_data =>
      match od_get config_data "profiles" with
      | Some (JObj raw_profiles) =>
          match od_get raw_profiles profile_name with
          | Some (JObj raw_profile) =>
              match od_get raw_profile "presets" with
              | Some (JArr ((_ :: _) as raw_presets)) =>
                  let* presets := presets_loop raw_presets [] in
                  match od_get_default raw_profile "perturbations" (JArr []) with
                  | JArr raw_perturbations =>
                      let* perturbations := perturbations_loop raw_perturbations [] in
                      Ok {| pd_name := profile_name;
                            pd_presets := presets;
                            pd_perturbations := perturbations;
                            pd_source_file := config_path |}
                  | _ => Err ValueError
                  end
              | _ => Err ValueError
              end
          | _ => Err ValueError
          end
      | _ => Err ValueError
      end
  end.

(** [project_root / "codex_hull_lab" / "presets" / f"{preset}.scad"] *)
Definition preset_file (project_root preset : string) : string :=
  joinpath (joinpath (joinpath project_root "codex_hull_lab") "presets")
           (preset ++ ".scad")%string.

Definition resolve_sweep_profile (w : World) (args : profile_args)
    (project_root : string) : res profile_dict :=
  let profile_name :=
    match arg_sweep_profile args with
    | Some ((String _ _) as name) => name
    | _ => if arg_quick args then SWEEP_PROFILE_QUICK else SWEEP_PROFILE_FULL
    end in
  let config_path := arg_sweep_config args in
  let* profile := normalize_sweep_profile w config_path profile_name in
  let* profile :=
    match arg_sweep_presets args with
    | Some ((_ :: _) as names) =>
        let presets :=
          map strip (List.filter (fun name => negb (String.eqb (strip name) "")) names) in
        match presets with
        | [] => Err ValueError
        | _ :: _ =>
            Ok {| pd_name := pd_name profile;
                  pd_presets := presets;
                  pd_perturbations := pd_perturbations profile;
                  pd_source_file := pd_source_file profile |}
        end
    | _ => Ok profile
    end in
  let missing :=
    List.filter (fun preset => negb (path_exists w (preset_file project_root preset)))
                (pd_presets profile) in
  match missing with
  | [] => Ok profile
  | _ :: _ => Err ValueError
  end.

End Resolve.

End Profile.

(** ** A synthetic kernel and host

    Concrete instances of the two interfaces, on which the definitions
    above can be evaluated: a hull that is free space except for four
    bowl-shaped seats at the expected slot positions, a flat floor below,
    and a file system held in lists. *)

Module Synthetic.
Import Py ValidateFull.

Definition seat_bowl (p : point) : Q :=
  -(5) + (Qabs (px p) - 16) * (Qabs (px p) - 16)
       + (Qabs (py p) - 33) * (Qabs (py p) - 33).

#[export] Instance kernel : GeometryProvider := {|
  signed_distance := fun _ p => if Qleb 20 (Qabs (py p)) then seat_bowl p else -(5);
  is_watertight := fun _ => true;
  ray_hits := fun _ origin _ => [(px origin, py origin, -(40))];
  rotate_about_y := fun _ _ p => p;
  face_normals := fun m => map (fun _ => (0, 0, 1)) (faces m);
  area_faces := fun m => map (fun _ => 1) (faces m);
  extents := fun _ => (80, 30, 10);
  volume := fun _ => 24000;
  area := fun _ => 7000;
  thickness := Some (fun _ points _ _ => Some (map (fun _ => Some 2) points));
  hypot := fun a b => Qabs a + Qabs b;
  cos_deg := fun _ => 0.7
|}.

(** A kernel whose hull swallows every point: all signed distances are 1. *)
Definition solid_kernel : GeometryProvider := {|
  signed_distance := fun _ _ => 1;
  is_watertight := fun _ => true;
  ray_hits := fun _ _ _ => [];
  rotate_about_y := fun _ _ p => p;
  face_normals := fun m => map (fun _ => (0, 0, 1)) (faces m);
  area_faces := fun m => map (fun _ => 1) (faces m);
  extents := fun _ => (80, 30, 10);
  volume := fun _ => 24000;
  area := fun _ => 7000;
  thickness := None;
  hypot := fun a b => Qabs a + Qabs b;
  cos_deg := fun _ => 0.7
|}.

(** An 80 x 30 x 10 box standing on z = 0. *)
Definition box_hull : Trimesh := {|
  vertices :=
    [ (-(40), -(15), 0); (40, -(15), 0); (40, 15, 0); (-(40), 15, 0);
      (-(40), -(15), 10); (40, -(15), 10); (40, 15, 10); (-(40), 15, 10) ];
  faces := [ (0, 1, 2); (0, 2, 3); (4, 5, 6); (4, 6, 7) ]%nat
|}.

(** A one-triangle frame whose lowest vertices are at z = 20. *)
Definition frame : Trimesh := {|
  vertices := [ (0, 0, 20); (1, 0, 20); (0, 1, 21) ];
  faces := [ (0, 1, 2) ]%nat
|}.

Definition slot_plug : Trimesh := {|
  vertices := [ (0, 0, 0); (1, 0, 0); (0, 1, 0) ];
  faces := [ (0, 1, 2) ]%nat
|}.

Definition canonical_constants : gmap string Q :=
  list_to_map ReferenceFit.CANONICAL_REFERENCE_CONSTANTS.

Record world : Type := {
  files : list string;
  environ : odict string;
  documents : odict json;
  meshes : odict Trimesh
}.

Definition add_file (w : world) (path : string) : world :=
  {| files := path :: files w; environ := environ w;
     documents := documents w; meshes := meshes w |}.

Definition add_document (w : world) (path : string) (doc : json) : world :=
  {| files := path :: files w; environ := environ w;
     documents := od_set (documents w) path doc; meshes := meshes w |}.

Definition passing_command (name : string) : command_record :=
  {| cmd_name := name; cmd_returncode := Some 0%Z; cmd_pass := true;
     cmd_timed_out := Some false; cmd_output_file := None;
     cmd_cache_hit := None; cmd_reason := None |}.

(** The report every synthetic fit run writes: the three required gates
    hold. *)
Definition fit_report : odict json :=
  [ ("pass", JBool true);
    ("gates",
     JObj [ ("slot_insertion_corridor", JBool true);
            ("frame_interference", JBool true);
            ("frame_floor_clearance", JBool true) ]);
    ("measurements",
     JObj [ ("slot_checks",
             JArr [ JObj [("corridor_min_radial_clearance_mm", JNum 0.25)] ]);
            ("frame_checks",
             JArr [ JObj [("min_gap_mm", JNum 0.20);
                          ("max_penetration_mm", JNum 0.0)] ]);
            ("overall_floor_clearance_min_mm", JNum 2.5) ]) ].

Definition preset_parameters : odict scad_value :=
  [ ("wall_mm", SNum 1.60);
    ("wall_end_taper_ratio", SNum 1.00);
    ("floor_mm", SNum 1.20);
    ("slot_outer_skin_min_mm", SNum 1.40);
    ("slot_skin_mm", SNum 1.35);
    ("feet_on", SBool true);
    ("foot_recess_depth_mm", SNum 0.50);
    ("foot_recess_skin_mm", SNum 0.50) ].

#[export] Instance host : Host world := {|
  path_exists := fun w path => str_in path (files w);
  read_json := fun w path => od_get (documents w) path;
  load_mesh := fun w path => of_option OSError (od_get (meshes w) path);
  getenv := fun w name => od_get (environ w) name;
  float_of_string := fun _ => None;
  py_str := fun _ => "";
  now_utc := fun _ => "2026-02-08T00:00:00+00:00";
  write_module_wrapper := fun w path _ _ => add_file w path;
  write_perturbed_hull_wrapper := fun w path _ _ _ => add_file w path;
  run_openscad_export := fun w _ _ output _ =>
    Ok (passing_command "openscad_export", add_file w output);
  run_reference_fit_command := fun w _ output_json _ _ _ _ =>
    (passing_command "verify_reference_fit", Some fit_report,
     add_document w output_json (JObj fit_report));
  parse_preset_parameters := fun _ _ => preset_parameters;
  write_json := fun w path payload => add_document w path payload
|}.

(** A project with one preset, the two reference sources, a hull mesh and
    the baseline report naming it. *)
Definition baseline_report : odict json :=
  [ ("inputs",
     JObj [ ("preset", JStr "gcsc_default");
            ("hull_stl", JStr "/p/hull.stl");
            ("frame_stl", JStr "/p/frame.stl") ]);
    ("thresholds",
     JObj [ ("frame_penetration_max_mm", JNum 0.01);
            ("frame_min_gap_mm", JNum 0.08) ]);
    ("reference_constants", JObj [ ("REFERENCE_FRAME_SPACING", JNum 16.0) ]);
    ("measurements",
     JObj [ ("seat_z_model_mm", JNum (-(7)));
            ("frame_alignment_z_mm", JNum (-(45))) ]) ].

Definition project : world := {|
  files :=
    [ "/p/codex_hull_lab/presets/gcsc_default.scad";
      "/p/codex_hull_lab/reference/frame_v5_3_reference.scad";
      "/p/codex_hull_lab/reference/slot_plug_reference.scad";
      "/p/hull.stl"; "/p/frame.stl";
      "/p/reports/reference_fit_sweep_gcsc_default.json" ];
  environ := [];
  documents :=
    [ ("/p/reports/reference_fit_sweep_gcsc_default.json", JObj baseline_report) ];
  meshes := [ ("/p/hull.stl", box_hull); ("/p/frame.stl", frame) ]
|}.

Definition manufacturability_defaults : manufacturability_args := {|
  min_wall_thickness_mm := 1.00;
  wall_thickness_probe_count := 1200;
  wall_thickness_probe_min_valid := 1;
  wall_thickness_probe_percentile := 5.0;
  wall_thickness_probe_noise_floor_mm := 0.25;
  min_recess_skin_mm := 1.00;
  max_risky_overhang_ratio := 0.35;
  max_overhang_from_horizontal_deg := 45.0;
  contact_z_tolerance_mm := 0.20;
  min_contact_area_mm2 := 700.0;
  min_contact_span_x_mm := 60.0;
  min_contact_span_y_mm := 18.0
|}.

(** The sweep of the repository's own test: one preset, one perturbation. *)
Definition sweep_defaults : sweep_args :=
  {| arg_openscad_path := Some "openscad"; arg_floor_clearance_min_mm := 2.0 |}.

Definition full_profile : sweep_profile :=
  {| profile_name := "full";
     profile_presets := ["gcsc_default"];
     profile_perturbations := [("floor_plus_0p80", [("floor_mm", SNum 10.8)])] |}.


(** The baseline scenario of the preset, as the signature gate reads it. *)
Definition baseline_scenario : scenario :=
  {| sc_name := "gcsc_default:baseline";
     sc_report_path := "/p/reports/reference_fit_sweep_gcsc_default.json";
     sc_command := passing_command "verify_reference_fit";
     sc_report_present := true;
     sc_report_pass := true;
     sc_gates := [];
     sc_key_measurements := None;
     sc_required_gate_pass := false;
     sc_perturbation_overrides := None;
     sc_hull_export := None;
     sc_cached_static_stls := None |}.




End Synthetic.

(** ** A synthetic reference file *)

Module SyntheticReference.
Import Py Resolver.

(** A reference file: a comment, a constant given by a name that is
    assigned further down, a constant given by a difference, and the other
    canonical constants as literals. *)
Definition reference_lines : list string :=
  [ "// hull reference dimensions";
    "REFERENCE_SLOT_ENTRY_Z = REFERENCE_COORDINATE_RIM_Z;";
    "REFERENCE_PIVOT_Y = 33;";
    "REFERENCE_PIVOT_Z = 38;";
    "REFERENCE_SLOT_DIAMETER = 7.5;";
    "REFERENCE_BALL_DIAMETER = REFERENCE_SLOT_DIAMETER - 0.25;";
    "REFERENCE_FRAME_SPACING = 16;";
    "REFERENCE_FRAME_BOTTOM_Z = 17;";
    "REFERENCE_COORDINATE_RIM_Z = 45;";
    "REFERENCE_MODEL_RIM_Z = 0;" ].

(** The same file with one more line, which reads a name that no line
    assigns. *)
Definition broken_lines : list string :=
  reference_lines ++ [ "REFERENCE_FOOT_Z = REFERENCE_FOOT_HEIGHT + 1;" ].

(** The assignment pattern on the lines of the two files. *)
Definition assignment_match (line : string) : option (string * string) :=
  od_get
    [ ("REFERENCE_SLOT_ENTRY_Z = REFERENCE_COORDINATE_RIM_Z;",
       ("REFERENCE_SLOT_ENTRY_Z", "REFERENCE_COORDINATE_RIM_Z"));
      ("REFERENCE_PIVOT_Y = 33;", ("REFERENCE_PIVOT_Y", "33"));
      ("REFERENCE_PIVOT_Z = 38;", ("REFERENCE_PIVOT_Z", "38"));
      ("REFERENCE_SLOT_DIAMETER = 7.5;", ("REFERENCE_SLOT_DIAMETER", "7.5"));
      ("REFERENCE_BALL_DIAMETER = REFERENCE_SLOT_DIAMETER - 0.25;",
       ("REFERENCE_BALL_DIAMETER", "REFERENCE_SLOT_DIAMETER - 0.25"));
      ("REFERENCE_FRAME_SPACING = 16;", ("REFERENCE_FRAME_SPACING", "16"));
      ("REFERENCE_FRAME_BOTTOM_Z = 17;", ("REFERENCE_FRAME_BOTTOM_Z", "17"));
      ("REFERENCE_COORDINATE_RIM_Z = 45;", ("REFERENCE_COORDINATE_RIM_Z", "45"));
      ("REFERENCE_MODEL_RIM_Z = 0;", ("REFERENCE_MODEL_RIM_Z", "0"));
      ("REFERENCE_FOOT_Z = REFERENCE_FOOT_HEIGHT + 1;",
       ("REFERENCE_FOOT_Z", "REFERENCE_FOOT_HEIGHT + 1")) ]
    line.

(** The syntax trees of their expressions. *)
Definition ast_parse (text : string) : option expr :=
  od_get
    [ ("REFERENCE_COORDINATE_RIM_Z", EName "REFERENCE_COORDINATE_RIM_Z");
      ("33", EConstant 33);
      ("38", EConstant 38);
      ("7.5", EConstant 7.5);
      ("REFERENCE_SLOT_DIAMETER - 0.25",
       EBinOp Sub (EName "REFERENCE_SLOT_DIAMETER") (EConstant 0.25));
      ("16", EConstant 16);
      ("17", EConstant 17);
      ("45", EConstant 45);
      ("0", EConstant 0);
      ("REFERENCE_FOOT_HEIGHT + 1",
       EBinOp Add (EName "REFERENCE_FOOT_HEIGHT") (EConstant 1)) ]
    text.

End SyntheticReference.

(** ** A synthetic sweep configuration *)

Module SyntheticProfile.
Import Py ValidateFull Profile Synthetic.

(** A sweep configuration with one profile: a preset written with blanks
    around its name, and one perturbation. *)
Definition sweep_config : json :=
  JObj
    [ ("profiles",
       JObj
         [ ("full",
            JObj
              [ ("presets", JArr [JStr " gcsc_default "]);
                ("perturbations",
                 JArr [ JObj [ ("name", JStr "floor_plus_0p80");
                               ("overrides", JObj [("floor_mm", JNum 10.8)]) ] ]) ]) ]) ].

Definition project_with_config : world :=
  add_document project "/p/sweep_profiles.json" sweep_config.

Definition profile_defaults : profile_args :=
  {| arg_sweep_profile := None;
     arg_quick := false;
     arg_sweep_config := "/p/sweep_profiles.json";
     arg_sweep_presets := None |}.

(** The signature gate asked to write the baseline first. *)
Definition signature_baseline_args : signature_args :=
  {| arg_signature_file := "/p/golden_geometry_signatures.json";
     arg_allow_signature_drift := false;
     arg_write_signature_baseline := true;
     arg_signature_relative_band := 0.03;
     arg_signature_absolute_band_mm := 0.5 |}.

End SyntheticProfile.

(** * Properties *)

(** ** Comparisons of rationals *)

Lemma Qleb_le a b : Qleb a b = true <-> a <= b.
Proof. apply Qle_bool_iff. Qed.

Lemma Qgeb_le a b : Qgeb a b = true <-> b <= a.
Proof. apply Qle_bool_iff. Qed.

Lemma Qltb_lt a b : Qltb a b = true <-> a < b.
Proof.
  unfold Qltb. rewrite negb_true_iff. split.
  - intros H. apply Qnot_le_lt. intros Hle.
    apply Qle_bool_iff in Hle. congruence.
  - intros H. destruct (Qle_bool b a) eqn:E; [|reflexivity].
    apply Qle_bool_iff in E. exfalso. exact (Qlt_not_le _ _ H E).
Qed.

Lemma Qgtb_lt a b : Qgtb a b = true <-> b < a.
Proof. unfold Qgtb. apply (Qltb_lt b a). Qed.

Lemma Qgtb_false_le a b : Qgtb a b = false <-> a <= b.
Proof.
  unfold Qgtb. rewrite negb_false_iff. apply Qle_bool_iff.
Qed.

Lemma Qltb_false_le a b : Qltb a b = false <-> b <= a.
Proof.
  unfold Qltb. rewrite negb_false_iff. apply Qle_bool_iff.
Qed.

Lemma pymin_le_l a b : pymin a b <= a.
Proof.
  unfold pymin. destruct (Qltb b a) eqn:E.
  - apply Qltb_lt in E. apply Qlt_le_weak. exact E.
  - apply Qle_refl.
Qed.

Lemma pymin_le_r a b : pymin a b <= b.
Proof.
  unfold pymin. destruct (Qltb b a) eqn:E.
  - apply Qle_refl.
  - apply Qltb_false_le in E. exact E.
Qed.

Lemma pymin_cases a b : pymin a b = a \/ pymin a b = b.
Proof. unfold pymin. destruct (Qltb b a); auto. Qed.

Lemma pymax_ge_l a b : a <= pymax a b.
Proof.
  unfold pymax. destruct (Qgtb b a) eqn:E.
  - apply Qgtb_lt in E. apply Qlt_le_weak. exact E.
  - apply Qle_refl.
Qed.

Lemma pymax_ge_r a b : b <= pymax a b.
Proof.
  unfold pymax. destruct (Qgtb b a) eqn:E.
  - apply Qle_refl.
  - apply Qgtb_false_le in E. exact E.
Qed.

Lemma pymax_cases a b : pymax a b = a \/ pymax a b = b.
Proof. unfold pymax. destruct (Qgtb b a); auto. Qed.

(** The running minimum of [fold_left pymin] is a lower bound of the seed
    and of the list, and is one of them. *)
Lemma fold_pymin_le xs : forall a,
  fold_left pymin xs a <= a /\ (forall x, In x xs -> fold_left pymin xs a <= x).
Proof.
  induction xs as [|y ys IH]; intros a; simpl.
  - split; [apply Qle_refl | intros x []].
  - destruct (IH (pymin a y)) as [Hseed Hall]. split.
    + eapply Qle_trans; [exact Hseed | apply pymin_le_l].
    + intros x [<- | Hin].
      * eapply Qle_trans; [exact Hseed | apply pymin_le_r].
      * apply Hall, Hin.
Qed.

Lemma fold_pymin_in xs : forall a,
  fold_left pymin xs a = a \/ In (fold_left pymin xs a) xs.
Proof.
  induction xs as [|y ys IH]; intros a; simpl.
  - left. reflexivity.
  - destruct (IH (pymin a y)) as [H | H].
    + rewrite H. destruct (pymin_cases a y) as [E | E]; rewrite E; auto.
    + right. right. exact H.
Qed.

Lemma min_list_spec xs m :
  min_list xs = Some m -> In m xs /\ (forall x, In x xs -> m <= x).
Proof.
  destruct xs as [|a rest]; simpl; [discriminate|].
  intros [= <-]. split.
  - destruct (fold_pymin_in rest a) as [H | H]; [left; symmetry; exact H | right; exact H].
  - intros x [<- | Hin];
      [apply (proj1 (fold_pymin_le rest a)) | apply (proj2 (fold_pymin_le rest a)), Hin].
Qed.

Lemma min_list_none xs : min_list xs = None <-> xs = [].
Proof. destruct xs; simpl; split; congruence. Qed.

Lemma fold_pymax_ge xs : forall a,
  a <= fold_left pymax xs a /\ (forall x, In x xs -> x <= fold_left pymax xs a).
Proof.
  induction xs as [|y ys IH]; intros a; simpl.
  - split; [apply Qle_refl | intros x []].
  - destruct (IH (pymax a y)) as [Hseed Hall]. split.
    + eapply Qle_trans; [apply pymax_ge_l | exact Hseed].
    + intros x [<- | Hin].
      * eapply Qle_trans; [apply pymax_ge_r | exact Hseed].
      * apply Hall, Hin.
Qed.

Lemma fold_pymax_in xs : forall a,
  fold_left pymax xs a = a \/ In (fold_left pymax xs a) xs.
Proof.
  induction xs as [|y ys IH]; intros a; simpl.
  - left. reflexivity.
  - destruct (IH (pymax a y)) as [H | H].
    + rewrite H. destruct (pymax_cases a y) as [E | E]; rewrite E; auto.
    + right. right. exact H.
Qed.

Lemma max_list_spec xs m :
  max_list xs = Some m -> In m xs /\ (forall x, In x xs -> x <= m).
Proof.
  destruct xs as [|a rest]; simpl; [discriminate|].
  intros [= <-]. split.
  - destruct (fold_pymax_in rest a) as [H | H]; [left; symmetry; exact H | right; exact H].
  - intros x [<- | Hin];
      [apply (proj1 (fold_pymax_ge rest a)) | apply (proj2 (fold_pymax_ge rest a)), Hin].
Qed.

Lemma max_list_none xs : max_list xs = None <-> xs = [].
Proof. destruct xs; simpl; split; congruence. Qed.

(** ** Results *)

Lemma rbind_ok {A B} (m : res A) (k : A -> res B) (b : B) :
  rbind m k = Ok b -> exists a, m = Ok a /\ k a = Ok b.
Proof. destruct m as [a|e]; simpl; [eauto | discriminate]. Qed.


Ltac bind_inv_fresh H :=
  let x := fresh "x" in
  let Hx := fresh "H" x in
  apply rbind_ok in H as (x & Hx & H).

Tactic Notation "bind_inv" hyp(H) := bind_inv_fresh H.

Tactic Notation "bind_inv" hyp(H) "as" ident(x) ident(Hx) :=
  apply rbind_ok in H as (x & Hx & H).

(** ** Properties of verify_reference_fit.py *)

Import ReferenceFit.

Section Fit.
Context {provider : GeometryProvider}.


(** A delta entry records one canonical constant: its name, its canonical
    value, the resolved value and their difference. *)
Definition entry_matches (constants : gmap string Q) (e : delta_entry) (c : string * Q) : Prop :=
  de_name e = fst c /\ de_expected e = snd c /\
  constants !! fst c = Some (de_observed e) /\
  de_delta_mm e = de_observed e - snd c.

Lemma lock_loop_spec canon (constants : gmap string Q) :
  (forall name expected, In (name, expected) canon -> is_Some (constants !! name)) ->
  forall locked deltas,
  exists locked' new,
    lock_loop canon constants locked deltas = Ok (locked', deltas ++ new)
    /\ (locked' = true <->
        locked = true /\
        forall name expected observed,
          In (name, expected) canon -> constants !! name = Some observed ->
          Qabs (observed - expected) <= 1e-6)
    /\ Forall2 (entry_matches constants) new canon.
Proof.
  induction canon as [|[name expected] rest IH]; intros Hall locked deltas.
  - exists locked, []. simpl. rewrite app_nil_r. split; [reflexivity|split].
    + split; [intros Hl; split; [exact Hl | intros ? ? ? []] | tauto].
    + constructor.
  - destruct (Hall name expected (or_introl eq_refl)) as [observed Hobs].
    cbn [lock_loop]. rewrite Hobs. cbv zeta.
    edestruct IH as (locked' & new & Hrun & Hlocked & Hnew).
    { intros n e Hin. apply (Hall n e). right. exact Hin. }
    eexists locked', (_ :: new). split; [|split].
    + rewrite Hrun. rewrite <- app_assoc. reflexivity.
    + rewrite Hlocked. split.
      * intros [Hl Hrest].
        destruct (Qgtb (Qabs (observed - expected)) 1e-6) eqn:E; [discriminate|].
        split; [exact Hl|].
        intros n e o [[= <- <-] | Hin] Hlook.
        -- rewrite Hobs in Hlook. injection Hlook as <-.
           apply Qgtb_false_le. exact E.
        -- eapply Hrest; eauto.
      * intros [Hl Hall'].
        assert (E : Qgtb (Qabs (observed - expected)) 1e-6 = false).
        { apply Qgtb_false_le. eapply Hall'; [left; reflexivity | exact Hobs]. }
        rewrite E. split; [exact Hl|].
        intros n e o Hin. apply Hall'. right. exact Hin.
    + constructor; [|exact Hnew].
      repeat split; cbn; auto.
Qed.

(** C5.  For a resolved constant map that holds every canonical reference
    constant, [evaluate_reference_constant_lock] returns; its boolean is
    true exactly when every canonical constant is observed within 1e-6 of
    its canonical value; and the delta list has one entry per canonical
    constant, in order, recording the name, the expected value, the
    observed value and their difference. *)
Theorem C5_constants_locked_iff_within_epsilon (constants : gmap string Q)
    (Hall : forall name expected,
        In (name, expected) CANONICAL_REFERENCE_CONSTANTS ->
        is_Some (constants !! name)) :
  exists locked deltas,
    evaluate_reference_constant_lock constants = Ok (locked, deltas)
    /\ (locked = true <->
        forall name expected observed,
          In (name, expected) CANONICAL_REFERENCE_CONSTANTS ->
          constants !! name = Some observed ->
          Qabs (observed - expected) <= 1e-6)
    /\ Forall2 (entry_matches constants) deltas CANONICAL_REFERENCE_CONSTANTS.
Proof.
  unfold evaluate_reference_constant_lock.
  destruct (lock_loop_spec CANONICAL_REFERENCE_CONSTANTS constants Hall true [])
    as (locked & deltas & Hrun & Hlocked & Hdeltas).
  exists locked, deltas. split; [exact Hrun|]. split; [|exact Hdeltas].
  rewrite Hlocked. split; [intros [_ H]; exact H | intros H; split; [reflexivity | exact H]].
Qed.


Lemma nth_error_seq_map {A} (f : nat -> A) n i x :
  nth_error (map f (seq 0 n)) i = Some x -> (i < n)%nat /\ x = f i.
Proof.
  intros H.
  assert (Hi : (i < n)%nat).
  { assert (Hn : nth_error (map f (seq 0 n)) i <> None) by congruence.
    apply nth_error_Some in Hn. rewrite length_map, length_seq in Hn. exact Hn. }
  split; [exact Hi|].
  rewrite nth_error_map, nth_error_seq in H.
  destruct (Nat.ltb_spec i n) as [_|Hge]; [|lia].
  cbn in H. congruence.
Qed.

(** [np.linspace]: the number of points and the value of each one. *)
Lemma linspace_spec start stop num zs :
  linspace start stop num = Ok zs ->
  (0 <= num)%Z
  /\ length zs = Z.to_nat num
  /\ (forall i z, nth_error zs i = Some z ->
        z == start + inject_Z (Z.of_nat i) * ((stop - start) / inject_Z (num - 1)))
  /\ ((2 <= num)%Z -> List.last zs 0 = stop).
Proof.
  unfold linspace. destruct (Z.ltb_spec num 0) as [|Hnum]; [discriminate|].
  destruct (Z.to_nat num) as [|[|n]] eqn:E; intros H.
  - injection H as <-. repeat split; auto.
    + intros i z H. destruct i; discriminate.
    + intros; lia.
  - injection H as <-. repeat split; auto.
    + intros [|i] z H; [|destruct i; discriminate]. injection H as <-.
      cbn. ring.
    + intros; lia.
  - assert (Enum : (num - 1)%Z = Z.of_nat (S n)) by lia.
    rewrite Enum in *.
    assert (Hk : ~ inject_Z (Z.of_nat (S n)) == 0).
    { intros Hk. unfold Qeq in Hk. cbn in Hk. lia. }
    set (step := (stop - start) / inject_Z (Z.of_nat (S n))) in *.
    set (f := fun i : nat => inject_Z (Z.of_nat i) * step + start) in *.
    assert (Hzs : zs = map f (seq 0 (S n)) ++ [stop]) by congruence.
    clear H. subst zs.
    split; [exact Hnum|split; [|split]].
    + rewrite length_app, length_map, length_seq. cbn. lia.
    + intros i z H.
      destruct (Nat.lt_ge_cases i (S n)) as [Hi|Hi].
      * rewrite nth_error_app1 in H by (rewrite length_map, length_seq; exact Hi).
        apply nth_error_seq_map in H as [_ ->]. unfold f. ring.
      * rewrite nth_error_app2 in H by (rewrite length_map, length_seq; exact Hi).
        rewrite length_map, length_seq in H.
        destruct (i - S n)%nat as [|j] eqn:Ej; [|destruct j; discriminate].
        injection H as <-. replace i with (S n) by lia.
        unfold step. field. exact Hk.
    + intros _. apply last_last.
Qed.

Lemma last_map_nonempty {A B} (f : A -> B) (l : list A) (d : A) (d' : B) :
  l <> [] -> List.last (map f l) d' = f (List.last l d).
Proof.
  induction l as [|a [|b rest] IH]; intros Hne.
  - contradiction.
  - reflexivity.
  - change (List.last (map f (b :: rest)) d' = f (List.last (b :: rest) d)).
    apply IH. discriminate.
Qed.


(** C2.  Whenever the slot measurement returns, its corridor probe line
    has the configured number of points, all at the observed seat (x, y),
    at evenly spaced heights from the seat height up to the entry height;
    the corridor minimum free radius is the least negated signed distance
    along that line; the corridor clearance is that radius minus the ball
    radius; and the corridor check passes exactly when the clearance is at
    least the minimum corridor clearance. *)
Theorem C2_insertion_corridor_check
    (hull_mesh : Trimesh) (expected_x expected_y seat_z entry_z ball_radius : Q)
    (thresholds : VerificationThresholds) (s : slot_check)
    (Hrun : measure_slot_geometry hull_mesh expected_x expected_y seat_z entry_z
              ball_radius thresholds = Ok s) :
  let n := corridor_samples thresholds in
  exists path,
    corridor_path (observed_x_mm s) (observed_y_mm s) seat_z entry_z n = Ok path
    /\ Z.of_nat (length path) = n
    /\ (forall i p, nth_error path i = Some p ->
          px p = observed_x_mm s /\ py p = observed_y_mm s
          /\ pz p == seat_z
                     + inject_Z (Z.of_nat i) * ((entry_z - seat_z) / inject_Z (n - 1)))
    /\ ((2 <= n)%Z -> pz (List.last path (0, 0, 0)) = entry_z)
    /\ In (corridor_min_free_radius_mm s)
          (map Qopp (map (signed_distance hull_mesh) path))
    /\ (forall p, In p path ->
          corridor_min_free_radius_mm s <= - signed_distance hull_mesh p)
    /\ corridor_min_radial_clearance_mm s
        = corridor_min_free_radius_mm s - ball_radius
    /\ (corridor_pass s = true <->
        corridor_radial_clearance_min_mm thresholds
          <= corridor_min_radial_clearance_mm s).
Proof.
  unfold measure_slot_geometry in Hrun.
  bind_inv Hrun. bind_inv Hrun. bind_inv Hrun. bind_inv Hrun.
  injection Hrun as <-.
  cbn [observed_x_mm observed_y_mm corridor_min_free_radius_mm
       corridor_min_radial_clearance_mm corridor_pass].
  exists x1. split; [exact Hx1|].
  unfold corridor_path in Hx1. bind_inv Hx1. injection Hx1 as <-.
  apply linspace_spec in Hx3 as (Hn & Hlen & Hz & Hlast).
  unfold np_min in Hx2.
  destruct (min_list _) as [m|] eqn:Emin; [|discriminate].
  injection Hx2 as <-. apply min_list_spec in Emin as [Hin Hle].
  split; [|split; [|split; [|split; [|split; [|split]]]]].
  - rewrite length_map, Hlen. lia.
  - intros i p Hp. rewrite nth_error_map in Hp.
    destruct (nth_error x3 i) as [z|] eqn:Ez; [|discriminate].
    injection Hp as <-. cbn. repeat split. apply Hz, Ez.
  - intros Hge. specialize (Hlast Hge).
    destruct x3 as [|z zs]; [cbn in Hlen; lia|].
    rewrite (last_map_nonempty _ (z :: zs) 0) by discriminate.
    cbn [pz snd]. exact Hlast.
  - exact Hin.
  - intros p Hp. apply Hle. apply in_map, in_map. exact Hp.
  - reflexivity.
  - apply Qgeb_le.
Qed.




Lemma linspace_returns start stop num :
  (1 <= num)%Z -> exists zs, linspace start stop num = Ok zs /\ zs <> [].
Proof.
  intros Hnum. unfold linspace.
  destruct (Z.ltb_spec num 0) as [|_]; [lia|].
  destruct (Z.to_nat num) as [|[|n]] eqn:E; [lia| |].
  - eexists. split; [reflexivity | discriminate].
  - eexists. split; [reflexivity|]. intros H. apply app_eq_nil in H as [_ H]. discriminate.
Qed.

Lemma slot_scan_grid_returns ex ey seat_z radius step :
  ~ step == 0 -> (0 <= round_half_even ((2 * radius) / step))%Z ->
  exists grid, slot_scan_grid ex ey seat_z radius step = Ok grid /\ grid <> [].
Proof.
  intros Hstep Hround. unfold slot_scan_grid.
  destruct (Qeqb step 0) eqn:E.
  { exfalso. apply Hstep. apply Qeq_bool_iff. exact E. }
  destruct (linspace_returns (ex - radius) (ex + radius)
              (round_half_even ((2 * radius) / step) + 1)) as (xs & -> & Hxs); [lia|].
  destruct (linspace_returns (ey - radius) (ey + radius)
              (round_half_even ((2 * radius) / step) + 1)) as (ys & -> & Hys); [lia|].
  cbn [rbind]. eexists. split; [reflexivity|].
  destruct ys as [|y ys]; [contradiction|]. destruct xs as [|x xs]; [contradiction|].
  discriminate.
Qed.


Lemma measure_slot_geometry_returns hull ex ey seat_z entry_z ball thresholds :
  ~ axis_scan_step_mm thresholds == 0 ->
  (0 <= round_half_even
          ((2 * axis_scan_radius_mm thresholds) / axis_scan_step_mm thresholds))%Z ->
  (1 <= corridor_samples thresholds)%Z ->
  exists s, measure_slot_geometry hull ex ey seat_z entry_z ball thresholds = Ok s.
Proof.
  intros Hstep Hround Hsamples. unfold measure_slot_geometry.
  destruct (slot_scan_grid_returns ex ey seat_z _ _ Hstep Hround) as (grid & -> & Hgrid).
  cbn [rbind]. destruct grid as [|g grid]; [contradiction|].
  cbn [map argmax rbind]. unfold corridor_path.
  destruct (linspace_returns seat_z entry_z _ Hsamples) as (zs & -> & Hzs).
  cbn [rbind]. destruct zs as [|z zs]; [contradiction|].
  cbn [map np_min min_list of_option rbind]. eauto.
Qed.

Lemma analyze_frame_placement_returns hull frame spacing align thresholds x_sign :
  vertices frame <> [] ->
  exists r, analyze_frame_placement hull frame spacing align thresholds x_sign = Ok r.
Proof.
  intros Hne. unfold analyze_frame_placement, placement_samples, frame_bottom_points.
  destruct (vertices frame) as [|v vs]; [contradiction|].
  cbn [app map np_max np_min max_list min_list of_option rbind]. eauto.
Qed.

(** The analysis returns a report on every input the command line can
    build: the eight constants it reads are resolved, the axis scan has a
    non-zero step and at least one point per axis, the corridor has at
    least one sample, and the frame has a vertex. *)
Lemma analyze_reference_fit_returns hull frame slot_plug
    (constants : gmap string Q) thresholds locked :
  (forall key,
      In key [ "REFERENCE_FRAME_SPACING"; "REFERENCE_PIVOT_Y";
               "REFERENCE_SLOT_DIAMETER"; "REFERENCE_BALL_DIAMETER";
               "REFERENCE_PIVOT_Z"; "REFERENCE_SLOT_ENTRY_Z";
               "REFERENCE_COORDINATE_RIM_Z"; "REFERENCE_MODEL_RIM_Z" ] ->
      is_Some (constants !! key)) ->
  ~ axis_scan_step_mm thresholds == 0 ->
  (0 <= round_half_even
          ((2 * axis_scan_radius_mm thresholds) / axis_scan_step_mm thresholds))%Z ->
  (1 <= corridor_samples thresholds)%Z ->
  vertices frame <> [] ->
  exists r, analyze_reference_fit hull frame slot_plug constants thresholds locked = Ok r.
Proof.
  intros Hkeys Hstep Hround Hsamples Hframe. unfold analyze_reference_fit, getitem.
  repeat match goal with
  | |- context [constants !! ?k] =>
      let v := fresh "v" in
      destruct (Hkeys k) as [v ->]; [cbn; tauto | cbn [of_option rbind]]
  end.
  cbn [rmap].
  repeat match goal with
  | |- context [measure_slot_geometry ?h ?x ?y ?sz ?ez ?b ?t] =>
      let s := fresh "s" in
      destruct (measure_slot_geometry_returns h x y sz ez b t Hstep Hround Hsamples)
        as [s ->]; cbn [rbind]
  end.
  unfold analyze_frame_fit. cbn [rmap].
  repeat match goal with
  | |- context [analyze_frame_placement ?h ?f ?sp ?al ?t ?x] =>
      let r := fresh "r" in
      destruct (analyze_frame_placement_returns h f sp al t x Hframe) as [r ->];
      cbn [rbind]
  end.
  eauto.
Qed.


(** The command line never asks for fewer than two corridor samples, so its
    probe line always reaches the entry height. *)
Lemma build_thresholds_corridor_samples args :
  (2 <= corridor_samples (build_thresholds args))%Z.
Proof. cbn. lia. Qed.


Lemma analyze_frame_fit_two hull frame spacing align thr results :
  analyze_frame_fit hull frame spacing align thr = Ok results ->
  exists r1 r2,
    results = [r1; r2]
    /\ analyze_frame_placement hull frame spacing align thr (-(1)) = Ok r1
    /\ analyze_frame_placement hull frame spacing align thr 1 = Ok r2.
Proof.
  unfold analyze_frame_fit. cbn [rmap]. intros H.
  bind_inv H. bind_inv H. bind_inv Hx0. cbn in Hx0. injection Hx0 as <-.
  injection H as <-. eauto.
Qed.




Lemma count_nonzero_zero {A} (f : A -> bool) xs :
  Nat.eqb (count_nonzero f xs) 0 = true <-> forall x, In x xs -> f x = false.
Proof.
  unfold count_nonzero. rewrite Nat.eqb_eq. induction xs as [|a rest IH]; cbn.
  - split; [intros _ x [] | reflexivity].
  - destruct (f a) eqn:Ea; cbn.
    + split; [discriminate|]. intros H. specialize (H a (or_introl eq_refl)). congruence.
    + rewrite IH. split.
      * intros H x [<- | Hin]; auto.
      * intros H x Hin. apply H. right. exact Hin.
Qed.

(** [min_gap_of]: the smallest magnitude among the non-penetrating
    samples when there is one, 0.0 otherwise. *)
Lemma min_gap_of_some signed :
  (exists s, In s signed /\ s <= 0) ->
  (exists s, In s signed /\ s <= 0 /\ min_gap_of signed = - s)
  /\ (forall s, In s signed -> s <= 0 -> min_gap_of signed <= - s).
Proof.
  intros (s0 & Hin0 & Hle0). unfold min_gap_of.
  destruct (min_list _) as [g|] eqn:E.
  - apply min_list_spec in E as [Hin Hmin]. split.
    + apply in_map_iff in Hin as (s & <- & Hs).
      apply filter_In in Hs as [Hs Hneg]. apply Qleb_le in Hneg.
      exists s. auto.
    + intros s Hs Hneg. apply Hmin. apply in_map.
      apply filter_In. split; [exact Hs | apply Qleb_le; exact Hneg].
  - apply min_list_none in E. apply map_eq_nil in E.
    assert (Hin : In s0 (List.filter (fun s => Qleb s 0) signed)).
    { apply filter_In. split; [exact Hin0 | apply Qleb_le; exact Hle0]. }
    rewrite E in Hin. destruct Hin.
Qed.



(** What the interference verdict of one placement says about its samples. *)
Definition interference_characterised (hull_mesh : Trimesh)
    (thresholds : VerificationThresholds) (samples : list point)
    (r : frame_check) : Prop :=
  (interference_pass r = true <->
     (forall p, In p samples ->
        signed_distance hull_mesh p <= frame_penetration_max_mm thresholds)
     /\ frame_min_gap_mm thresholds <= min_gap_mm r)
  /\ ((exists p, In p samples /\ signed_distance hull_mesh p <= 0) ->
      (exists p, In p samples /\ signed_distance hull_mesh p <= 0
                 /\ min_gap_mm r = - signed_distance hull_mesh p)
      /\ (forall p, In p samples -> signed_distance hull_mesh p <= 0 ->
            min_gap_mm r <= - signed_distance hull_mesh p)).

Lemma placement_interference hull_mesh frame_mesh spacing align thresholds x_sign r :
  analyze_frame_placement hull_mesh frame_mesh spacing align thresholds x_sign = Ok r ->
  placement_x_mm r = x_sign * spacing
  /\ interference_characterised hull_mesh thresholds
       (placement_samples frame_mesh (x_sign * spacing, 0.0, align)) r.
Proof.
  unfold analyze_frame_placement. intros H. bind_inv H. bind_inv H.
  injection H as <-. split; [reflexivity|].
  unfold interference_characterised.
  cbn [interference_pass min_gap_mm].
  set (samples := placement_samples frame_mesh (x_sign * spacing, 0.0, align)).
  split.
  - rewrite andb_true_iff, count_nonzero_zero, Qgeb_le.
    split; intros [Hpen Hgap]; (split; [|exact Hgap]).
    + intros p Hp. apply Qgtb_false_le. apply Hpen. apply in_map. exact Hp.
    + intros s Hs. apply in_map_iff in Hs as (p & <- & Hp).
      apply Qgtb_false_le. apply Hpen. exact Hp.
  - intros (p0 & Hp0 & Hneg0).
    destruct (min_gap_of_some (map (signed_distance hull_mesh) samples)) as [Hex Hmin].
    { exists (signed_distance hull_mesh p0). split; [apply in_map; exact Hp0 | exact Hneg0]. }
    split.
    + destruct Hex as (s & Hs & Hneg & Hgap).
      apply in_map_iff in Hs as (p & <- & Hp). eauto.
    + intros p Hp Hneg. apply Hmin; [apply in_map; exact Hp | exact Hneg].
Qed.

(** C3.  The frame analysis yields one result per mirrored placement
    (x = -spacing, then x = +spacing).  For each, with the samples being
    all frame vertices and face centres moved by the placement offset, the
    interference check passes exactly when no sample has a signed distance
    above the penetration tolerance and the reported minimum gap is at
    least the minimum gap threshold; and when some sample is
    non-penetrating (signed distance <= 0), the reported minimum gap is
    the least magnitude of signed distance among those samples. *)
Theorem C3_frame_interference_both_conditions
    (hull_mesh frame_mesh : Trimesh) (frame_spacing_mm frame_alignment_z_mm : Q)
    (thresholds : VerificationThresholds) (results : list frame_check)
    (Hrun : analyze_frame_fit hull_mesh frame_mesh frame_spacing_mm
              frame_alignment_z_mm thresholds = Ok results) :
  exists r1 r2,
    results = [r1; r2]
    /\ placement_x_mm r1 = -(1) * frame_spacing_mm
    /\ placement_x_mm r2 = 1 * frame_spacing_mm
    /\ interference_characterised hull_mesh thresholds
         (placement_samples frame_mesh
            (-(1) * frame_spacing_mm, 0.0, frame_alignment_z_mm)) r1
    /\ interference_characterised hull_mesh thresholds
         (placement_samples frame_mesh
            (1 * frame_spacing_mm, 0.0, frame_alignment_z_mm)) r2.
Proof.
  apply analyze_frame_fit_two in Hrun as (r1 & r2 & -> & H1 & H2).
  apply placement_interference in H1 as [Hx1 Hc1].
  apply placement_interference in H2 as [Hx2 Hc2].
  exists r1, r2. auto.
Qed.












Lemma filter_nil_all {A} (f : A -> bool) xs :
  (forall x, In x xs -> f x = false) -> List.filter f xs = [].
Proof.
  induction xs as [|a rest IH]; intros H; [reflexivity|]. cbn.
  rewrite (H a (or_introl eq_refl)). apply IH. intros x Hx. apply H. right. exact Hx.
Qed.

(** A contact point whose ray meets no hull surface below it adds no
    clearance sample. *)
Lemma floor_clearance_of_no_hit hull_mesh p :
  (forall h, In h (ray_hits hull_mesh (translate (0, 0, -(1e-4)) p) (0, 0, -(1))) ->
     ~ pz h < pz p) ->
  floor_clearance_of hull_mesh p = [].
Proof.
  intros Hnone. unfold floor_clearance_of, z_hits_below.
  rewrite filter_nil_all; [reflexivity|].
  intros z Hz. apply in_map_iff in Hz as (h & <- & Hh).
  apply Qltb_false_le. apply Qnot_lt_le. intros Hlt.
  apply (Hnone h Hh). eapply Qlt_trans; [exact Hlt|].
  rewrite <- (Qplus_0_r (pz p)) at 2. unfold Qminus.
  apply Qplus_lt_r. reflexivity.
Qed.

Lemma flat_map_nil {A B} (f : A -> list B) xs :
  (forall x, In x xs -> f x = []) -> flat_map f xs = [].
Proof.
  induction xs as [|a rest IH]; intros H; [reflexivity|]. cbn.
  rewrite (H a (or_introl eq_refl)). apply IH. intros x Hx. apply H. right. exact Hx.
Qed.

Lemma measure_floor_clearances_flat hull_mesh bottom_points :
  measure_floor_clearances hull_mesh bottom_points
  = flat_map (floor_clearance_of hull_mesh) bottom_points.
Proof. destruct bottom_points; reflexivity. Qed.

(** C10.  In the floor-clearance check of a placement, the samples are
    those of the contact points that have a hull hit below them: a contact
    point whose downward ray meets no hull surface strictly below it adds
    none.  When no contact point yields a sample, or there is no contact
    point, the minimum is reported as null and the placement's floor
    clearance check is false; a passing check always rests on a sample. *)
Theorem C10_floor_clearance_fails_closed (hull_mesh frame_mesh : Trimesh)
    (frame_spacing_mm frame_alignment_z_mm : Q)
    (thresholds : VerificationThresholds) (x_sign : Q) (r : frame_check)
    (Hrun : analyze_frame_placement hull_mesh frame_mesh frame_spacing_mm
              frame_alignment_z_mm thresholds x_sign = Ok r) :
  exists min_z bottom_points,
    frame_bottom_points
      (map (translate (x_sign * frame_spacing_mm, 0.0, frame_alignment_z_mm))
           (vertices frame_mesh))
      (frame_bottom_z_tolerance_mm thresholds) = Ok (min_z, bottom_points)
    /\ bottom_probe_count r = length bottom_points
    (* one sample per contact point that has a hit below it, none for the others *)
    /\ floor_clearance_samples_mm r
       = flat_map (floor_clearance_of hull_mesh) bottom_points
    /\ (forall p,
          (forall h, In h (ray_hits hull_mesh (translate (0, 0, -(1e-4)) p) (0, 0, -(1))) ->
             ~ pz h < pz p) ->
          floor_clearance_of hull_mesh p = [])
    (* no sample, or no contact point: null and fail *)
    /\ ((forall p, In p bottom_points -> floor_clearance_of hull_mesh p = []) ->
        floor_clearance_min_mm_obs r = None /\ floor_clearance_pass r = false)
    /\ (bottom_points = [] ->
        floor_clearance_min_mm_obs r = None /\ floor_clearance_pass r = false)
    /\ (floor_clearance_min_mm_obs r = None -> floor_clearance_pass r = false)
    /\ (floor_clearance_pass r = true ->
        exists m, floor_clearance_min_mm_obs r = Some m
                  /\ floor_clearance_min_mm thresholds <= m
                  /\ In m (floor_clearance_samples_mm r)).
Proof.
  unfold analyze_frame_placement in Hrun. bind_inv Hrun. bind_inv Hrun.
  destruct x0 as [min_z bottom_points]. injection Hrun as <-.
  exists min_z, bottom_points.
  cbn [bottom_probe_count floor_clearance_samples_mm floor_clearance_min_mm_obs
       floor_clearance_pass fst snd].
  rewrite measure_floor_clearances_flat.
  assert (Hnil : forall xs : list Q, xs = [] ->
            min_list xs = None
            /\ match min_list xs with
               | Some m => Qgeb m (floor_clearance_min_mm thresholds)
               | None => false
               end = false).
  { intros xs ->. split; reflexivity. }
  repeat split.
  - exact Hx0.
  - apply floor_clearance_of_no_hit.
  - apply Hnil. apply flat_map_nil. assumption.
  - apply Hnil. apply flat_map_nil. assumption.
  - apply Hnil. subst. reflexivity.
  - apply Hnil. subst. reflexivity.
  - intros ->. reflexivity.
  - destruct (min_list _) as [m|] eqn:E; [|discriminate].
    intros Hpass. exists m. repeat split.
    + apply Qgeb_le. exact Hpass.
    + apply min_list_spec in E as [Hin _]. exact Hin.
Qed.

End Fit.

(** ** Properties of validate_full.py *)

Import Py ValidateFull.

Section Validation.
Context {World : Type} {host : Host World} {provider : GeometryProvider}.



(** A recorded scenario whose [required_gate_pass] is the conjunction of
    the three required gates of its own [gates] dict. *)
Definition gate_consistent (sc : scenario) : Prop :=
  sc_required_gate_pass sc = required_gate_triple (sc_gates sc).

Lemma summary_gate_consistent name report_path report record sc :
  reference_fit_scenario_summary name report_path report record = Ok sc ->
  gate_consistent sc.
Proof.
  unfold reference_fit_scenario_summary. intros H. bind_inv H as m Hm.
  injection H as <-. reflexivity.
Qed.

Lemma unreached_gate_consistent name report_path command overrides :
  gate_consistent (unreached_scenario name report_path command overrides).
Proof. reflexivity. Qed.

Lemma add_scenario_consistent (st : @sweep_state World) sc :
  Forall gate_consistent (st_scenarios st) -> gate_consistent sc ->
  Forall gate_consistent (st_scenarios (add_scenario st sc)).
Proof.
  intros Hst Hsc. cbn. apply Forall_app. split; [exact Hst | constructor; auto].
Qed.

Lemma perturbation_step_consistent env preset base_preset (st : @sweep_state World) p st' :
  Forall gate_consistent (st_scenarios st) ->
  perturbation_step env preset base_preset st p = Ok st' ->
  Forall gate_consistent (st_scenarios st').
Proof.
  intros Hst. unfold perturbation_step. destruct p as [perturb_name overrides].
  destruct (env_openscad_bin env) as [bin|];
    [destruct (env_base_frame_stl env) as [f|];
     [destruct (env_base_slot_plug_stl env) as [sp|]|]|];
    try (intros [= <-]; apply add_scenario_consistent;
         [exact Hst | apply unreached_gate_consistent]).
  intros H. bind_inv H as ew Hew. destruct ew as [export_record w1].
  cbn [fst snd] in H.
  destruct (negb (cmd_pass export_record)).
  - injection H as <-. apply add_scenario_consistent;
      [exact Hst | apply unreached_gate_consistent].
  - destruct (run_reference_fit_command _ _ _ _ _ _ _) as [[record report] w2].
    bind_inv H as sc Hsc. injection H as <-.
    apply add_scenario_consistent; [exact Hst|].
    apply summary_gate_consistent in Hsc. exact Hsc.
Qed.

Lemma perturbation_loop_consistent env preset base_preset perturbations :
  forall (st : @sweep_state World) st',
  Forall gate_consistent (st_scenarios st) ->
  perturbation_loop env preset base_preset perturbations st = Ok st' ->
  Forall gate_consistent (st_scenarios st').
Proof.
  induction perturbations as [|p rest IH]; intros st st' Hst H; cbn in H.
  - injection H as <-. exact Hst.
  - bind_inv H as st1 Hst1. eapply IH; [|exact H].
    eapply perturbation_step_consistent; eauto.
Qed.

Lemma preset_step_consistent env perturbations (st : @sweep_state World) preset st' :
  Forall gate_consistent (st_scenarios st) ->
  preset_step env perturbations st preset = Ok st' ->
  Forall gate_consistent (st_scenarios st').
Proof.
  intros Hst. unfold preset_step.
  destruct (negb (path_exists _ _)); [intros [= <-]; exact Hst|].
  intros H. bind_inv H as step Hstep.
  destruct step as [[[st2 record] report] export_record].
  bind_inv H as sc Hsc.
  assert (Hst2 : Forall gate_consistent (st_scenarios st2)).
  { destruct (env_openscad_bin env) as [bin|];
      [destruct (env_base_frame_stl env) as [f|];
       [destruct (env_base_slot_plug_stl env) as [sp|]|]|].
    2-4: destruct (run_reference_fit_command _ _ _ _ _ _ _) as [[rec rep] w1];
         injection Hstep as <- _ _ _; exact Hst.
    bind_inv Hstep as ew Hew. destruct ew as [er w1]. cbn [fst snd] in Hstep.
    destruct (cmd_pass er).
    - destruct (run_reference_fit_command _ _ _ _ _ _ _) as [[rec rep] w2].
      injection Hstep as <- _ _ _. exact Hst.
    - injection Hstep as <- _ _ _. exact Hst. }
  eapply perturbation_loop_consistent; [|exact H].
  assert (Hadd : forall sc', gate_consistent sc' ->
            Forall gate_consistent (st_scenarios (add_scenario st2 sc'))).
  { intros sc' Hsc'. apply add_scenario_consistent; assumption. }
  apply summary_gate_consistent in Hsc.
  destruct report; cbn [set_baseline_report st_scenarios]; apply Hadd; exact Hsc.
Qed.

Lemma preset_loop_consistent env perturbations presets :
  forall (st : @sweep_state World) st',
  Forall gate_consistent (st_scenarios st) ->
  preset_loop env perturbations presets st = Ok st' ->
  Forall gate_consistent (st_scenarios st').
Proof.
  induction presets as [|p rest IH]; intros st st' Hst H; cbn in H.
  - injection H as <-. exact Hst.
  - bind_inv H as st1 Hst1. eapply IH; [|exact H].
    eapply preset_step_consistent; eauto.
Qed.

(** C6.  Whenever the robustness sweep returns, its overall [pass] is
    true exactly when the recorded scenario list is non-empty, the three
    required gates (slot_insertion_corridor, frame_interference,
    frame_floor_clearance) of every recorded scenario are true, and the
    sweep recorded no error. *)
Theorem C6_sweep_pass_iff_scenarios_gates_no_errors
    (w : World) (args : sweep_args) (project_root reports_dir : string)
    (openscad_bin : option string)
    (baseline_reference_report : option (odict json))
    (profile : sweep_profile) (result : sweep_result) (w' : World)
    (Hrun : robustness_sweep w args project_root reports_dir openscad_bin
              baseline_reference_report profile = Ok (result, w')) :
  sw_pass result = true <->
    sw_scenarios result <> []
    /\ (forall sc, In sc (sw_scenarios result) ->
          truthy_get (sc_gates sc) "slot_insertion_corridor" = true
          /\ truthy_get (sc_gates sc) "frame_interference" = true
          /\ truthy_get (sc_gates sc) "frame_floor_clearance" = true)
    /\ sw_errors result = [].
Proof.
  unfold robustness_sweep in Hrun. bind_inv Hrun as static Hstatic.
  destruct static as [[[w1 errors] records] exported].
  destruct (fallback_static_meshes _ _ _) as [base_frame base_plug].
  bind_inv Hrun as x0 Hx0. injection Hrun as <- _.
  cbn [sw_pass sw_scenarios sw_errors].
  apply preset_loop_consistent in Hx0; [|constructor].
  rewrite !andb_true_iff, forallb_forall.
  rewrite List.Forall_forall in Hx0.
  split.
  - intros [[Hne Hall] Herr]. split; [|split].
    + destruct (st_scenarios x0); [discriminate | discriminate].
    + intros sc Hsc. specialize (Hall sc Hsc). rewrite (Hx0 sc Hsc) in Hall.
      unfold required_gate_triple in Hall. rewrite !andb_true_iff in Hall. tauto.
    + destruct (st_errors x0); [reflexivity | discriminate].
  - intros (Hne & Hall & Herr). split; [split|].
    + destruct (st_scenarios x0); [contradiction | reflexivity].
    + intros sc Hsc. rewrite (Hx0 sc Hsc). unfold required_gate_triple.
      destruct (Hall sc Hsc) as (-> & -> & ->). reflexivity.
    + rewrite Herr. reflexivity.
Qed.




(** The two shapes of a manufacturability result: an early failure, or
    the five gates with their conjunction. *)
Lemma manufacturability_result_shape w args project_root report r :
  manufacturability_validation w args project_root report = Ok r ->
  (exists msg, r = manufacturability_failure msg)
  \/ (exists wall probes recess overhang footprint,
        man_error r = None
        /\ man_gates r =
             [ ("minimum_wall_thickness", wall);
               ("sampled_local_wall_thickness", probes);
               ("recess_skin_thickness", recess);
               ("overhang_risk", overhang);
               ("stable_contact_footprint", footprint) ]
        /\ man_pass r = (wall && (probes && (recess && (overhang && (footprint && true)))))%bool).
Proof.
  unfold manufacturability_validation. intros H.
  destruct report as [report|]; [|injection H as <-; eauto].
  destruct (as_dict _) as [inputs|]; [|injection H as <-; eauto].
  destruct (negb (path_exists _ _)); [injection H as <-; eauto|].
  destruct (od_get inputs "hull_stl") as [[| | |hull_path| |]|];
    try (injection H as <-; eauto; fail).
  destruct (load_mesh w hull_path) as [hull_mesh|e]; [|injection H as <-; eauto].
  bind_inv H as probes Hprobes. bind_inv H as z_min Hz.
  injection H as <-. right. do 5 eexists. cbn [man_error man_gates man_pass].
  split; [reflexivity|split; reflexivity].
Qed.

(** C7, amended.  Whenever the manufacturability validation returns, its
    overall [pass] is true exactly when five gates are true: the four
    named ones (minimum wall thickness, sampled local wall thickness,
    overhang risk, stable contact footprint) and the recess skin
    thickness.  A run that reached the gates reports exactly these five;
    a run that stopped on an error reports no gate and fails. *)
Theorem C7_manufacturability_pass_iff_five_gates
    (w : World) (args : manufacturability_args) (project_root : string)
    (baseline_reference_report : option (odict json))
    (r : manufacturability_result)
    (Hrun : manufacturability_validation w args project_root
              baseline_reference_report = Ok r) :
  (man_pass r = true <->
     od_get (man_gates r) "minimum_wall_thickness" = Some true
     /\ od_get (man_gates r) "sampled_local_wall_thickness" = Some true
     /\ od_get (man_gates r) "recess_skin_thickness" = Some true
     /\ od_get (man_gates r) "overhang_risk" = Some true
     /\ od_get (man_gates r) "stable_contact_footprint" = Some true)
  /\ (man_error r = None ->
      map fst (man_gates r) =
        [ "minimum_wall_thickness"; "sampled_local_wall_thickness";
          "recess_skin_thickness"; "overhang_risk"; "stable_contact_footprint" ])
  /\ (man_error r <> None -> man_pass r = false /\ man_gates r = []).
Proof.
  apply manufacturability_result_shape in Hrun
    as [[msg ->] | (b1 & b2 & b3 & b4 & b5 & Herr & Hgates & Hpass)].
  - cbn. repeat split; try discriminate. intros (H & _). discriminate.
  - rewrite Hgates, Hpass, Herr. cbn. repeat split; try congruence.
    + destruct b1; [reflexivity | discriminate].
    + destruct b1, b2; try discriminate; reflexivity.
    + destruct b1, b2, b3; try discriminate; reflexivity.
    + destruct b1, b2, b3, b4; try discriminate; reflexivity.
    + destruct b1, b2, b3, b4, b5; try discriminate; reflexivity.
    + intros (H1 & H2 & H3 & H4 & H5).
      injection H1 as ->. injection H2 as ->. injection H3 as ->.
      injection H4 as ->. injection H5 as ->. reflexivity.
Qed.







End Validation.

(** *** Angle sampling *)

Lemma Qltb_comp a a' b b' : a == a' -> b == b' -> Qltb a b = Qltb a' b'.
Proof. intros Ha Hb. unfold Qltb. rewrite Ha, Hb. reflexivity. Qed.

Lemma Qgtb_comp a a' b b' : a == a' -> b == b' -> Qgtb a b = Qgtb a' b'.
Proof. intros Ha Hb. unfold Qgtb. rewrite Ha, Hb. reflexivity. Qed.

Lemma round_half_even_comp x y : x == y -> round_half_even x = round_half_even y.
Proof.
  intros H. unfold round_half_even.
  rewrite (Qfloor_comp _ _ H).
  assert (Hr : x - inject_Z (Qfloor y) == y - inject_Z (Qfloor y)) by (rewrite H; reflexivity).
  rewrite (Qltb_comp _ _ _ _ Hr (Qeq_refl _)), (Qgtb_comp _ _ _ _ Hr (Qeq_refl _)).
  reflexivity.
Qed.

(** Rounding to six decimals sends equal numbers to the same fraction. *)
Lemma round6_comp x y : x == y -> round6 x = round6 y.
Proof.
  intros H. unfold round6. f_equal. apply round_half_even_comp.
  rewrite H. reflexivity.
Qed.

Lemma angle_grid_in min_deg step_deg count i :
  (i < Z.to_nat count)%nat ->
  In (min_deg + step_deg * inject_Z (Z.of_nat i)) (angle_grid min_deg step_deg count).
Proof.
  intros Hi. unfold angle_grid.
  apply (in_map (fun i => min_deg + step_deg * inject_Z (Z.of_nat i))).
  apply in_seq. lia.
Qed.

Lemma angle_grid_inv min_deg step_deg count a :
  In a (angle_grid min_deg step_deg count) ->
  exists i, (i < Z.to_nat count)%nat /\ a = min_deg + step_deg * inject_Z (Z.of_nat i).
Proof.
  unfold angle_grid. intros H. apply in_map_iff in H as (i & <- & Hi).
  apply in_seq in Hi. exists i. split; [lia | reflexivity].
Qed.

(** For a positive step and an ordered range the samples are the rounded
    grid, followed by the rounded upper bound when the grid stops short. *)
Lemma sampled_angles_ordered min_deg max_deg step_deg :
  0 < step_deg -> min_deg <= max_deg ->
  exists tail,
    (tail = [] \/ tail = [max_deg])
    /\ sampled_angles min_deg max_deg step_deg
       = map round6
           (angle_grid min_deg step_deg
              (Qfloor ((max_deg - min_deg) / step_deg) + 1) ++ tail).
Proof.
  intros Hstep Hle. unfold sampled_angles.
  assert (E1 : Qleb step_deg 0 = false).
  { destruct (Qleb step_deg 0) eqn:E; [|reflexivity].
    apply Qleb_le in E. exfalso. exact (Qlt_not_le _ _ Hstep E). }
  assert (E2 : Qltb max_deg min_deg = false) by (apply Qltb_false_le; exact Hle).
  rewrite E1, E2.
  destruct (angle_grid _ _ _) as [|a rest] eqn:Eg.
  - exists [max_deg]. split; [auto | reflexivity].
  - destruct (Qltb (List.last _ _) _).
    + exists [max_deg]. split; [auto | reflexivity].
    + exists []. rewrite app_nil_r. split; [auto | reflexivity].
Qed.

(** A grid index of the coarse run is a grid index of the fine run over the
    wider range: the coarse grid starts [j] fine steps above the lower
    bound of the fine grid and advances [k] fine steps at a time. *)
Lemma grid_index_aligned (min_a max_a min_b max_b step_b : Q) (k : positive) (j i : nat) :
  0 < step_b ->
  min_a == min_b + step_b * inject_Z (Z.of_nat j) ->
  min_a <= max_a -> max_a <= max_b ->
  (i < Z.to_nat (Qfloor ((max_a - min_a) / (inject_Z (Zpos k) * step_b)) + 1))%nat ->
  (j + Pos.to_nat k * i < Z.to_nat (Qfloor ((max_b - min_b) / step_b) + 1))%nat.
Proof.
  intros Hstep Halign Hlo Hhi Hi.
  set (step_a := inject_Z (Zpos k) * step_b) in *.
  assert (Hk : 0 < inject_Z (Zpos k)) by (unfold Qlt; cbn; lia).
  assert (Hstep_a : 0 < step_a).
  { unfold step_a. rewrite <- (Qmult_0_l step_b). apply Qmult_lt_compat_r; assumption. }
  assert (Hqa : inject_Z (Z.of_nat i) <= (max_a - min_a) / step_a).
  { eapply Qle_trans; [|apply Qfloor_le].
    rewrite <- Zle_Qle.
    assert (0 <= Qfloor ((max_a - min_a) / step_a) + 1)%Z by lia. lia. }
  assert (Hmul : inject_Z (Z.of_nat i) * step_a <= max_a - min_a).
  { apply (Qmult_le_r _ _ (/ step_a)); [apply Qinv_lt_0_compat; exact Hstep_a|].
    rewrite <- Qmult_assoc, Qmult_inv_r, Qmult_1_r; [exact Hqa|].
    intros E. rewrite E in Hstep_a. exact (Qlt_irrefl _ Hstep_a). }
  assert (Hfine : inject_Z (Z.of_nat (j + Pos.to_nat k * i)) <= (max_b - min_b) / step_b).
  { apply Qle_shift_div_l; [exact Hstep|].
    assert (E : inject_Z (Z.of_nat (j + Pos.to_nat k * i)) * step_b
                == inject_Z (Z.of_nat i) * step_a + (min_a - min_b)).
    { unfold step_a. rewrite Halign.
      rewrite Nat2Z.inj_add, Nat2Z.inj_mul, positive_nat_Z, inject_Z_plus, inject_Z_mult.
      ring. }
    rewrite E.
    assert (E2 : max_b - min_b == (max_b - min_a) + (min_a - min_b)) by ring.
    rewrite E2. apply Qplus_le_compat; [|apply Qle_refl].
    eapply Qle_trans; [exact Hmul|].
    unfold Qminus. apply Qplus_le_compat; [exact Hhi | apply Qle_refl]. }
  apply Qfloor_resp_le in Hfine. rewrite Qfloor_Z in Hfine. lia.
Qed.

(** A bound that lies on the grid of a run, within its range, is one of
    the grid angles. *)
Lemma on_grid_index (min_b max_b step_b x : Q) (m : nat) :
  0 < step_b -> x <= max_b ->
  x == min_b + step_b * inject_Z (Z.of_nat m) ->
  (m < Z.to_nat (Qfloor ((max_b - min_b) / step_b) + 1))%nat.
Proof.
  intros Hstep Hx E.
  assert (Hfine : inject_Z (Z.of_nat m) <= (max_b - min_b) / step_b).
  { apply Qle_shift_div_l; [exact Hstep|].
    assert (E2 : inject_Z (Z.of_nat m) * step_b == x - min_b) by (rewrite E; ring).
    rewrite E2. unfold Qminus. apply Qplus_le_compat; [exact Hx | apply Qle_refl]. }
  apply Qfloor_resp_le in Hfine. rewrite Qfloor_Z in Hfine. lia.
Qed.

(** [x] lies on the grid that starts at [min_deg] with step [step_deg]. *)
Definition on_grid (min_deg step_deg x : Q) : Prop :=
  exists m : nat, x == min_deg + step_deg * inject_Z (Z.of_nat m).

Lemma on_grid_dec (min_deg step_deg x : Q) :
  0 < step_deg -> min_deg <= x ->
  on_grid min_deg step_deg x \/ ~ on_grid min_deg step_deg x.
Proof.
  intros Hstep Hle.
  set (q := (x - min_deg) / step_deg).
  assert (Hne : ~ step_deg == 0).
  { intros E. rewrite E in Hstep. exact (Qlt_irrefl _ Hstep). }
  assert (Hq : 0 <= q).
  { unfold q. apply Qle_shift_div_l; [exact Hstep|].
    rewrite Qmult_0_l. unfold Qminus. rewrite <- Qle_minus_iff. exact Hle. }
  destruct (Qeq_dec (inject_Z (Qfloor q)) q) as [E | N].
  - left. exists (Z.to_nat (Qfloor q)).
    assert (0 <= Qfloor q)%Z.
    { apply Qfloor_resp_le in Hq. exact Hq. }
    rewrite Z2Nat.id by assumption. rewrite E. unfold q. field. exact Hne.
  - right. intros [m E]. apply N.
    assert (Eq : q == inject_Z (Z.of_nat m)).
    { unfold q. rewrite E. field. exact Hne. }
    rewrite (Qfloor_comp _ _ Eq), Qfloor_Z. symmetry. exact Eq.
Qed.

(** Numeric membership in a list of samples. *)
Definition sampled (a : Q) (angles : list Q) : Prop :=
  exists b, In b angles /\ a == b.

(** C8, amended.  For two ordered runs where range B contains range A, the
    step of A is a positive integer multiple of the positive step of B and
    the lower bound of A lies on the grid of B, every angle sampled under
    A is sampled under B, except possibly the upper bound of A when it
    lies off the grid of B. *)
Theorem C8_sampling_refines_on_aligned_grids
    (min_a max_a min_b max_b step_b : Q) (k : positive) (j : nat)
    (Hstep : 0 < step_b)
    (Halign : min_a == min_b + step_b * inject_Z (Z.of_nat j))
    (Hmin : min_a <= max_a) (Hmax : max_a <= max_b) :
  forall a,
    In a (sampled_angles min_a max_a (inject_Z (Zpos k) * step_b)) ->
    In a (sampled_angles min_b max_b step_b)
    \/ (a = round6 max_a /\ ~ on_grid min_b step_b max_a).
Proof.
  intros a Ha.
  assert (Hk : 0 < inject_Z (Zpos k)) by (unfold Qlt; cbn; lia).
  assert (Hstep_a : 0 < inject_Z (Zpos k) * step_b).
  { rewrite <- (Qmult_0_l step_b). apply Qmult_lt_compat_r; assumption. }
  assert (Hba : min_b <= min_a).
  { rewrite Halign. rewrite <- (Qplus_0_r min_b) at 1.
    apply Qplus_le_compat; [apply Qle_refl|].
    apply Qmult_le_0_compat; [apply Qlt_le_weak; exact Hstep|].
    rewrite <- (Zle_Qle 0). lia. }
  assert (Hb : min_b <= max_b).
  { eapply Qle_trans; [exact Hba|]. eapply Qle_trans; eassumption. }
  destruct (sampled_angles_ordered min_a max_a _ Hstep_a Hmin) as (tail_a & Htail_a & Ea).
  destruct (sampled_angles_ordered min_b max_b _ Hstep Hb) as (tail_b & _ & Eb).
  rewrite Ea in Ha. rewrite Eb.
  apply in_map_iff in Ha as (v & <- & Hv). apply in_app_or in Hv as [Hgrid | Htail].
  - left. apply angle_grid_inv in Hgrid as (i & Hi & ->).
    apply (grid_index_aligned min_a max_a min_b max_b step_b k j i Hstep Halign Hmin Hmax)
      in Hi.
    apply in_map_iff.
    exists (min_b + step_b * inject_Z (Z.of_nat (j + Pos.to_nat k * i))). split.
    + apply round6_comp. rewrite Halign.
      rewrite Nat2Z.inj_add, Nat2Z.inj_mul, positive_nat_Z, inject_Z_plus, inject_Z_mult.
      ring.
    + apply in_or_app. left. apply angle_grid_in. exact Hi.
  - destruct Htail_a as [-> | ->]; [destruct Htail|].
    destruct Htail as [<- | []].
    destruct (on_grid_dec min_b step_b max_a Hstep (Qle_trans _ _ _ Hba Hmin))
      as [[m Em] | Hoff].
    + left. apply in_map_iff.
      exists (min_b + step_b * inject_Z (Z.of_nat m)). split.
      * apply round6_comp. symmetry. exact Em.
      * apply in_or_app. left. apply angle_grid_in.
        exact (on_grid_index min_b max_b step_b max_a m Hstep Hmax Em).
    + right. split; [reflexivity | exact Hoff].
Qed.

(** ** Further properties of verify_reference_fit.py *)

Import Resolver.

(** *** Ordered dicts *)

Lemma od_get_set_eq {V} (d : odict V) k v : od_get (od_set d k v) k = Some v.
Proof.
  induction d as [|[k' w] rest IH]; cbn.
  - rewrite String.eqb_refl. reflexivity.
  - destruct (String.eqb k' k) eqn:E; cbn; rewrite E; [reflexivity | exact IH].
Qed.

Lemma od_get_set_ne {V} (d : odict V) k k' v :
  k <> k' -> od_get (od_set d k v) k' = od_get d k'.
Proof.
  intros Hne. induction d as [|[k0 w] rest IH]; cbn.
  - destruct (String.eqb_spec k k'); [contradiction | reflexivity].
  - destruct (String.eqb_spec k0 k) as [->|Hk]; cbn.
    + destruct (String.eqb_spec k k'); [contradiction | reflexivity].
    + rewrite IH. reflexivity.
Qed.

Lemma od_set_keys {V} (d : odict V) k v k' :
  In k' (map fst (od_set d k v)) <-> k' = k \/ In k' (map fst d).
Proof.
  induction d as [|[k0 w] rest IH]; cbn.
  - split; [intros [<- | []]; auto | intros [-> | []]; auto].
  - destruct (String.eqb_spec k0 k) as [->|Hk]; cbn.
    + split; [intros [<- | H]; auto | intros [-> | [<- | H]]; auto].
    + rewrite IH. split; [intros [<- | [-> | H]]; auto | intros [-> | [<- | H]]; auto].
Qed.

Lemma od_set_nodup {V} (d : odict V) k v :
  List.NoDup (map fst d) -> List.NoDup (map fst (od_set d k v)).
Proof.
  induction d as [|[k0 w] rest IH]; cbn; intros Hd.
  - constructor; [intros [] | constructor].
  - apply List.NoDup_cons_iff in Hd as [Hnin Hrest].
    destruct (String.eqb_spec k0 k) as [->|Hk]; cbn.
    + constructor; assumption.
    + constructor; [|apply IH; exact Hrest].
      rewrite od_set_keys. intros [-> | Hin]; [congruence | contradiction].
Qed.

Lemma od_get_in {V} (d : odict V) k v : od_get d k = Some v -> In (k, v) d.
Proof.
  induction d as [|[k0 w] rest IH]; cbn; [discriminate|].
  destruct (String.eqb_spec k0 k) as [->|Hk].
  - intros [= ->]. left. reflexivity.
  - intros H. right. apply IH, H.
Qed.

Lemma od_in_get {V} (d : odict V) k v :
  List.NoDup (map fst d) -> In (k, v) d -> od_get d k = Some v.
Proof.
  induction d as [|[k0 w] rest IH]; cbn; intros Hd Hin; [destruct Hin|].
  apply List.NoDup_cons_iff in Hd as [Hnin Hrest].
  destruct Hin as [[= -> ->] | Hin].
  - rewrite String.eqb_refl. reflexivity.
  - destruct (String.eqb_spec k0 k) as [->|Hk].
    + exfalso. apply Hnin. apply (in_map fst) in Hin. exact Hin.
    + apply IH; assumption.
Qed.

Lemma od_get_none_keys {V} (d : odict V) k :
  od_get d k = None <-> ~ In k (map fst d).
Proof.
  induction d as [|[k0 w] rest IH]; cbn.
  - tauto.
  - destruct (String.eqb_spec k0 k) as [->|Hk].
    + split; [discriminate | intros H; exfalso; apply H; left; reflexivity].
    + rewrite IH. intuition congruence.
Qed.

(** *** Expressions *)

(** The names an expression mentions. *)
Fixpoint names (node : expr) : list string :=
  match node with
  | EName id => [id]
  | EBinOp _ l r => names l ++ names r
  | EUnaryOp _ e => names e
  | EConstant _ | EOther => []
  end.

Lemma walk_mono (c c' : gmap string Q) node v :
  c ⊆ c' -> walk c node = Ok v -> walk c' node = Ok v.
Proof.
  intros Hsub. revert v.
  induction node as [q|id|op l IHl r IHr|op e IHe|]; cbn; intros v H.
  - exact H.
  - destruct (c !! id) as [x|] eqn:E; [|discriminate].
    rewrite (lookup_weaken _ _ _ _ E Hsub). exact H.
  - destruct op; try discriminate;
      (bind_inv H as a Ha; bind_inv H as b Hb;
       rewrite (IHl _ Ha), (IHr _ Hb); exact H).
  - destruct op; try discriminate;
      (bind_inv H as a Ha; rewrite (IHe _ Ha); exact H).
  - exact H.
Qed.

Lemma walk_names (c : gmap string Q) node v :
  walk c node = Ok v -> forall id, In id (names node) -> is_Some (c !! id).
Proof.
  revert v.
  induction node as [q|id|op l IHl r IHr|op e IHe|]; cbn; intros v H x Hx.
  - destruct Hx.
  - destruct Hx as [<- | []]. destruct (c !! id); [eauto | discriminate].
  - destruct op; try discriminate;
      (bind_inv H as a Ha; bind_inv H as b Hb;
       apply in_app_or in Hx as [Hx | Hx]; [eapply IHl | eapply IHr]; eauto).
  - destruct op; try discriminate; (bind_inv H as a Ha; eapply IHe; eauto).
  - destruct Hx.
Qed.

(** *** The resolution of reference constants *)

Section ResolverFacts.
Variable ast_parse : string -> option expr.
Variable assignment_match : string -> option (string * string).

Lemma eval_expression_mono (c c' : gmap string Q) text v :
  c ⊆ c' -> eval_expression ast_parse c text = Ok v ->
  eval_expression ast_parse c' text = Ok v.
Proof.
  unfold eval_expression. intros Hsub H.
  destruct (ast_parse text) as [e|]; [|discriminate].
  cbn in *. eapply walk_mono; eauto.
Qed.

(** Every resolved name is defined by an expression that evaluates, in
    the constants resolved so far, to the recorded value. *)
Definition consistent (all : odict string) (c : gmap string Q) : Prop :=
  forall n v, c !! n = Some v ->
    exists t, In (n, t) all /\ eval_expression ast_parse c t = Ok v.

Lemma consistent_insert all (c : gmap string Q) n t v :
  consistent all c -> c !! n = None -> In (n, t) all ->
  eval_expression ast_parse c t = Ok v ->
  consistent all (<[n := v]> c).
Proof.
  intros Hc Hn Hin Hev n0 v0 Hlook.
  assert (Hsub : c ⊆ <[n := v]> c) by (apply insert_subseteq; exact Hn).
  destruct (decide (n = n0)) as [<-|Hne].
  - rewrite lookup_insert_eq in Hlook. injection Hlook as <-.
    exists t. split; [exact Hin | eapply eval_expression_mono; eauto].
  - rewrite lookup_insert_ne in Hlook by exact Hne.
    destruct (Hc n0 v0 Hlook) as (t0 & Hin0 & Hev0).
    exists t0. split; [exact Hin0 | eapply eval_expression_mono; eauto].
Qed.

Lemma resolve_pass_inv all entries :
  forall (c : gmap string Q) remaining p c' rem' p',
  List.NoDup (map fst (remaining ++ entries)) ->
  (forall n t, In (n, t) (remaining ++ entries) -> In (n, t) all /\ c !! n = None) ->
  consistent all c ->
  resolve_pass ast_parse entries c remaining p = Ok (c', rem', p') ->
  List.NoDup (map fst rem')
  /\ (forall n t, In (n, t) rem' -> In (n, t) all /\ c' !! n = None)
  /\ consistent all c'
  /\ (forall n t, In (n, t) (remaining ++ entries) ->
        In (n, t) rem' \/ is_Some (c' !! n))
  /\ (forall n, is_Some (c !! n) -> is_Some (c' !! n))
  /\ (length rem' <= length remaining + length entries)%nat
  /\ (p' = true ->
      p = true \/ (length rem' < length remaining + length entries)%nat).
Proof.
  induction entries as [|[n t] rest IH]; intros c remaining p c' rem' p' Hnd Hun Hc H.
  - cbn in H. injection H as <- <- <-. rewrite app_nil_r in *.
    split; [exact Hnd|]. split; [exact Hun|]. split; [exact Hc|].
    split; [intros n t Hin; left; exact Hin|]. split; [auto|].
    split; [cbn; lia | intros Hp; left; exact Hp].
  - cbn [resolve_pass] in H.
    assert (Hn : In (n, t) all /\ c !! n = None).
    { apply Hun. apply in_or_app. right. left. reflexivity. }
    destruct Hn as [Hin_all Hn].
    destruct (eval_expression ast_parse c t) as [v|e] eqn:Ev.
    + (* resolved *)
      assert (Hnd' : List.NoDup (map fst (remaining ++ rest))).
      { rewrite map_app in *. cbn in Hnd. eapply List.NoDup_remove_1; exact Hnd. }
      assert (Hfresh : ~ In n (map fst (remaining ++ rest))).
      { rewrite map_app in *. cbn in Hnd. eapply List.NoDup_remove_2; exact Hnd. }
      destruct (IH (<[n := v]> c) remaining true c' rem' p' Hnd') as
        (R1 & R2 & R3 & R4 & R5 & R6 & R7); [| |exact H|].
      * intros n0 t0 Hin0.
        assert (Hin0' : In (n0, t0) (remaining ++ (n, t) :: rest)).
        { apply in_app_or in Hin0 as [|]; apply in_or_app; [left | right; right]; assumption. }
        destruct (Hun n0 t0 Hin0') as [Ha Hb]. split; [exact Ha|].
        rewrite lookup_insert_ne; [exact Hb|].
        intros <-. apply Hfresh. apply (in_map fst) in Hin0. exact Hin0.
      * eapply consistent_insert; eauto.
      * split; [exact R1|]. split; [exact R2|]. split; [exact R3|].
        split; [|split; [|split]].
        -- intros n0 t0 Hin0. apply in_app_or in Hin0 as [Hin0 | [[= <- <-] | Hin0]].
           ++ apply R4. apply in_or_app. left. exact Hin0.
           ++ right. apply R5. rewrite lookup_insert_eq. eauto.
           ++ apply R4. apply in_or_app. right. exact Hin0.
        -- intros n0 Hsome. apply R5.
           destruct (decide (n = n0)) as [<-|Hne].
           ++ rewrite lookup_insert_eq. eauto.
           ++ rewrite lookup_insert_ne by exact Hne. exact Hsome.
        -- cbn. lia.
        -- intros _. right. cbn. lia.
    + (* an exception *)
      destruct e; try discriminate.
      assert (Eapp : (remaining ++ [(n, t)]) ++ rest = remaining ++ (n, t) :: rest).
      { rewrite <- app_assoc. reflexivity. }
      destruct (IH c (remaining ++ [(n, t)]) p c' rem' p') as
        (R1 & R2 & R3 & R4 & R5 & R6 & R7); [| | exact Hc | exact H |].
      * rewrite Eapp. exact Hnd.
      * rewrite Eapp. exact Hun.
      * rewrite Eapp in R4. rewrite length_app in R6, R7. cbn in *.
        split; [exact R1|]. split; [exact R2|]. split; [exact R3|].
        split; [exact R4|]. split; [exact R5|]. split; [lia|].
        intros Hp. destruct (R7 Hp); [left; assumption | right; lia].
Qed.

(** With one unit of fuel per unresolved expression the loop never runs
    out of fuel, and a map it returns resolves every expression. *)
Lemma resolve_loop_inv all fuel :
  forall unresolved (c : gmap string Q),
  (length unresolved <= fuel)%nat ->
  List.NoDup (map fst unresolved) ->
  (forall n t, In (n, t) unresolved -> In (n, t) all /\ c !! n = None) ->
  consistent all c ->
  (forall n t, In (n, t) all -> In (n, t) unresolved \/ is_Some (c !! n)) ->
  exists r,
    resolve_loop ast_parse fuel unresolved c = Some r
    /\ forall c', r = Ok c' ->
         consistent all c' /\ forall n t, In (n, t) all -> is_Some (c' !! n).
Proof.
  induction fuel as [|fuel IH]; intros unresolved c Hlen Hnd Hun Hc Hcov.
  - destruct unresolved; [|cbn in Hlen; lia]. cbn. eexists. split; [reflexivity|].
    intros c' [= <-]. split; [exact Hc|].
    intros n t Hin. destruct (Hcov n t Hin) as [[] | H]. exact H.
  - destruct unresolved as [|entry rest] eqn:Eu.
    { cbn. eexists. split; [reflexivity|].
      intros c' [= <-]. split; [exact Hc|].
      intros n t Hin. destruct (Hcov n t Hin) as [[] | H]. exact H. }
    rewrite <- Eu in *. clear Eu.
    assert (Hstep : resolve_loop ast_parse (S fuel) unresolved c =
              match unresolved with
              | [] => Some (Ok c)
              | _ :: _ =>
                  match resolve_pass ast_parse unresolved c [] false with
                  | Err e => Some (Err e)
                  | Ok (c1, remaining, progressed) =>
                      if progressed then resolve_loop ast_parse fuel remaining c1
                      else Some (Err ValueError)
                  end
              end) by (destruct unresolved; reflexivity).
    rewrite Hstep. clear Hstep.
    destruct unresolved as [|e0 u0] eqn:Eu; [eexists; split; [reflexivity|]|].
    { intros c' [= <-]. split; [exact Hc|].
      intros n t Hin. destruct (Hcov n t Hin) as [[] | H]. exact H. }
    rewrite <- Eu in *.
    destruct (resolve_pass ast_parse unresolved c [] false) as [[[c1 remaining] progressed]|e] eqn:Ep.
    2: { eexists. split; [reflexivity | discriminate]. }
    destruct (resolve_pass_inv all unresolved c [] false c1 remaining progressed)
      as (R1 & R2 & R3 & R4 & R5 & R6 & R7); auto.
    destruct progressed.
    2: { eexists. split; [reflexivity | discriminate]. }
    destruct (R7 eq_refl) as [|Hlt]; [discriminate|]. cbn in Hlt.
    apply IH; auto; [lia|].
    intros n t Hin. destruct (Hcov n t Hin) as [Hu | Hs].
    + apply R4. exact Hu.
    + right. apply R5. exact Hs.
Qed.

Lemma collect_expressions_nodup lines :
  List.NoDup (map fst (collect_expressions assignment_match lines)).
Proof.
  unfold collect_expressions.
  assert (H : forall acc : odict string,
             List.NoDup (map fst acc) ->
             List.NoDup (map fst (fold_left
               (fun expressions line =>
                  match assignment_match line with
                  | Some (name, text) => od_set expressions name text
                  | None => expressions
                  end) lines acc))).
  { induction lines as [|line rest IH]; intros acc Hacc; [exact Hacc|].
    cbn. apply IH. destruct (assignment_match line) as [[name text]|];
      [apply od_set_nodup|]; exact Hacc. }
  apply H. constructor.
Qed.

(** The resolution loop of a file returns or raises within its fuel. *)
Lemma resolve_loop_file lines :
  let all := collect_expressions assignment_match lines in
  exists r,
    resolve_loop ast_parse (length all) all ∅ = Some r
    /\ forall c', r = Ok c' ->
         consistent all c' /\ forall n t, In (n, t) all -> is_Some (c' !! n).
Proof.
  intros all. apply resolve_loop_inv.
  - apply Nat.le_refl.
  - apply collect_expressions_nodup.
  - intros n t Hin. split; [exact Hin | apply lookup_empty].
  - intros n v Hlook. rewrite lookup_empty in Hlook. discriminate.
  - intros n t Hin. left. exact Hin.
Qed.

(** What a successful [parse_reference_constants] returns. *)
Lemma parse_reference_constants_ok lines (constants : gmap string Q) :
  parse_reference_constants ast_parse assignment_match (Some lines) = Ok constants ->
  consistent (collect_expressions assignment_match lines) constants
  /\ (forall n t, In (n, t) (collect_expressions assignment_match lines) ->
        is_Some (constants !! n))
  /\ (forall name, In name REQUIRED_REFERENCE_CONSTANTS -> is_Some (constants !! name)).
Proof.
  unfold parse_reference_constants. intros H.
  set (all := collect_expressions assignment_match lines) in *.
  destruct (resolve_loop_file lines) as (r & Hr & Hok). fold all in Hr, Hok.
  rewrite Hr in H. destruct r as [c|e]; [|discriminate].
  destruct (List.filter _ _) eqn:Ef; [|discriminate].
  injection H as <-. destruct (Hok c eq_refl) as [Hc Hall].
  split; [exact Hc|]. split; [exact Hall|].
  intros name Hname. destruct (c !! name) as [v|] eqn:E; [eauto|].
  exfalso. assert (Hin : In name (List.filter
              (fun name => match c !! name with Some _ => false | None => true end)
              REQUIRED_REFERENCE_CONSTANTS)).
  { apply filter_In. split; [exact Hname|]. rewrite E. reflexivity. }
  rewrite Ef in Hin. destruct Hin.
Qed.

End ResolverFacts.

Lemma build_thresholds_corridor_samples_ge_one args :
  (1 <= corridor_samples (build_thresholds args))%Z.
Proof. cbn. lia. Qed.

Section ResolverTheorems.
Variable ast_parse : string -> option expr.
Variable assignment_match : string -> option (string * string).
Context {provider : GeometryProvider}.

(** X1.  When [parse_reference_constants] succeeds, the constants it
    defines are exactly the names of the file's assignments, and each one
    satisfies its own assignment: evaluating the expression of a name in
    the returned map gives the value recorded for that name. *)
Theorem X1_resolved_constants_satisfy_their_expressions
    (lines : list string) (constants : gmap string Q)
    (Hparse : parse_reference_constants ast_parse assignment_match (Some lines)
              = Ok constants) :
  let expressions := collect_expressions assignment_match lines in
  (forall name text,
      od_get expressions name = Some text ->
      exists value,
        constants !! name = Some value
        /\ eval_expression ast_parse constants text = Ok value)
  /\ (forall name,
        is_Some (constants !! name) -> is_Some (od_get expressions name)).
Proof.
  intros expressions. subst expressions.
  destruct (parse_reference_constants_ok _ _ _ _ Hparse) as (Hc & Hall & _).
  pose proof (collect_expressions_nodup assignment_match lines) as Hnd.
  split.
  - intros name text Hget. apply od_get_in in Hget as Hin.
    destruct (Hall name text Hin) as [value Hvalue].
    exists value. split; [exact Hvalue|].
    destruct (Hc name value Hvalue) as (t & Hin' & Hev).
    apply (od_in_get _ _ _ Hnd) in Hin'. rewrite Hget in Hin'.
    injection Hin' as ->. exact Hev.
  - intros name [value Hvalue]. destruct (Hc name value Hvalue) as (t & Hin & _).
    apply (od_in_get _ _ _ Hnd) in Hin. eauto.
Qed.

(** X2.  A file in which some expression mentions a name that no line
    assigns never resolves: the resolution loop itself raises, and
    [parse_reference_constants] raises with it instead of returning a
    partial map. *)
Theorem X2_undefined_name_fails_resolution
    (lines : list string) (name text id : string) (tree : expr)
    (Hline : od_get (collect_expressions assignment_match lines) name = Some text)
    (Htree : ast_parse text = Some tree)
    (Hid : In id (names tree))
    (Hundefined : od_get (collect_expressions assignment_match lines) id = None) :
  let expressions := collect_expressions assignment_match lines in
  exists e,
    resolve_loop ast_parse (length expressions) expressions ∅ = Some (Err e)
    /\ parse_reference_constants ast_parse assignment_match (Some lines) = Err e.
Proof.
  intros expressions.
  destruct (resolve_loop_file ast_parse assignment_match lines) as (r & Hr & Hok).
  fold expressions in Hr, Hok.
  destruct r as [constants|e].
  - exfalso. destruct (Hok constants eq_refl) as [Hc Hall].
    pose proof (collect_expressions_nodup assignment_match lines) as Hnd.
    fold expressions in Hnd.
    apply od_get_in in Hline as Hin.
    destruct (Hall name text Hin) as [value Hvalue].
    destruct (Hc name value Hvalue) as (t & Hin' & Hev).
    apply (od_in_get _ _ _ Hnd) in Hin'. fold expressions in Hline.
    rewrite Hline in Hin'. injection Hin' as ->.
    unfold eval_expression in Hev. rewrite Htree in Hev. cbn in Hev.
    destruct (walk_names _ _ _ Hev id Hid) as [v Hv].
    destruct (Hc id v Hv) as (t' & Hin_id & _).
    apply (od_in_get _ _ _ Hnd) in Hin_id. fold expressions in Hundefined. congruence.
  - exists e. split; [exact Hr|].
    unfold parse_reference_constants. fold expressions. rewrite Hr. reflexivity.
Qed.

(** X3.  The constants a successful parse returns hold every canonical
    reference constant, so the lock evaluation that follows it in [main]
    returns its verdict and delta list, and the fit analysis run with the
    thresholds of [build_thresholds] returns a report whenever the axis
    scan has a non-zero step and at least one point per axis and the frame
    mesh has a vertex: no [KeyError] or [TypeError] for a missing
    constant can occur after the parse. *)
Theorem X3_parsed_constants_feed_lock_and_analysis
    (lines : list string) (constants : gmap string Q)
    (Hparse : parse_reference_constants ast_parse assignment_match (Some lines)
              = Ok constants) :
  (exists locked deltas,
      evaluate_reference_constant_lock constants = Ok (locked, deltas)
      /\ length deltas = length CANONICAL_REFERENCE_CONSTANTS)
  /\ (forall hull frame slot_plug args locked,
        let thresholds := build_thresholds args in
        ~ axis_scan_step_mm thresholds == 0 ->
        (0 <= round_half_even
                ((2 * axis_scan_radius_mm thresholds) / axis_scan_step_mm thresholds))%Z ->
        vertices frame <> [] ->
        exists r,
          analyze_reference_fit hull frame slot_plug constants thresholds locked
          = Ok r).
Proof.
  destruct (parse_reference_constants_ok _ _ _ _ Hparse) as (_ & _ & Hreq).
  split.
  - destruct (lock_loop_spec CANONICAL_REFERENCE_CONSTANTS constants) with
      (locked := true) (deltas := @nil delta_entry)
      as (locked & deltas & Hrun & _ & Hdeltas).
    { intros name expected Hin. apply Hreq.
      apply (in_map fst) in Hin. exact Hin. }
    exists locked, deltas. split; [exact Hrun|].
    apply Forall2_length in Hdeltas. exact Hdeltas.
  - intros hull frame slot_plug args locked thresholds Hstep Hgrid Hframe.
    apply analyze_reference_fit_returns; auto.
    + intros key Hkey. apply Hreq. cbn in Hkey. cbn.
      repeat (destruct Hkey as [<- | Hkey]; [tauto|]). destruct Hkey.
    + apply build_thresholds_corridor_samples_ge_one.
Qed.

End ResolverTheorems.

(** *** The slot axis search *)

(** [argmax_from] scanning the tail [rest] of [pre ++ rest]: the result is
    the first position of the largest value. *)
Lemma argmax_from_spec (rest : list Q) :
  forall (pre : list Q) (best_i : nat) (best : Q),
  (best_i < length pre)%nat ->
  nth best_i pre 0 = best ->
  (forall x, In x pre -> x <= best) ->
  (forall j, (j < best_i)%nat -> nth j pre 0 < best) ->
  let r := argmax_from rest (length pre) best_i best in
  (r < length (pre ++ rest))%nat
  /\ (forall x, In x (pre ++ rest) -> x <= nth r (pre ++ rest) 0)
  /\ (forall j, (j < r)%nat -> nth j (pre ++ rest) 0 < nth r (pre ++ rest) 0).
Proof.
  induction rest as [|x rest IH]; intros pre best_i best Hi Hbest Hmax Hfirst; cbn.
  - rewrite app_nil_r. rewrite Hbest. auto.
  - assert (Eapp : pre ++ x :: rest = (pre ++ [x]) ++ rest)
      by (rewrite <- app_assoc; reflexivity).
    assert (Elen : S (length pre) = length (pre ++ [x]))
      by (rewrite length_app; cbn; lia).
    rewrite Eapp, Elen.
    destruct (Qgtb x best) eqn:E.
    + apply Qgtb_lt in E. apply IH.
      * rewrite length_app. cbn. lia.
      * rewrite app_nth2 by lia. rewrite Nat.sub_diag. reflexivity.
      * intros y Hy. apply in_app_or in Hy as [Hy | [<- | []]].
        -- eapply Qle_trans; [apply Hmax, Hy | apply Qlt_le_weak, E].
        -- apply Qle_refl.
      * intros j Hj. rewrite app_nth1 by exact Hj.
        eapply Qle_lt_trans; [|exact E]. apply Hmax. apply nth_In. exact Hj.
    + apply Qgtb_false_le in E. apply IH.
      * rewrite length_app. cbn. lia.
      * rewrite app_nth1 by exact Hi. exact Hbest.
      * intros y Hy. apply in_app_or in Hy as [Hy | [<- | []]];
          [apply Hmax, Hy | exact E].
      * intros j Hj. rewrite app_nth1 by lia. apply Hfirst, Hj.
Qed.

Lemma argmax_spec (xs : list Q) (i : nat) :
  argmax xs = Ok i ->
  (i < length xs)%nat
  /\ (forall x, In x xs -> x <= nth i xs 0)
  /\ (forall j, (j < i)%nat -> nth j xs 0 < nth i xs 0).
Proof.
  destruct xs as [|x rest]; [discriminate|]. cbn [argmax]. intros [= <-].
  apply (argmax_from_spec rest [x] 0%nat x).
  - cbn. lia.
  - reflexivity.
  - intros y [<- | []]. apply Qle_refl.
  - intros j Hj. lia.
Qed.

Lemma slot_scan_grid_height ex ey seat_z radius step grid :
  slot_scan_grid ex ey seat_z radius step = Ok grid ->
  forall g, In g grid -> pz g = seat_z.
Proof.
  unfold slot_scan_grid. destruct (Qeqb step 0); [discriminate|].
  intros H. bind_inv H as xs Hxs. bind_inv H as ys Hys. injection H as <-.
  intros g Hg. apply in_flat_map in Hg as (y & _ & Hg).
  apply in_map_iff in Hg as (x & <- & _). reflexivity.
Qed.

Section FitMore.
Context {provider : GeometryProvider}.

(** X4.  The slot axis search returns the scanned grid point of largest
    free radius, the first one in scan order among equals: the observed
    seat position is a point of the grid on the seat plane, the reported
    seat free radius is the negated signed distance there, no grid point
    has a larger free radius, and every grid point scanned before it has a
    strictly smaller one. *)
Theorem X4_slot_axis_is_first_grid_maximum
    (hull_mesh : Trimesh) (expected_x expected_y seat_z entry_z ball_radius : Q)
    (thresholds : VerificationThresholds) (s : slot_check)
    (Hrun : measure_slot_geometry hull_mesh expected_x expected_y seat_z entry_z
              ball_radius thresholds = Ok s) :
  exists grid best,
    slot_scan_grid expected_x expected_y seat_z
      (axis_scan_radius_mm thresholds) (axis_scan_step_mm thresholds) = Ok grid
    /\ nth_error grid best = Some (observed_x_mm s, observed_y_mm s, seat_z)
    /\ seat_free_radius_mm s
       = - signed_distance hull_mesh (observed_x_mm s, observed_y_mm s, seat_z)
    /\ (forall g, In g grid ->
          - signed_distance hull_mesh g <= seat_free_radius_mm s)
    /\ (forall j g, (j < best)%nat -> nth_error grid j = Some g ->
          - signed_distance hull_mesh g < seat_free_radius_mm s)
    /\ seat_radial_clearance_mm s = seat_free_radius_mm s - ball_radius.
Proof.
  unfold measure_slot_geometry in Hrun.
  bind_inv Hrun as grid Hgrid. bind_inv Hrun as best Hbest.
  bind_inv Hrun as path Hpath. bind_inv Hrun as m Hm.
  injection Hrun as <-.
  cbn [observed_x_mm observed_y_mm seat_free_radius_mm seat_radial_clearance_mm].
  exists grid, best. split; [exact Hgrid|].
  apply argmax_spec in Hbest as (Hlt & Hmax & Hfirst).
  rewrite !length_map in Hlt.
  set (f := fun p => - signed_distance hull_mesh p).
  assert (Ef : forall l, map Qopp (map (signed_distance hull_mesh) l) = map f l).
  { intros l. rewrite map_map. reflexivity. }
  rewrite Ef in *.
  assert (Hnth : forall j, (j < length grid)%nat ->
            nth j (map f grid) 0 = f (nth j grid (0, 0, 0))).
  { intros j Hj. rewrite (nth_indep _ 0 (f (0, 0, 0))) by (rewrite length_map; exact Hj).
    apply map_nth. }
  pose proof (nth_In grid (0, 0, 0) Hlt) as Hin.
  pose proof (slot_scan_grid_height _ _ _ _ _ _ Hgrid _ Hin) as Hz.
  assert (Eg : (px (nth best grid (0, 0, 0)), py (nth best grid (0, 0, 0)), seat_z)
               = nth best grid (0, 0, 0)).
  { rewrite <- Hz. destruct (nth best grid (0, 0, 0)) as [[a b] c]. reflexivity. }
  rewrite Eg, (Hnth best Hlt).
  split; [apply nth_error_nth'; exact Hlt|]. split; [reflexivity|]. split; [|split].
  - intros g Hg. rewrite <- (Hnth best Hlt). apply Hmax. apply (in_map f). exact Hg.
  - intros j g Hj Hg. rewrite <- (Hnth best Hlt).
    assert (Hjl : (j < length grid)%nat) by lia.
    specialize (Hfirst j Hj). rewrite (Hnth j Hjl) in Hfirst.
    apply nth_error_nth with (d := (0, 0, 0)) in Hg. rewrite Hg in Hfirst. exact Hfirst.
  - reflexivity.
Qed.

End FitMore.

(** *** Floor clearance *)

Section FloorMore.
Context {provider : GeometryProvider}.

Lemma floor_clearance_of_sample hull_mesh p c :
  In c (floor_clearance_of hull_mesh p) ->
  exists h,
    In h (ray_hits hull_mesh (translate (0, 0, -(1e-4)) p) (0, 0, -(1)))
    /\ c = pz p - pz h
    /\ pz h < pz p - 1e-6
    /\ (forall h', In h' (ray_hits hull_mesh (translate (0, 0, -(1e-4)) p) (0, 0, -(1))) ->
          pz h' < pz p - 1e-6 -> pz h' <= pz h).
Proof.
  unfold floor_clearance_of.
  destruct (max_list (z_hits_below hull_mesh p)) as [floor_z|] eqn:E; [|intros []].
  intros [<- | []]. apply max_list_spec in E as [Hin Hmax].
  unfold z_hits_below in Hin, Hmax.
  apply filter_In in Hin as [Hin Hbelow]. apply Qltb_lt in Hbelow.
  apply in_map_iff in Hin as (h & <- & Hh).
  exists h. split; [exact Hh|]. split; [reflexivity|]. split; [exact Hbelow|].
  intros h' Hh' Hbelow'. apply Hmax. apply filter_In. split.
  - apply in_map. exact Hh'.
  - apply Qltb_lt. exact Hbelow'.
Qed.

(** X5.  Every floor clearance sample of a placement is the vertical
    distance from one of its contact points to the highest hull hit lying
    more than 1e-6 below that point, so every sample exceeds 1e-6; and the
    reported minimum, when present, is the least of the samples. *)
Theorem X5_floor_clearance_is_distance_to_nearest_hit_below
    (hull_mesh frame_mesh : Trimesh) (frame_spacing_mm frame_alignment_z_mm : Q)
    (thresholds : VerificationThresholds) (x_sign : Q) (r : frame_check)
    (Hrun : analyze_frame_placement hull_mesh frame_mesh frame_spacing_mm
              frame_alignment_z_mm thresholds x_sign = Ok r) :
  (forall c, In c (floor_clearance_samples_mm r) ->
     1e-6 < c
     /\ exists p h,
          In p (map (translate (x_sign * frame_spacing_mm, 0.0, frame_alignment_z_mm))
                    (vertices frame_mesh))
          /\ In h (ray_hits hull_mesh (translate (0, 0, -(1e-4)) p) (0, 0, -(1)))
          /\ c = pz p - pz h
          /\ (forall h',
                In h' (ray_hits hull_mesh (translate (0, 0, -(1e-4)) p) (0, 0, -(1))) ->
                pz h' < pz p - 1e-6 -> pz h' <= pz h))
  /\ (forall m, floor_clearance_min_mm_obs r = Some m ->
        In m (floor_clearance_samples_mm r)
        /\ forall c, In c (floor_clearance_samples_mm r) -> m <= c).
Proof.
  unfold analyze_frame_placement in Hrun.
  bind_inv Hrun as max_signed Hmax. bind_inv Hrun as bottom Hbottom.
  injection Hrun as <-.
  cbn [floor_clearance_samples_mm floor_clearance_min_mm_obs].
  rewrite measure_floor_clearances_flat.
  unfold frame_bottom_points in Hbottom. bind_inv Hbottom as min_z Hmin.
  injection Hbottom as <-. cbn [snd].
  split.
  - intros c Hc. apply in_flat_map in Hc as (p & Hp & Hc).
    apply filter_In in Hp as [Hp _].
    apply floor_clearance_of_sample in Hc as (h & Hh & -> & Hbelow & Hnearest).
    split.
    + set (eps := 1e-6) in *.
      apply Qlt_minus_iff. apply Qlt_minus_iff in Hbelow.
      assert (E : pz p - pz h + - eps == pz p - eps + - pz h) by ring.
      rewrite E. exact Hbelow.
    + exists p, h. auto.
  - intros m Hm. apply min_list_spec in Hm. exact Hm.
Qed.

(** X6.  A placement that returns a result always probes the floor from at
    least one contact point when the bottom z-tolerance is not negative:
    the reported frame bottom height is the least height of the placed
    vertices and a vertex at that height is a contact point.  The
    thresholds of [build_thresholds] always meet the condition. *)
Theorem X6_lowest_vertex_is_a_contact_point
    (hull_mesh frame_mesh : Trimesh) (frame_spacing_mm frame_alignment_z_mm : Q)
    (thresholds : VerificationThresholds) (x_sign : Q) (r : frame_check)
    (Hrun : analyze_frame_placement hull_mesh frame_mesh frame_spacing_mm
              frame_alignment_z_mm thresholds x_sign = Ok r) :
  let placed :=
    map (translate (x_sign * frame_spacing_mm, 0.0, frame_alignment_z_mm))
        (vertices frame_mesh) in
  (exists v, In v placed /\ pz v = frame_bottom_z_mm r)
  /\ (forall v, In v placed -> frame_bottom_z_mm r <= pz v)
  /\ (0 <= frame_bottom_z_tolerance_mm thresholds ->
      (1 <= bottom_probe_count r)%nat)
  /\ (forall args, thresholds = build_thresholds args ->
        (1 <= bottom_probe_count r)%nat).
Proof.
  intros placed.
  unfold analyze_frame_placement in Hrun.
  bind_inv Hrun as max_signed Hmax. bind_inv Hrun as bottom Hbottom.
  injection Hrun as <-. cbn [frame_bottom_z_mm bottom_probe_count].
  unfold frame_bottom_points in Hbottom. bind_inv Hbottom as min_z Hmin.
  injection Hbottom as <-. cbn [fst snd]. fold placed.
  unfold np_min in Hmin. fold placed in Hmin.
  destruct (min_list (map pz placed)) as [m|] eqn:E; [|discriminate].
  injection Hmin as ->. apply min_list_spec in E as [Hin Hle].
  apply in_map_iff in Hin as (v & Hv & Hvin).
  assert (Hcount : 0 <= frame_bottom_z_tolerance_mm thresholds ->
            (1 <= length (List.filter
                   (fun v => Qleb (Qabs (pz v - min_z))
                                  (frame_bottom_z_tolerance_mm thresholds)) placed))%nat).
  { intros Htol.
    assert (Hf : In v (List.filter
                   (fun v => Qleb (Qabs (pz v - min_z))
                                  (frame_bottom_z_tolerance_mm thresholds)) placed)).
    { apply filter_In. split; [exact Hvin|]. apply Qleb_le. rewrite Hv.
      assert (E : min_z - min_z == 0) by ring.
      rewrite E. exact Htol. }
    destruct (List.filter _ placed); [destruct Hf | cbn; lia]. }
  split; [eauto|]. split; [|split].
  - intros u Hu. apply Hle. apply in_map. exact Hu.
  - exact Hcount.
  - intros args ->. apply Hcount. cbn.
    eapply Qle_trans; [|apply pymax_ge_l]. discriminate.
Qed.

End FloorMore.

(** ** Further properties of validate_full.py *)

Import Profile.

(** *** The sampled swing angles *)

Lemma angle_grid_length min_deg step_deg count :
  length (angle_grid min_deg step_deg count) = Z.to_nat count.
Proof. unfold angle_grid. rewrite length_map, length_seq. reflexivity. Qed.

(** The grid angles of an ordered range lie between its bounds. *)
Lemma angle_grid_bounds (lo hi step_deg v : Q) :
  0 < step_deg -> lo <= hi ->
  In v (angle_grid lo step_deg (Qfloor ((hi - lo) / step_deg) + 1)) ->
  lo <= v /\ v <= hi.
Proof.
  intros Hstep Hle Hv. apply angle_grid_inv in Hv as (i & Hi & ->).
  assert (Hi0 : 0 <= inject_Z (Z.of_nat i)) by (rewrite <- (Zle_Qle 0); lia).
  split.
  - rewrite <- (Qplus_0_r lo) at 1. apply Qplus_le_compat; [apply Qle_refl|].
    apply Qmult_le_0_compat; [apply Qlt_le_weak; exact Hstep | exact Hi0].
  - assert (Hq : inject_Z (Z.of_nat i) <= (hi - lo) / step_deg).
    { eapply Qle_trans; [|apply Qfloor_le]. rewrite <- Zle_Qle.
      assert (0 <= Qfloor ((hi - lo) / step_deg) + 1)%Z by lia. lia. }
    assert (Hm : inject_Z (Z.of_nat i) * step_deg <= hi - lo).
    { apply (Qmult_le_r _ _ (/ step_deg)); [apply Qinv_lt_0_compat; exact Hstep|].
      rewrite <- Qmult_assoc, Qmult_inv_r, Qmult_1_r; [exact Hq|].
      intros E. rewrite E in Hstep. exact (Qlt_irrefl _ Hstep). }
    apply (Qplus_le_r _ _ (- lo)).
    assert (E1 : - lo + (lo + step_deg * inject_Z (Z.of_nat i))
                 == inject_Z (Z.of_nat i) * step_deg) by ring.
    assert (E2 : - lo + hi == hi - lo) by ring.
    rewrite E1, E2. exact Hm.
Qed.

Lemma grid_count_positive (lo hi step_deg : Q) :
  0 < step_deg -> lo <= hi -> (1 <= Qfloor ((hi - lo) / step_deg) + 1)%Z.
Proof.
  intros Hstep Hle.
  assert (H : 0 <= (hi - lo) / step_deg).
  { apply Qle_shift_div_l; [exact Hstep|]. rewrite Qmult_0_l.
    unfold Qminus. rewrite <- Qle_minus_iff. exact Hle. }
  apply Qfloor_resp_le in H. change (Qfloor 0) with 0%Z in H. lia.
Qed.

(** The unrounded values of an ordered run with a positive step: the grid,
    which is not empty, followed by the upper bound when the grid stops
    more than 1e-9 short of it. *)
Lemma sampled_angles_values (lo hi step_deg : Q) :
  0 < step_deg -> lo <= hi ->
  let grid := angle_grid lo step_deg (Qfloor ((hi - lo) / step_deg) + 1) in
  exists rest,
    grid = (lo + step_deg * inject_Z (Z.of_nat 0)) :: rest
    /\ ((List.last grid 0 < hi - 1e-9
         /\ sampled_angles lo hi step_deg = map round6 (grid ++ [hi]))
        \/ (hi - 1e-9 <= List.last grid 0
            /\ sampled_angles lo hi step_deg = map round6 grid)).
Proof.
  intros Hstep Hle grid.
  pose proof (grid_count_positive lo hi step_deg Hstep Hle) as Hcount.
  assert (Hgrid : exists rest, grid = (lo + step_deg * inject_Z (Z.of_nat 0)) :: rest).
  { unfold grid, angle_grid.
    destruct (Z.to_nat (Qfloor ((hi - lo) / step_deg) + 1)) as [|n] eqn:En; [lia|].
    cbn [seq map]. eauto. }
  destruct Hgrid as (rest & Hgrid). exists rest. split; [exact Hgrid|].
  unfold sampled_angles.
  assert (E1 : Qleb step_deg 0 = false).
  { destruct (Qleb step_deg 0) eqn:E; [|reflexivity].
    apply Qleb_le in E. exfalso. exact (Qlt_not_le _ _ Hstep E). }
  assert (E2 : Qltb hi lo = false) by (apply Qltb_false_le; exact Hle).
  rewrite E1, E2. fold grid. rewrite Hgrid. rewrite <- Hgrid.
  destruct (Qltb (List.last grid 0) (hi - 1e-9)) eqn:El.
  - left. apply Qltb_lt in El. split; [exact El | reflexivity].
  - right. apply Qltb_false_le in El. split; [exact El | reflexivity].
Qed.

(** X7.  For a positive step the swing angles do not depend on the order
    in which the two bounds are given.  For ordered bounds the first
    sample is the rounded lower bound, every sample is the rounding of an
    angle between the bounds, and the last sample is the rounding of an
    angle at most 1e-9 below the upper bound: the sweep always reaches the
    upper bound. *)
Theorem X7_sampled_angles_span_the_range (min_deg max_deg step_deg : Q)
    (Hstep : 0 < step_deg) (Hle : min_deg <= max_deg) :
  let angles := sampled_angles min_deg max_deg step_deg in
  sampled_angles max_deg min_deg step_deg = angles
  /\ (exists rest, angles = round6 min_deg :: rest)
  /\ (forall a, In a angles ->
        exists v, a = round6 v /\ min_deg <= v /\ v <= max_deg)
  /\ (exists v, List.last angles 0 = round6 v
                /\ max_deg - 1e-9 <= v /\ v <= max_deg).
Proof.
  intros angles. subst angles.
  destruct (sampled_angles_values min_deg max_deg step_deg Hstep Hle)
    as (rest & Hgrid & Hcases).
  set (grid := angle_grid min_deg step_deg (Qfloor ((max_deg - min_deg) / step_deg) + 1))
    in *.
  assert (Hfirst : round6 (min_deg + step_deg * inject_Z (Z.of_nat 0)) = round6 min_deg).
  { apply round6_comp. cbn. ring. }
  assert (Hin_grid : forall v, In v grid -> min_deg <= v /\ v <= max_deg).
  { intros v Hv. exact (angle_grid_bounds _ _ _ _ Hstep Hle Hv). }
  assert (Hlast_in : In (List.last grid 0) grid).
  { rewrite Hgrid. clear. generalize (min_deg + step_deg * inject_Z (Z.of_nat 0)).
    induction rest as [|x r IH]; intros a; [left; reflexivity|].
    right. apply IH. }
  split; [|split; [|split]].
  - (* the order of the bounds *)
    destruct (Qlt_le_dec min_deg max_deg) as [Hlt | Hge].
    + unfold sampled_angles.
      assert (E1 : Qleb step_deg 0 = false).
      { destruct (Qleb step_deg 0) eqn:E; [|reflexivity].
        apply Qleb_le in E. exfalso. exact (Qlt_not_le _ _ Hstep E). }
      rewrite E1.
      assert (E2 : Qltb min_deg max_deg = true) by (apply Qltb_lt; exact Hlt).
      assert (E3 : Qltb max_deg min_deg = false) by (apply Qltb_false_le; exact Hle).
      rewrite E2, E3. reflexivity.
    + assert (Heq : min_deg == max_deg) by (apply Qle_antisym; assumption).
      assert (Hone : forall lo hi, lo == hi ->
                sampled_angles lo hi step_deg = [round6 lo]).
      { intros lo hi E.
        assert (Hlh : lo <= hi) by (rewrite E; apply Qle_refl).
        destruct (sampled_angles_values lo hi step_deg Hstep Hlh) as (r & Hg & Hc).
        assert (Ecount : (Qfloor ((hi - lo) / step_deg) + 1 = 1)%Z).
        { assert (Ez : (hi - lo) / step_deg == 0).
          { rewrite E. unfold Qdiv. assert (Ee : hi - hi == 0) by ring.
            rewrite Ee. apply Qmult_0_l. }
          rewrite (Qfloor_comp _ _ Ez). reflexivity. }
        rewrite Ecount in Hc.
        change (angle_grid lo step_deg 1)
          with [lo + step_deg * inject_Z (Z.of_nat 0)] in Hc.
        cbn [List.last map] in Hc.
        assert (E0 : lo + step_deg * inject_Z (Z.of_nat 0) == hi).
        { rewrite E. cbn. ring. }
        destruct Hc as [[Hlt _] | [_ ->]].
        - exfalso. apply (Qlt_not_le _ _ Hlt).
          rewrite E0. set (eps := 1e-9). apply Qle_minus_iff.
          assert (E3 : hi + - (hi - eps) == eps) by ring.
          rewrite E3. discriminate.
        - f_equal. apply round6_comp. cbn. ring. }
      rewrite (Hone max_deg min_deg (Qeq_sym _ _ Heq)), (Hone min_deg max_deg Heq).
      f_equal. apply round6_comp. symmetry. exact Heq.
  - destruct Hcases as [[_ ->] | [_ ->]]; rewrite Hgrid; cbn [app map];
      rewrite Hfirst; eauto.
  - intros a Ha.
    destruct Hcases as [[_ E] | [_ E]]; rewrite E in Ha;
      apply in_map_iff in Ha as (v & <- & Hv).
    + apply in_app_or in Hv as [Hv | [<- | []]].
      * exists v. split; [reflexivity | exact (Hin_grid v Hv)].
      * exists max_deg. split; [reflexivity|]. split; [exact Hle | apply Qle_refl].
    + exists v. split; [reflexivity | exact (Hin_grid v Hv)].
  - destruct Hcases as [[_ E] | [Hreach E]]; rewrite E.
    + exists max_deg. split.
      * rewrite map_app. cbn [map]. apply last_last.
      * split; [|apply Qle_refl].
        apply Qle_minus_iff. set (eps := 1e-9).
        assert (E3 : max_deg + - (max_deg - eps) == eps) by ring.
        rewrite E3. discriminate.
    + exists (List.last grid 0). split.
      * rewrite Hgrid. apply last_map_nonempty. discriminate.
      * split; [exact Hreach | exact (proj2 (Hin_grid _ Hlast_in))].
Qed.

(** *** The swing path *)


Section Kinematic.
Context {World : Type} {host : Host World} {provider : GeometryProvider}.




End Kinematic.

(** *** The golden signature bands *)

Lemma od_get_map_values {V W} (h : V -> W) (d : odict V) k :
  od_get (map (fun entry : string * V => (fst entry, h (snd entry))) d) k
  = option_map h (od_get d k).
Proof.
  induction d as [|[k0 v] rest IH]; cbn; [reflexivity|].
  destruct (String.eqb k0 k); [reflexivity | exact IH].
Qed.

(** A value lies in the band of a margin that is not negative. *)
Lemma band_holds (value margin : Q) :
  0 <= margin ->
  (Qltb value (value - margin) || Qgtb value (value + margin))%bool = false.
Proof.
  intros Hm. apply orb_false_iff. split.
  - apply Qltb_false_le. apply Qle_minus_iff.
    assert (E : value + - (value - margin) == margin) by ring.
    rewrite E. exact Hm.
  - apply Qgtb_false_le. apply Qle_minus_iff.
    assert (E : value + margin + - value == margin) by ring.
    rewrite E. exact Hm.
Qed.

Section Signatures.
Context {World : Type} {host : Host World} {provider : GeometryProvider}.

(** The band written for an observed metric accepts that metric. *)
Lemma check_fresh_band preset (observed : odict Q) relative_band absolute_band_mm
    name value :
  od_get observed name = Some value ->
  check_metric preset observed
    (signature_band relative_band absolute_band_mm (name, value)) = [].
Proof.
  intros Hget. unfold signature_band.
  set (margin := if str_in name _ then _ else _).
  assert (Hm : 0 <= margin).
  { unfold margin. destruct (str_in name _).
    - eapply Qle_trans; [|apply pymax_ge_r]. discriminate.
    - eapply Qle_trans; [|apply pymax_ge_r]. discriminate. }
  unfold check_metric. rewrite Hget. cbn [as_dict].
  change (od_get [("min", JNum (value - margin)); ("max", JNum (value + margin))] "min")
    with (Some (JNum (value - margin))).
  change (od_get [("min", JNum (value - margin)); ("max", JNum (value + margin))] "max")
    with (Some (JNum (value + margin))).
  cbn [of_option rbind py_float]. rewrite (band_holds value margin Hm). reflexivity.
Qed.

Lemma geometry_signature_get mesh name value :
  In (name, value) (geometry_signature mesh) ->
  od_get (geometry_signature mesh) name = Some value.
Proof.
  unfold geometry_signature. intros H.
  repeat (destruct H as [[= <- <-] | H]; [reflexivity|]). destruct H.
Qed.

Lemma fresh_bands_hold preset mesh relative_band absolute_band_mm :
  flat_map (check_metric preset (geometry_signature mesh))
    (map (signature_band relative_band absolute_band_mm) (geometry_signature mesh))
  = [].
Proof.
  apply flat_map_nil. intros entry Hin. apply in_map_iff in Hin as ([name value] & <- & Hin).
  apply check_fresh_band. apply geometry_signature_get. exact Hin.
Qed.

(** Every observed signature is the signature of a mesh. *)
Definition signatures_of_meshes (observed : odict (odict Q)) : Prop :=
  forall preset signature,
    od_get observed preset = Some signature ->
    exists mesh, signature = geometry_signature mesh.

Lemma observe_preset_signatures w by_name observed preset :
  signatures_of_meshes observed ->
  signatures_of_meshes (observe_preset w by_name observed preset).
Proof.
  intros Hobs. unfold observe_preset.
  destruct (od_get by_name _) as [sc|]; [|exact Hobs].
  destruct (load_json w _) as [report|]; [|exact Hobs].
  destruct (as_dict _) as [inputs|]; [|exact Hobs].
  destruct (od_get inputs "hull_stl") as [[| | |hull_path| |]|]; try exact Hobs.
  destruct (load_mesh w hull_path) as [mesh|]; [|exact Hobs].
  intros p s Hp. destruct (String.eqb_spec preset p) as [<-|Hne].
  - rewrite od_get_set_eq in Hp. injection Hp as <-. eauto.
  - rewrite od_get_set_ne in Hp by exact Hne. exact (Hobs p s Hp).
Qed.

Lemma observed_signatures w by_name presets :
  forall observed,
    signatures_of_meshes observed ->
    signatures_of_meshes (fold_left (observe_preset w by_name) presets observed).
Proof.
  induction presets as [|p rest IH]; intros observed Hobs; [exact Hobs|].
  cbn. apply IH. apply observe_preset_signatures. exact Hobs.
Qed.

(** X9.  A baseline written in the same run accepts the observations it
    was written from.  When the gate writes the baseline and the file
    reads back as written, no drift is reported, the missing presets are
    exactly the sweep presets without an observed signature, and the raw
    verdict passes exactly when every sweep preset was observed. *)
Theorem X9_fresh_baseline_accepts_its_observations
    (w : World) (args : signature_args) (scenarios : list scenario)
    (sweep_presets : list string)
    (Hwrite : arg_write_signature_baseline args = true)
    (Hreadback : forall fields,
        load_json (write_json w (arg_signature_file args) (JObj fields))
          (arg_signature_file args) = Some fields) :
  let r := fst (golden_signature_validation w args scenarios sweep_presets) in
  sig_drifts r = []
  /\ (forall preset,
        In preset (sig_missing_presets r) <->
        In preset sweep_presets /\ od_get (sig_observed r) preset = None)
  /\ (sig_raw_pass r = true <->
        forall preset, In preset sweep_presets ->
          exists signature, od_get (sig_observed r) preset = Some signature).
Proof.
  intros r. subst r. unfold golden_signature_validation.
  rewrite Hwrite. unfold write_signature_baseline, signature_payload.
  rewrite Hreadback.
  set (observed := fold_left (observe_preset w (scenario_by_name scenarios))
                     sweep_presets []).
  assert (Hobs : signatures_of_meshes observed).
  { apply observed_signatures. intros p s Hp. discriminate Hp. }
  cbn [fst sig_drifts sig_missing_presets sig_raw_pass sig_observed].
  match goal with
  | |- context [od_get_default ?d "presets" (JObj [])] =>
      change (od_get_default d "presets" (JObj [])) with
        (JObj (map (fun entry : string * odict Q =>
                      (fst entry,
                       JObj [("metrics",
                              JObj (map (signature_band
                                           (arg_signature_relative_band args)
                                           (arg_signature_absolute_band_mm args))
                                        (snd entry)))]))
                   observed))
  end.
  cbn [as_dict].
  set (stored := map _ observed).
  assert (Hcompare : forall preset,
            compare_preset observed stored preset
            = match od_get observed preset with
              | Some _ => ([], [])
              | None => ([preset], [])
              end).
  { intros preset. unfold compare_preset, stored.
    rewrite (od_get_map_values
               (fun signature : odict Q =>
                  JObj [("metrics",
                         JObj (map (signature_band (arg_signature_relative_band args)
                                      (arg_signature_absolute_band_mm args))
                                   signature))])).
    destruct (od_get observed preset) as [signature|] eqn:Eget; [|reflexivity].
    destruct (Hobs preset signature Eget) as (mesh & ->).
    cbn [option_map].
    change (geometry_signature mesh) with
      (("extent_x_mm", px (extents mesh)) :: tl (geometry_signature mesh)) at 1.
    change (od_get_default [("metrics", ?m)] "metrics" (JObj [])) with m.
    cbn [as_dict]. rewrite fresh_bands_hold. reflexivity. }
  set (compared := map (compare_preset observed stored) sweep_presets).
  assert (Hdrifts : flat_map snd compared = []).
  { apply flat_map_nil. intros c Hc. apply in_map_iff in Hc as (p & <- & _).
    rewrite Hcompare. destruct (od_get observed p); reflexivity. }
  assert (Hmissing : forall preset,
            In preset (flat_map fst compared) <->
            In preset sweep_presets /\ od_get observed preset = None).
  { intros preset. rewrite in_flat_map. split.
    - intros (c & Hc & Hin). apply in_map_iff in Hc as (p & <- & Hp).
      rewrite Hcompare in Hin. destruct (od_get observed p) eqn:E; [destruct Hin|].
      destruct Hin as [<- | []]. auto.
    - intros [Hp Hnone]. exists (compare_preset observed stored preset). split.
      + apply in_map. exact Hp.
      + rewrite Hcompare, Hnone. left. reflexivity. }
  split; [exact Hdrifts|]. split; [exact Hmissing|].
  rewrite Hdrifts. rewrite andb_true_r.
  split.
  - intros Hraw preset Hp.
    destruct (od_get observed preset) as [signature|] eqn:E; [eauto|].
    exfalso. destruct (flat_map fst compared) eqn:Ef; [|discriminate].
    exact (proj2 (Hmissing preset) (conj Hp E)).
  - intros Hall. destruct (flat_map fst compared) as [|p rest] eqn:Ef; [reflexivity|].
    exfalso. destruct (proj1 (Hmissing p) (or_introl eq_refl)) as [Hp Hnone].
    destruct (Hall p Hp) as [s Hs]. congruence.
Qed.

End Signatures.

Lemma flat_map_nil_inv {A B} (f : A -> list B) xs :
  flat_map f xs = [] -> forall x, In x xs -> f x = [].
Proof.
  induction xs as [|a rest IH]; intros H x Hx; [destruct Hx|].
  cbn in H. apply app_eq_nil in H as [Ha Hrest].
  destruct Hx as [<- | Hx]; [exact Ha | exact (IH Hrest x Hx)].
Qed.

Section SignatureBands.
Context {World : Type} {host : Host World} {provider : GeometryProvider}.

(** [float(bounds[key])] *)
Definition band_edge (fields : odict json) (key : string) : res Q :=
  rbind (of_option (KeyError key) (od_get fields key)) (py_float float_of_string).

(** A stored band accepts the observed value of its metric. *)
Definition band_accepts (observed : odict Q) (entry : string * json) : Prop :=
  exists value fields lower upper,
    od_get observed (fst entry) = Some value
    /\ snd entry = JObj fields
    /\ band_edge fields "min" = Ok lower
    /\ band_edge fields "max" = Ok upper
    /\ lower <= value /\ value <= upper.

Lemma check_metric_nil preset observed entry :
  check_metric preset observed entry = [] <-> band_accepts observed entry.
Proof.
  destruct entry as [name bounds]. unfold check_metric, band_accepts, band_edge.
  cbn [fst snd]. split.
  - destruct (od_get observed name) as [value|]; [|discriminate].
    destruct bounds as [| | | | |fields]; cbn [as_dict]; try discriminate.
    destruct (rbind (of_option (KeyError "min") (od_get fields "min")) _)
      as [lower|e] eqn:Emin; [|discriminate].
    cbn [rbind].
    destruct (rbind (of_option (KeyError "max") (od_get fields "max")) _)
      as [upper|e] eqn:Emax; [|discriminate].
    cbn [rbind].
    destruct (Qltb value lower) eqn:El; [discriminate|].
    destruct (Qgtb value upper) eqn:Eu; [discriminate|]. intros _.
    apply Qltb_false_le in El. apply Qgtb_false_le in Eu.
    exists value, fields, lower, upper.
    split; [reflexivity|]. split; [reflexivity|]. split; [exact Emin|].
    split; [exact Emax|]. split; assumption.
  - intros (value & fields & lower & upper & -> & -> & Hmin & Hmax & Hl & Hu).
    cbn [as_dict].
    change (rbind (of_option (KeyError "min") (od_get fields "min"))
              (py_float float_of_string)) with (band_edge fields "min").
    change (rbind (of_option (KeyError "max") (od_get fields "max"))
              (py_float float_of_string)) with (band_edge fields "max").
    unfold band_edge in Hmin, Hmax. unfold band_edge. rewrite Hmin. cbn [rbind].
    rewrite Hmax. cbn [rbind].
    apply Qltb_false_le in Hl. apply Qgtb_false_le in Hu. rewrite Hl, Hu. reflexivity.
Qed.

(** X10.  When the stored signature file loads, the raw verdict of the
    signature gate passes exactly when every sweep preset has a non-empty
    observed signature and a stored entry whose [metrics] object holds, for
    each of its metrics, a band with numeric edges that contains the
    observed value of that metric.  Only stored metrics are compared. *)
Theorem X10_raw_pass_iff_every_stored_band_holds
    (w : World) (args : signature_args) (scenarios : list scenario)
    (sweep_presets : list string) (expected : odict json)
    (Hfile : load_json (snd (golden_signature_validation w args scenarios sweep_presets))
               (arg_signature_file args) = Some expected) :
  let r := fst (golden_signature_validation w args scenarios sweep_presets) in
  let expected_presets :=
    match as_dict (od_get_default expected "presets" (JObj [])) with
    | Some d => d
    | None => []
    end in
  sig_raw_pass r = true <->
  forall preset, In preset sweep_presets ->
    exists observed entry metrics,
      od_get (sig_observed r) preset = Some observed
      /\ observed <> []
      /\ od_get expected_presets preset = Some (JObj entry)
      /\ as_dict (od_get_default entry "metrics" (JObj [])) = Some metrics
      /\ forall band, In band metrics -> band_accepts observed band.
Proof.
  intros r expected_presets. subst r. revert Hfile.
  unfold golden_signature_validation.
  set (w1 := if arg_write_signature_baseline args then _ else w).
  set (observed_by_preset := fold_left (observe_preset w (scenario_by_name scenarios))
                               sweep_presets []).
  destruct (load_json w1 (arg_signature_file args)) as [stored|] eqn:Eload;
    cbn [snd]; intros Hfile; [|congruence].
  rewrite Eload in Hfile. injection Hfile as ->.
  cbn [fst sig_raw_pass sig_observed]. fold expected_presets.
  set (compared := map (compare_preset observed_by_preset expected_presets) sweep_presets).
  assert (Hcompare : forall preset,
            compare_preset observed_by_preset expected_presets preset = ([], []) <->
            exists observed entry metrics,
              od_get observed_by_preset preset = Some observed
              /\ observed <> []
              /\ od_get expected_presets preset = Some (JObj entry)
              /\ as_dict (od_get_default entry "metrics" (JObj [])) = Some metrics
              /\ forall band, In band metrics -> band_accepts observed band).
  { intros preset. unfold compare_preset. split.
    - destruct (od_get observed_by_preset preset) as [[|m ms]|];
        try (intros H; discriminate H).
      destruct (od_get expected_presets preset) as [[| | | | |entry]|];
        try (intros H; discriminate H).
      destruct (as_dict (od_get_default entry "metrics" (JObj []))) as [metrics|]
        eqn:Emetrics; [|intros H; discriminate H].
      intros [= Hd]. exists (m :: ms), entry, metrics.
      split; [reflexivity|]. split; [discriminate|]. split; [reflexivity|].
      split; [exact Emetrics|]. intros band Hband. apply (check_metric_nil preset).
      exact (flat_map_nil_inv _ _ Hd band Hband).
    - intros (observed & entry & metrics & -> & Hne & -> & -> & Hall).
      destruct observed as [|m ms]; [contradiction|].
      rewrite flat_map_nil; [reflexivity|].
      intros band Hband. apply check_metric_nil. exact (Hall band Hband). }
  split.
  - intros Hraw preset Hp. apply Hcompare.
    apply andb_true_iff in Hraw as [Hm Hd].
    destruct (flat_map fst compared) eqn:Em; [|discriminate].
    destruct (flat_map snd compared) eqn:Ed; [|discriminate].
    assert (Hin : In (compare_preset observed_by_preset expected_presets preset) compared)
      by (apply in_map; exact Hp).
    pose proof (flat_map_nil_inv _ _ Em _ Hin) as H1.
    pose proof (flat_map_nil_inv _ _ Ed _ Hin) as H2.
    destruct (compare_preset _ _ preset) as [a b]. cbn in H1, H2. congruence.
  - intros Hall.
    assert (Hm : flat_map fst compared = []).
    { apply flat_map_nil. intros c Hc. apply in_map_iff in Hc as (p & <- & Hp).
      rewrite (proj2 (Hcompare p) (Hall p Hp)). reflexivity. }
    assert (Hd : flat_map snd compared = []).
    { apply flat_map_nil. intros c Hc. apply in_map_iff in Hc as (p & <- & Hp).
      rewrite (proj2 (Hcompare p) (Hall p Hp)). reflexivity. }
    rewrite Hm, Hd. reflexivity.
Qed.

End SignatureBands.

(** *** Sweep profiles *)

Lemma presets_loop_spec raw_presets :
  forall acc presets,
    presets_loop raw_presets acc = Ok presets ->
    exists added,
      presets = acc ++ added
      /\ length added = length raw_presets
      /\ forall preset, In preset added ->
           preset <> "" /\ exists raw, In (JStr raw) raw_presets /\ preset = strip raw.
Proof.
  induction raw_presets as [|v rest IH]; intros acc presets H.
  - injection H as <-. exists []. rewrite app_nil_r. split; [reflexivity|].
    split; [reflexivity | intros p []].
  - cbn [presets_loop] in H. destruct v as [| | |raw| |]; try discriminate.
    destruct (String.eqb_spec (strip raw) "") as [|Hne]; [discriminate|].
    destruct (IH _ _ H) as (added & -> & Hlen & Hall).
    exists (strip raw :: added). rewrite <- app_assoc. split; [reflexivity|].
    split; [cbn; rewrite Hlen; reflexivity|].
    intros p [<- | Hp].
    + split; [exact Hne|]. exists raw. split; [left; reflexivity | reflexivity].
    + destruct (Hall p Hp) as (Hp0 & raw0 & Hin & ->).
      split; [exact Hp0|]. exists raw0. split; [right; exact Hin | reflexivity].
Qed.

Lemma presets_loop_error raw_presets :
  forall acc e, presets_loop raw_presets acc = Err e -> e = ValueError.
Proof.
  induction raw_presets as [|v rest IH]; intros acc e H; [discriminate|].
  cbn [presets_loop] in H. destruct v as [| | |raw| |]; try (injection H as <-; reflexivity).
  destruct (String.eqb (strip raw) ""); [injection H as <-; reflexivity|].
  exact (IH _ _ H).
Qed.

Lemma overrides_loop_spec items :
  forall acc normalized,
    overrides_loop items acc = Ok normalized ->
    (forall key, In key (map fst normalized) ->
       In key (map fst acc) \/ (In key (map fst items) /\ strip key <> ""))
    /\ (items <> [] -> normalized <> []).
Proof.
  induction items as [|[key value] rest IH]; intros acc normalized H.
  - injection H as <-. split; [auto | contradiction].
  - cbn [overrides_loop] in H.
    destruct (String.eqb_spec (strip key) "") as [|Hne]; [discriminate|].
    assert (Hstep : forall v,
              overrides_loop rest (od_set acc key v) = Ok normalized ->
              (forall k, In k (map fst normalized) ->
                 In k (map fst acc) \/ (In k (map fst ((key, value) :: rest))
                                        /\ strip k <> ""))
              /\ (((key, value) :: rest) <> [] -> normalized <> [])).
    { intros v Hv. destruct (IH _ _ Hv) as [Hkeys Hne'].
      split.
      - intros k Hk. destruct (Hkeys k Hk) as [Hacc | [Hin Hs]].
        + apply od_set_keys in Hacc as [-> | Hacc]; [|auto].
          right. split; [left; reflexivity | exact Hne].
        + right. split; [right; exact Hin | exact Hs].
      - intros _. destruct rest as [|r rs].
        + cbn in Hv. injection Hv as <-.
          intros E. assert (Hin : In key (map fst (od_set acc key v))).
          { apply od_set_keys. left. reflexivity. }
          rewrite E in Hin. destruct Hin.
        + apply Hne'. discriminate. }
    destruct value; try discriminate; eapply Hstep; exact H.
Qed.

Lemma overrides_loop_error items :
  forall acc e, overrides_loop items acc = Err e -> e = ValueError.
Proof.
  induction items as [|[key value] rest IH]; intros acc e H; [discriminate|].
  cbn [overrides_loop] in H.
  destruct (String.eqb (strip key) ""); [injection H as <-; reflexivity|].
  destruct value; try (injection H as <-; reflexivity); exact (IH _ _ H).
Qed.

Lemma validate_perturbation_overrides_spec name overrides normalized :
  _validate_perturbation_overrides name overrides = Ok normalized ->
  normalized <> []
  /\ forall key, In key (map fst normalized) -> strip key <> "".
Proof.
  unfold _validate_perturbation_overrides.
  destruct overrides as [[| | | | |items]|]; try discriminate.
  intros H. bind_inv H as n Hn. destruct n as [|entry n']; [discriminate|].
  injection H as <-. split; [discriminate|].
  intros key Hkey. destruct (overrides_loop_spec _ _ _ Hn) as [Hkeys _].
  destruct (Hkeys key Hkey) as [[] | [_ Hs]]. exact Hs.
Qed.

Lemma validate_perturbation_overrides_error name overrides e :
  _validate_perturbation_overrides name overrides = Err e -> e = ValueError.
Proof.
  unfold _validate_perturbation_overrides.
  destruct overrides as [[| | | | |items]|]; try (intros [= <-]; reflexivity).
  destruct (overrides_loop items []) as [n|e0] eqn:E; cbn [rbind].
  - destruct n; [intros [= <-]; reflexivity | discriminate].
  - intros [= <-]. exact (overrides_loop_error _ _ _ E).
Qed.

Definition valid_perturbation (p : string * odict scad_value) : Prop :=
  fst p <> "" /\ snd p <> [] /\ forall key, In key (map fst (snd p)) -> strip key <> "".

Lemma perturbations_loop_spec raw :
  forall acc perturbations,
    perturbations_loop raw acc = Ok perturbations ->
    (forall p, In p acc -> valid_perturbation p) ->
    forall p, In p perturbations -> valid_perturbation p.
Proof.
  induction raw as [|v rest IH]; intros acc perturbations H Hacc.
  - injection H as <-. exact Hacc.
  - cbn [perturbations_loop] in H. destruct v as [| | | | |entry]; try discriminate.
    destruct (od_get entry "name") as [[| | |name| |]|]; try discriminate.
    destruct (String.eqb_spec (strip name) "") as [|Hne]; [discriminate|].
    bind_inv H as overrides Hov.
    apply (IH _ _ H). intros p Hp. apply in_app_or in Hp as [Hp | [<- | []]].
    + exact (Hacc p Hp).
    + apply validate_perturbation_overrides_spec in Hov as [Hov1 Hov2].
      split; [exact Hne|]. split; [exact Hov1 | exact Hov2].
Qed.

Lemma perturbations_loop_error raw :
  forall acc e, perturbations_loop raw acc = Err e -> e = ValueError.
Proof.
  induction raw as [|v rest IH]; intros acc e H; [discriminate|].
  cbn [perturbations_loop] in H.
  destruct v as [| | | | |entry]; try (injection H as <-; reflexivity).
  destruct (od_get entry "name") as [[| | |name| |]|]; try (injection H as <-; reflexivity).
  destruct (String.eqb (strip name) ""); [injection H as <-; reflexivity|].
  destruct (_validate_perturbation_overrides (strip name) (od_get entry "overrides"))
    as [overrides|e0] eqn:E; cbn [rbind] in H.
  - exact (IH _ _ H).
  - injection H as <-. exact (validate_perturbation_overrides_error _ _ _ E).
Qed.

Section ProfileFacts.
Context {World : Type} {host : Host World}.
Variable joinpath : string -> string -> string.

Lemma normalize_sweep_profile_spec w config_path profile_name profile :
  normalize_sweep_profile w config_path profile_name = Ok profile ->
  pd_name profile = profile_name
  /\ pd_source_file profile = config_path
  /\ pd_presets profile <> []
  /\ (forall preset, In preset (pd_presets profile) -> preset <> "")
  /\ (forall p, In p (pd_perturbations profile) -> valid_perturbation p).
Proof.
  unfold normalize_sweep_profile.
  destruct (load_json w config_path) as [config_data|]; [|discriminate].
  destruct (od_get config_data "profiles") as [[| | | | |raw_profiles]|]; try discriminate.
  destruct (od_get raw_profiles profile_name) as [[| | | | |raw_profile]|];
    try discriminate.
  destruct (od_get raw_profile "presets") as [[| | | |[|first rest]|]|]; try discriminate.
  intros H. bind_inv H as presets Hpresets.
  destruct (od_get_default raw_profile "perturbations" (JArr []))
    as [| | | |raw_perturbations|]; try discriminate.
  bind_inv H as perturbations Hpert. injection H as <-.
  cbn [pd_name pd_source_file pd_presets pd_perturbations].
  apply presets_loop_spec in Hpresets as (added & -> & Hlen & Hall).
  split; [reflexivity|]. split; [reflexivity|]. split; [|split].
  - destruct added; [discriminate Hlen | discriminate].
  - intros preset Hp. exact (proj1 (Hall preset Hp)).
  - apply (perturbations_loop_spec _ _ _ Hpert). intros p [].
Qed.

Lemma normalize_sweep_profile_error w config_path profile_name e :
  normalize_sweep_profile w config_path profile_name = Err e -> e = ValueError.
Proof.
  unfold normalize_sweep_profile.
  destruct (load_json w config_path) as [config_data|]; [|intros [= <-]; reflexivity].
  destruct (od_get config_data "profiles") as [[| | | | |raw_profiles]|];
    try (intros [= <-]; reflexivity).
  destruct (od_get raw_profiles profile_name) as [[| | | | |raw_profile]|];
    try (intros [= <-]; reflexivity).
  destruct (od_get raw_profile "presets") as [[| | | |[|first rest]|]|];
    try (intros [= <-]; reflexivity).
  destruct (presets_loop (first :: rest) []) as [presets|e0] eqn:Ep; cbn [rbind].
  2: { intros [= <-]. exact (presets_loop_error _ _ _ Ep). }
  destruct (od_get_default raw_profile "perturbations" (JArr []))
    as [| | | |raw_perturbations|]; try (intros [= <-]; reflexivity).
  destruct (perturbations_loop raw_perturbations []) as [perturbations|e0] eqn:Eq;
    cbn [rbind]; [discriminate|].
  intros [= <-]. exact (perturbations_loop_error _ _ _ Eq).
Qed.

(** X11.  A sweep profile that resolves has at least one preset, no preset
    name is empty, the file of every preset exists, and every perturbation
    has a non-empty name and at least one override, none under a blank
    key.  A profile that does not resolve raises [ValueError], the one
    exception [main] turns into exit code 2, and nothing else. *)
Theorem X11_resolved_profile_is_well_formed
    (w : World) (args : profile_args) (project_root : string) :
  (forall profile,
      resolve_sweep_profile joinpath w args project_root = Ok profile ->
      pd_presets profile <> []
      /\ (forall preset, In preset (pd_presets profile) ->
            preset <> ""
            /\ path_exists w (preset_file joinpath project_root preset) = true)
      /\ (forall p, In p (pd_perturbations profile) -> valid_perturbation p))
  /\ (forall e,
        resolve_sweep_profile joinpath w args project_root = Err e -> e = ValueError).
Proof.
  unfold resolve_sweep_profile.
  set (profile_name := match arg_sweep_profile args with
                       | Some (String _ _ as name) => name
                       | _ => if arg_quick args then SWEEP_PROFILE_QUICK
                              else SWEEP_PROFILE_FULL
                       end).
  destruct (normalize_sweep_profile w (arg_sweep_config args) profile_name)
    as [normalized|e0] eqn:En; cbn [rbind].
  2: { split; [discriminate|]. intros e [= <-].
       exact (normalize_sweep_profile_error _ _ _ _ En). }
  apply normalize_sweep_profile_spec in En as (_ & _ & Hne & Hnames & Hpert).
  set (chosen := match arg_sweep_presets args with
                 | Some (_ :: _ as names) => _
                 | _ => Ok normalized
                 end).
  assert (Hchosen : (exists profile,
                        chosen = Ok profile
                        /\ pd_presets profile <> []
                        /\ (forall preset, In preset (pd_presets profile) -> preset <> "")
                        /\ pd_perturbations profile = pd_perturbations normalized)
                    \/ chosen = Err ValueError).
  { unfold chosen. destruct (arg_sweep_presets args) as [[|name names]|].
    - left. exists normalized. auto.
    - set (kept := List.filter _ (name :: names)).
      destruct (map strip kept) as [|p ps] eqn:Ek; [right; reflexivity|].
      left. eexists. split; [reflexivity|]. cbn [pd_presets pd_perturbations].
      split; [discriminate|]. split; [|reflexivity].
      intros preset Hp. rewrite <- Ek in Hp.
      apply in_map_iff in Hp as (raw & <- & Hraw).
      apply filter_In in Hraw as [_ Hraw].
      destruct (String.eqb_spec (strip raw) ""); [discriminate | assumption].
    - left. exists normalized. auto. }
  destruct Hchosen as [(profile & -> & Hp1 & Hp2 & Hp3) | ->]; cbn [rbind].
  2: { split; [discriminate|]. intros e [= <-]. reflexivity. }
  destruct (List.filter _ (pd_presets profile)) as [|m ms] eqn:Ef.
  2: { split; [discriminate|]. intros e [= <-]. reflexivity. }
  split; [|discriminate].
  intros profile' [= <-]. split; [exact Hp1|]. split.
  - intros preset Hin. split; [exact (Hp2 preset Hin)|].
    destruct (path_exists w (preset_file joinpath project_root preset)) eqn:Ex;
      [reflexivity|].
    exfalso.
    assert (Hm : In preset (List.filter
                   (fun preset => negb (path_exists w
                                          (preset_file joinpath project_root preset)))
                   (pd_presets profile))).
    { apply filter_In. split; [exact Hin|]. rewrite Ex. reflexivity. }
    rewrite Ef in Hm. destruct Hm.
  - rewrite Hp3. exact Hpert.
Qed.

End ProfileFacts.

(** ** The theorems on the synthetic project *)

Import Synthetic.

Lemma C5_witness :
  (forall name expected,
      In (name, expected) CANONICAL_REFERENCE_CONSTANTS ->
      is_Some (canonical_constants !! name))
  /\ exists deltas,
       evaluate_reference_constant_lock canonical_constants = Ok (true, deltas)
       /\ length deltas = 9%nat.
Proof.
  assert (Hall : forall name expected,
             In (name, expected) CANONICAL_REFERENCE_CONSTANTS ->
             is_Some (canonical_constants !! name)).
  { intros name expected Hin. cbn in Hin.
    repeat (destruct Hin as [[= <- <-] | Hin]; [vm_compute; eexists; reflexivity|]).
    destruct Hin. }
  split; [exact Hall|].
  destruct (C5_constants_locked_iff_within_epsilon canonical_constants Hall)
    as (locked & deltas & Hrun & Hlocked & Hdeltas).
  exists deltas. split.
  - rewrite Hrun. do 2 f_equal. apply Hlocked.
    intros name expected observed Hin. cbn in Hin.
    repeat (destruct Hin as [[= <- <-] | Hin];
            [vm_compute; intros [= <-]; discriminate|]).
    destruct Hin.
  - apply Forall2_length in Hdeltas. exact Hdeltas.
Defined.



Lemma C2_witness :
  exists s path,
    measure_slot_geometry box_hull 16 33 (-(7)) 0 3.625 default_thresholds = Ok s
    /\ corridor_path (observed_x_mm s) (observed_y_mm s) (-(7)) 0 29 = Ok path
    /\ Z.of_nat (length path) = 29%Z
    /\ pz (List.last path (0, 0, 0)) = 0
    /\ corridor_pass s = true.
Proof.
  eexists.
  match goal with
  | |- exists path, measure_slot_geometry ?h ?x ?y ?sz ?ez ?b ?t = Ok ?s /\ _ =>
      assert (Hrun : measure_slot_geometry h x y sz ez b t = Ok s)
        by (vm_compute; reflexivity);
      destruct (C2_insertion_corridor_check h x y sz ez b t s Hrun)
        as (path & Hpath & Hlen & _ & Hlast & _ & _ & _ & Hpass)
  end.
  exists path. split; [exact Hrun|]. split; [exact Hpath|]. split; [exact Hlen|].
  split; [apply Hlast; discriminate|].
  apply Hpass. discriminate.
Defined.

Lemma C3_witness :
  exists r1 r2,
    analyze_frame_fit box_hull frame 16 (-(45)) default_thresholds = Ok [r1; r2]
    /\ placement_x_mm r1 = -(1) * 16
    /\ placement_x_mm r2 = 1 * 16
    /\ interference_pass r1 = true
    /\ interference_pass r2 = true.
Proof.
  assert (Hrun : exists results,
             analyze_frame_fit box_hull frame 16 (-(45)) default_thresholds = Ok results
             /\ forallb interference_pass results = true).
  { eexists. split; vm_compute; reflexivity. }
  destruct Hrun as (results & Hrun & Hpass).
  destruct (C3_frame_interference_both_conditions _ _ _ _ _ results Hrun)
    as (r1 & r2 & -> & Hx1 & Hx2 & _ & _).
  exists r1, r2. cbn in Hpass. apply andb_true_iff in Hpass as [H1 H2].
  apply andb_true_iff in H2 as [H2 _].
  repeat split; assumption.
Defined.



Lemma C10_witness :
  exists r,
    analyze_frame_placement (provider := solid_kernel) box_hull frame 16 (-(45))
      default_thresholds 1 = Ok r
    /\ bottom_probe_count r = 2%nat
    /\ floor_clearance_samples_mm r = []
    /\ floor_clearance_min_mm_obs r = None
    /\ floor_clearance_pass r = false.
Proof.
  assert (Hrun : exists r,
             @analyze_frame_placement solid_kernel box_hull frame 16 (-(45))
               default_thresholds 1 = Ok r
             /\ bottom_probe_count r = 2%nat).
  { eexists. split; vm_compute; reflexivity. }
  destruct Hrun as (r & Hrun & Hcount).
  destruct (@C10_floor_clearance_fails_closed solid_kernel _ _ _ _ _ _ r Hrun)
    as (min_z & bottom & _ & _ & Hsamples & Hnohit & Hnone & _).
  assert (Hall : forall p, In p bottom ->
            @floor_clearance_of solid_kernel box_hull p = []).
  { intros p _. apply Hnohit. intros h []. }
  exists r. split; [exact Hrun|]. split; [exact Hcount|].
  split; [|apply Hnone; exact Hall].
  rewrite Hsamples. clear -Hall.
  induction bottom as [|p rest IH]; [reflexivity|]. cbn [flat_map].
  rewrite (Hall p (or_introl eq_refl)). apply IH.
  intros q Hq. apply Hall. right. exact Hq.
Defined.

Lemma C6_witness :
  exists result w',
    robustness_sweep project sweep_defaults "/p" "/p/reports" (Some "openscad")
      None full_profile = Ok (result, w')
    /\ sw_pass result = true
    /\ sw_scenario_count result = 2%nat
    /\ sw_errors result = []
    /\ (forall sc, In sc (sw_scenarios result) ->
          truthy_get (sc_gates sc) "slot_insertion_corridor" = true
          /\ truthy_get (sc_gates sc) "frame_interference" = true
          /\ truthy_get (sc_gates sc) "frame_floor_clearance" = true).
Proof.
  assert (Hrun : exists result w',
             robustness_sweep project sweep_defaults "/p" "/p/reports"
               (Some "openscad") None full_profile = Ok (result, w')
             /\ sw_pass result = true /\ sw_scenario_count result = 2%nat).
  { do 2 eexists. split; [vm_compute; reflexivity | split; reflexivity]. }
  destruct Hrun as (result & w' & Hrun & Hpass & Hcount).
  exists result, w'. split; [exact Hrun|]. split; [exact Hpass|]. split; [exact Hcount|].
  destruct (proj1 (C6_sweep_pass_iff_scenarios_gates_no_errors
                     _ _ _ _ _ _ _ result w' Hrun) Hpass) as (_ & Hgates & Herrors).
  split; [exact Herrors | exact Hgates].
Defined.



Lemma C7_witness :
  exists r,
    manufacturability_validation project manufacturability_defaults "/p"
      (Some baseline_report) = Ok r
    /\ man_pass r = false
    /\ (man_pass r = true <->
          od_get (man_gates r) "minimum_wall_thickness" = Some true
          /\ od_get (man_gates r) "sampled_local_wall_thickness" = Some true
          /\ od_get (man_gates r) "recess_skin_thickness" = Some true
          /\ od_get (man_gates r) "overhang_risk" = Some true
          /\ od_get (man_gates r) "stable_contact_footprint" = Some true).
Proof.
  eexists. split; [vm_compute; reflexivity|]. split; [reflexivity|].
  refine (proj1 (C7_manufacturability_pass_iff_five_gates
                   project manufacturability_defaults "/p"
                   (Some baseline_report) _ _)).
  vm_compute. reflexivity.
Defined.

(** C7 as stated: the four named checks pass, the overall verdict is fail. *)
Lemma C7_four_named_gates_do_not_decide :
  exists r,
    manufacturability_validation project manufacturability_defaults "/p"
      (Some baseline_report) = Ok r
    /\ od_get (man_gates r) "minimum_wall_thickness" = Some true
    /\ od_get (man_gates r) "sampled_local_wall_thickness" = Some true
    /\ od_get (man_gates r) "overhang_risk" = Some true
    /\ od_get (man_gates r) "stable_contact_footprint" = Some true
    /\ od_get (man_gates r) "recess_skin_thickness" = Some false
    /\ man_pass r = false
    /\ ~ (man_pass r = true <->
            od_get (man_gates r) "minimum_wall_thickness" = Some true
            /\ od_get (man_gates r) "sampled_local_wall_thickness" = Some true
            /\ od_get (man_gates r) "overhang_risk" = Some true
            /\ od_get (man_gates r) "stable_contact_footprint" = Some true).
Proof.
  eexists. split; [vm_compute; reflexivity|].
  do 6 (split; [reflexivity|]).
  intros [_ H]. discriminate H. repeat split; reflexivity.
Qed.



Lemma C8_witness :
  0 < 2.5 /\ 0 == -(5) + 2.5 * inject_Z (Z.of_nat 2) /\ 0 <= 10 /\ 10 <= 20
  /\ forall a, In a (sampled_angles 0 10 (inject_Z 2 * 2.5)) ->
        In a (sampled_angles (-(5)) 20 2.5)
        \/ (a = round6 10 /\ ~ on_grid (-(5)) 2.5 10).
Proof.
  assert (H1 : 0 < 2.5) by reflexivity.
  assert (H2 : 0 == -(5) + 2.5 * inject_Z (Z.of_nat 2)) by reflexivity.
  assert (H3 : 0 <= 10) by discriminate.
  assert (H4 : 10 <= 20) by discriminate.
  split; [exact H1|]. split; [exact H2|]. split; [exact H3|]. split; [exact H4|].
  exact (C8_sampling_refines_on_aligned_grids 0 10 (-(5)) 20 2.5 2 2 H1 H2 H3 H4).
Defined.

(** C8 as stated fails: a range widened at its lower end moves the grid, a
    smaller step that does not divide the old one skips old grid angles,
    and a range widened at its upper end drops the old upper bound. *)
Lemma C8_wider_range_or_finer_step_drops_angles :
  (* range B = [-1, 10] contains range A = [0, 10], same step 5 *)
  (-(1) <= 0 /\ 10 <= 10
   /\ sampled_angles 0 10 5 = [0.000000; 5.000000; 10.000000]
   /\ sampled_angles (-(1)) 10 5 = [-1.000000; 4.000000; 9.000000; 10.000000]
   /\ In 5.000000 (sampled_angles 0 10 5)
   /\ ~ sampled 5.000000 (sampled_angles (-(1)) 10 5))
  (* same range, step 3 smaller than step 5 *)
  /\ (3 <= 5
      /\ sampled_angles 0 10 3
         = [0.000000; 3.000000; 6.000000; 9.000000; 10.000000]
      /\ ~ sampled 5.000000 (sampled_angles 0 10 3))
  (* range B = [0, 10] contains range A = [0, 7], same step 5 *)
  /\ (0 <= 0 /\ 7 <= 10
      /\ sampled_angles 0 7 5 = [0.000000; 5.000000; 7.000000]
      /\ sampled_angles 0 10 5 = [0.000000; 5.000000; 10.000000]
      /\ ~ sampled 7.000000 (sampled_angles 0 10 5)).
Proof.
  assert (Hno : forall (x : Q) (angles : list Q),
            forallb (fun b => negb (Qeq_bool x b)) angles = true ->
            ~ sampled x angles).
  { intros x angles Hall (b & Hb & E).
    rewrite forallb_forall in Hall. specialize (Hall b Hb).
    apply Qeq_bool_iff in E. rewrite E in Hall. discriminate. }
  repeat split; try discriminate; try (vm_compute; reflexivity).
  - vm_compute. auto.
  - apply Hno. vm_compute. reflexivity.
  - apply Hno. vm_compute. reflexivity.
  - apply Hno. vm_compute. reflexivity.
Qed.

(** ** The further properties on the synthetic project *)

Import SyntheticReference.

Lemma X1_witness :
  exists constants value,
    parse_reference_constants ast_parse assignment_match (Some reference_lines)
      = Ok constants
    /\ constants !! "REFERENCE_BALL_DIAMETER" = Some value
    /\ eval_expression ast_parse constants "REFERENCE_SLOT_DIAMETER - 0.25" = Ok value
    /\ value == 7.25.
Proof.
  assert (Hrun : exists constants,
             parse_reference_constants ast_parse assignment_match
               (Some reference_lines) = Ok constants
             /\ exists value, constants !! "REFERENCE_BALL_DIAMETER" = Some value
                              /\ value == 7.25).
  { eexists. split; [vm_compute; reflexivity|]. eexists. split; [vm_compute; reflexivity|].
    reflexivity. }
  destruct Hrun as (constants & Hrun & value & Hvalue & Heq).
  destruct (X1_resolved_constants_satisfy_their_expressions ast_parse assignment_match
              reference_lines constants Hrun) as [Hdef _].
  destruct (Hdef "REFERENCE_BALL_DIAMETER" "REFERENCE_SLOT_DIAMETER - 0.25")
    as (value' & Hvalue' & Hev).
  { vm_compute. reflexivity. }
  exists constants, value'. split; [exact Hrun|]. split; [exact Hvalue'|].
  split; [exact Hev|].
  rewrite Hvalue in Hvalue'. injection Hvalue' as <-. exact Heq.
Defined.

Lemma X2_witness :
  let expressions := collect_expressions assignment_match broken_lines in
  parse_reference_constants ast_parse assignment_match (Some broken_lines)
    = Err ValueError
  /\ exists e,
       resolve_loop ast_parse (length expressions) expressions ∅ = Some (Err e)
       /\ parse_reference_constants ast_parse assignment_match (Some broken_lines)
          = Err e.
Proof.
  cbv zeta. split; [vm_compute; reflexivity|].
  refine (X2_undefined_name_fails_resolution ast_parse assignment_match broken_lines
            "REFERENCE_FOOT_Z" "REFERENCE_FOOT_HEIGHT + 1" "REFERENCE_FOOT_HEIGHT"
            (EBinOp Add (EName "REFERENCE_FOOT_HEIGHT") (EConstant 1)) _ _ _ _).
  - vm_compute. reflexivity.
  - vm_compute. reflexivity.
  - cbn. left. reflexivity.
  - vm_compute. reflexivity.
Defined.

Lemma X3_witness :
  exists constants locked deltas r,
    parse_reference_constants ast_parse assignment_match (Some reference_lines)
      = Ok constants
    /\ evaluate_reference_constant_lock constants = Ok (locked, deltas)
    /\ length deltas = 9%nat
    /\ analyze_reference_fit box_hull frame slot_plug constants
         (build_thresholds default_thresholds) locked = Ok r.
Proof.
  assert (Hrun : exists constants,
             parse_reference_constants ast_parse assignment_match
               (Some reference_lines) = Ok constants).
  { eexists. vm_compute. reflexivity. }
  destruct Hrun as (constants & Hrun).
  destruct (X3_parsed_constants_feed_lock_and_analysis ast_parse assignment_match
              (provider := kernel) reference_lines constants Hrun)
    as ((locked & deltas & Hlock & Hlen) & Hfit).
  destruct (Hfit box_hull frame slot_plug default_thresholds locked) as (r & Hr).
  { intros E. discriminate E. }
  { vm_compute. discriminate. }
  { discriminate. }
  exists constants, locked, deltas, r.
  split; [exact Hrun|]. split; [exact Hlock|]. split; [exact Hlen | exact Hr].
Defined.

Lemma X4_witness :
  exists s grid best,
    measure_slot_geometry box_hull 16 33 (-(7)) 0 3.625 default_thresholds = Ok s
    /\ slot_scan_grid 16 33 (-(7)) 0.8 0.1 = Ok grid
    /\ nth_error grid best = Some (observed_x_mm s, observed_y_mm s, -(7))
    /\ (forall g, In g grid -> - signed_distance box_hull g <= seat_free_radius_mm s).
Proof.
  eexists.
  match goal with
  | |- exists grid best, measure_slot_geometry ?h ?x ?y ?sz ?ez ?b ?t = Ok ?s /\ _ =>
      assert (Hrun : measure_slot_geometry h x y sz ez b t = Ok s)
        by (vm_compute; reflexivity);
      destruct (X4_slot_axis_is_first_grid_maximum h x y sz ez b t s Hrun)
        as (grid & best & Hgrid & Hbest & _ & Hmax & _)
  end.
  exists grid, best. split; [exact Hrun|]. split; [exact Hgrid|].
  split; [exact Hbest | exact Hmax].
Defined.

Lemma X5_witness :
  exists r m,
    analyze_frame_placement box_hull frame 16 (-(45)) default_thresholds 1 = Ok r
    /\ floor_clearance_min_mm_obs r = Some m
    /\ 1e-6 < m
    /\ (forall c, In c (floor_clearance_samples_mm r) -> m <= c).
Proof.
  assert (Hrun : exists r m,
             analyze_frame_placement box_hull frame 16 (-(45)) default_thresholds 1
               = Ok r
             /\ floor_clearance_min_mm_obs r = Some m).
  { do 2 eexists. split; vm_compute; reflexivity. }
  destruct Hrun as (r & m & Hrun & Hm).
  destruct (X5_floor_clearance_is_distance_to_nearest_hit_below
              _ _ _ _ _ _ r Hrun) as [Hsamples Hmin].
  destruct (Hmin m Hm) as [Hin Hle].
  exists r, m. split; [exact Hrun|]. split; [exact Hm|].
  split; [exact (proj1 (Hsamples m Hin)) | exact Hle].
Defined.

Lemma X6_witness :
  exists r,
    analyze_frame_placement box_hull frame 16 (-(45)) default_thresholds 1 = Ok r
    /\ (1 <= bottom_probe_count r)%nat
    /\ (forall v, In v (map (translate (1 * 16, 0.0, -(45))) (vertices frame)) ->
          frame_bottom_z_mm r <= pz v).
Proof.
  assert (Hrun : exists r,
             analyze_frame_placement box_hull frame 16 (-(45)) default_thresholds 1
               = Ok r).
  { eexists. vm_compute. reflexivity. }
  destruct Hrun as (r & Hrun).
  pose proof (X6_lowest_vertex_is_a_contact_point _ _ _ _ _ _ r Hrun) as H.
  cbv zeta in H. destruct H as (_ & Hlow & Htol & _).
  exists r. split; [exact Hrun|]. split; [apply Htol; discriminate | exact Hlow].
Defined.

Import SyntheticProfile.

Lemma X7_witness :
  sampled_angles 10 0 5 = sampled_angles 0 10 5
  /\ (exists rest, sampled_angles 0 10 5 = round6 0 :: rest)
  /\ (exists v, List.last (sampled_angles 0 10 5) 0 = round6 v
                /\ 10 - 1e-9 <= v /\ v <= 10).
Proof.
  assert (H1 : 0 < 5) by reflexivity.
  assert (H2 : 0 <= 10) by discriminate.
  pose proof (X7_sampled_angles_span_the_range 0 10 5 H1 H2) as H.
  cbv zeta in H. destruct H as (Hswap & Hfirst & _ & Hlast).
  split; [exact Hswap|]. split; [exact Hfirst | exact Hlast].
Defined.


Lemma synthetic_read_back (w : world) (path : string) (fields : list (string * json)) :
  load_json (write_json w path (JObj fields)) path = Some fields.
Proof.
  unfold load_json. cbn [write_json path_exists read_json host add_document files documents].
  cbn [str_in existsb]. rewrite String.eqb_refl. cbn [orb].
  rewrite od_get_set_eq. reflexivity.
Qed.

Lemma X9_witness :
  let r :=
    fst (golden_signature_validation project signature_baseline_args
           [baseline_scenario] ["gcsc_default"]) in
  sig_drifts r = []
  /\ sig_missing_presets r = []
  /\ sig_raw_pass r = true.
Proof.
  cbv zeta.
  destruct (X9_fresh_baseline_accepts_its_observations project signature_baseline_args
              [baseline_scenario] ["gcsc_default"] eq_refl
              (synthetic_read_back project "/p/golden_geometry_signatures.json"))
    as (Hdrifts & _ & Hraw).
  split; [exact Hdrifts|]. split; [vm_compute; reflexivity|].
  apply Hraw. intros preset [<- | []]. eexists. vm_compute. reflexivity.
Defined.

Lemma X10_witness :
  let r :=
    fst (golden_signature_validation project signature_baseline_args
           [baseline_scenario] ["gcsc_default"]) in
  sig_raw_pass r = true
  /\ exists observed,
       od_get (sig_observed r) "gcsc_default" = Some observed /\ observed <> [].
Proof.
  cbv zeta.
  assert (Hfile : exists expected,
             load_json
               (snd (golden_signature_validation project signature_baseline_args
                       [baseline_scenario] ["gcsc_default"]))
               (arg_signature_file signature_baseline_args) = Some expected).
  { eexists. vm_compute. reflexivity. }
  destruct Hfile as (expected & Hfile).
  pose proof (X10_raw_pass_iff_every_stored_band_holds project signature_baseline_args
                [baseline_scenario] ["gcsc_default"] expected Hfile) as H.
  cbv zeta in H.
  assert (Hraw : sig_raw_pass
                   (fst (golden_signature_validation project signature_baseline_args
                           [baseline_scenario] ["gcsc_default"])) = true)
    by (vm_compute; reflexivity).
  split; [exact Hraw|].
  destruct (proj1 H Hraw "gcsc_default" (or_introl eq_refl))
    as (observed & _ & _ & Hobs & Hne & _).
  exists observed. split; assumption.
Defined.

Lemma X11_witness :
  exists profile,
    resolve_sweep_profile path_join project_with_config profile_defaults "/p"
      = Ok profile
    /\ pd_presets profile = ["gcsc_default"]
    /\ (forall preset, In preset (pd_presets profile) ->
          preset <> ""
          /\ path_exists project_with_config (preset_file path_join "/p" preset) = true)
    /\ resolve_sweep_profile path_join project profile_defaults "/p" = Err ValueError.
Proof.
  assert (Hrun : exists profile,
             resolve_sweep_profile path_join project_with_config profile_defaults "/p"
               = Ok profile
             /\ pd_presets profile = ["gcsc_default"]).
  { eexists. split; vm_compute; reflexivity. }
  destruct Hrun as (profile & Hrun & Hpresets).
  destruct (X11_resolved_profile_is_well_formed path_join project_with_config
              profile_defaults "/p") as [Hok _].
  destruct (Hok profile Hrun) as (_ & Hfiles & _).
  exists profile. split; [exact Hrun|]. split; [exact Hpresets|].
  split; [exact Hfiles|]. vm_compute. reflexivity.
Defined.
